(** * WedSync TEST-WORKFLOW orchestrator: issue normalisation, scoring, routing

    A shallow embedding of [TEST-WORKFLOW/ORCHESTRATOR/orchestrator.py] and of
    [TEST-WORKFLOW/INGESTION/parse-sonarqube.py], followed by the properties
    the specification states about them and by further properties of the
    code.

    Conventions of the embedding.
    - A Python [str] is a [string]: the sequence of its UTF-8 bytes.  Case
      mapping ([lower], [upper]) and white space are the ASCII ones; bytes
      above 127 are left alone.
    - A Python [int] is a [Z].
    - A parsed JSON document is a [json] value; a JSON object keeps its
      members in order, as the [dict] built by [json.load] does.
    - A call that can raise returns an [outcome]; the exception classes the
      code distinguishes are the constructors of [exn].
    - The file system, [git] and the clock are fields of a [World]. *)

From Stdlib Require Import ZArith Ascii String List Bool Lia.
From Stdlib Require Import Numbers.DecimalString.
From stdpp Require Import base gmap strings list.

Local Open Scope string_scope.
Local Open Scope Z_scope.

(** ** hashlib.md5

    [hashlib.md5(data).hexdigest()], RFC 1321, on 32-bit words held in [Z]
    with the wrap-around written out. *)

Module Md5.

Definition w32 (x : Z) : Z := x mod 2 ^ 32.

Definition rotl32 (x c : Z) : Z :=
  w32 (Z.lor (Z.shiftl x c) (Z.shiftr x (32 - c))).

Definition lnot32 (x : Z) : Z := Z.lxor x 4294967295.

Definition shifts : list Z :=
  [ 7; 12; 17; 22; 7; 12; 17; 22; 7; 12; 17; 22; 7; 12; 17; 22;
    5; 9; 14; 20; 5; 9; 14; 20; 5; 9; 14; 20; 5; 9; 14; 20;
    4; 11; 16; 23; 4; 11; 16; 23; 4; 11; 16; 23; 4; 11; 16; 23;
    6; 10; 15; 21; 6; 10; 15; 21; 6; 10; 15; 21; 6; 10; 15; 21 ].

Definition sines : list Z :=
  [ 3614090360; 3905402710; 606105819; 3250441966;
    4118548399; 1200080426; 2821735955; 4249261313;
    1770035416; 2336552879; 4294925233; 2304563134;
    1804603682; 4254626195; 2792965006; 1236535329;
    4129170786; 3225465664; 643717713; 3921069994;
    3593408605; 38016083; 3634488961; 3889429448;
    568446438; 3275163606; 4107603335; 1163531501;
    2850285829; 4243563512; 1735328473; 2368359562;
    4294588738; 2272392833; 1839030562; 4259657740;
    2763975236; 1272893353; 4139469664; 3200236656;
    681279174; 3936430074; 3572445317; 76029189;
    3654602809; 3873151461; 530742520; 3299628645;
    4096336452; 1126891415; 2878612391; 4237533241;
    1700485571; 2399980690; 4293915773; 2240044497;
    1873313359; 4264355552; 2734768916; 1309151649;
    4149444226; 3174756917; 718787259; 3951481745 ].

Definition state : Type := Z * Z * Z * Z.

Definition init : state := (1732584193, 4023233417, 2562383102, 271733878).

Definition mix (i : nat) (b c d : Z) : Z * nat :=
  if (i <? 16)%nat then (Z.lor (Z.land b c) (Z.land (lnot32 b) d), i)
  else if (i <? 32)%nat then
    (Z.lor (Z.land d b) (Z.land (lnot32 d) c), ((5 * i + 1) mod 16)%nat)
  else if (i <? 48)%nat then (Z.lxor (Z.lxor b c) d, ((3 * i + 5) mod 16)%nat)
  else (Z.lxor c (Z.lor b (lnot32 d)), ((7 * i) mod 16)%nat).

Definition step (m : list Z) (st : state) (i : nat) : state :=
  let '(a, b, c, d) := st in
  let '(f, g) := mix i b c d in
  let f' := w32 (f + a + nth i sines 0 + nth g m 0) in
  (d, w32 (b + rotl32 f' (nth i shifts 0)), b, c).

Definition compress (st : state) (m : list Z) : state :=
  let '(a, b, c, d) := st in
  let '(a', b', c', d') := fold_left (step m) (seq 0 64) st in
  (w32 (a + a'), w32 (b + b'), w32 (c + c'), w32 (d + d')).

Fixpoint le_bytes (n : nat) (x : Z) : list Z :=
  match n with
  | O => []
  | S n' => x mod 256 :: le_bytes n' (x / 256)
  end.

Definition pad (msg : list Z) : list Z :=
  let len := Z.of_nat (length msg) in
  msg ++ [128] ++ repeat 0 (Z.to_nat ((55 - len) mod 64))
      ++ le_bytes 8 ((8 * len) mod 2 ^ 64).

Fixpoint words (bs : list Z) : list Z :=
  match bs with
  | b0 :: b1 :: b2 :: b3 :: rest =>
      (b0 + 256 * b1 + 65536 * b2 + 16777216 * b3) :: words rest
  | _ => []
  end.

Fixpoint blocks (fuel : nat) (ws : list Z) : list (list Z) :=
  match fuel with
  | O => []
  | S fuel' =>
      match ws with
      | [] => []
      | _ => firstn 16 ws :: blocks fuel' (skipn 16 ws)
      end
  end.

Definition hex_digit (n : Z) : ascii :=
  nth (Z.to_nat n)
      (list_ascii_of_string "0123456789abcdef") "0"%char.

Definition hex_byte (b : Z) : string :=
  String (hex_digit (b / 16)) (String (hex_digit (b mod 16)) EmptyString).

Definition bytes_of_string (s : string) : list Z :=
  map (fun c => Z.of_N (N_of_ascii c)) (list_ascii_of_string s).

Definition digest (msg : list Z) : list Z :=
  let ws := words (pad msg) in
  let '(a, b, c, d) := fold_left compress (blocks (length ws) ws) init in
  le_bytes 4 a ++ le_bytes 4 b ++ le_bytes 4 c ++ le_bytes 4 d.

Definition hexdigest (s : string) : string :=
  fold_right (fun b acc => hex_byte b ++ acc)%string EmptyString
             (digest (bytes_of_string s)).

End Md5.

(** ** Python strings *)

Module PyStr.

Definition code (c : ascii) : nat := nat_of_ascii c.

Definition is_upper (c : ascii) : bool :=
  ((65 <=? code c) && (code c <=? 90))%nat.

Definition is_lower (c : ascii) : bool :=
  ((97 <=? code c) && (code c <=? 122))%nat.

Definition lower_char (c : ascii) : ascii :=
  if is_upper c then ascii_of_nat (code c + 32) else c.

Definition upper_char (c : ascii) : ascii :=
  if is_lower c then ascii_of_nat (code c - 32) else c.

(** [s.lower()] *)
Fixpoint lower (s : string) : string :=
  match s with
  | EmptyString => EmptyString
  | String c r => String (lower_char c) (lower r)
  end.

(** [s.upper()] *)
Fixpoint upper (s : string) : string :=
  match s with
  | EmptyString => EmptyString
  | String c r => String (upper_char c) (upper r)
  end.

(** [sub in s] *)
Fixpoint contains (sub s : string) : bool :=
  String.prefix sub s
  || match s with
     | EmptyString => false
     | String _ r => contains sub r
     end.

(** [x in xs] for a list of strings *)
Definition mem (x : string) (xs : list string) : bool :=
  existsb (String.eqb x) xs.

(** [s.replace(old, new)] for a non-empty [old]: occurrences are found from
    the left and do not overlap.  [skip] counts the characters of an
    occurrence that are still to be passed over. *)
Fixpoint replace_from (old new : string) (skip : nat) (s : string) : string :=
  match s with
  | EmptyString => EmptyString
  | String c r =>
      match skip with
      | S k => replace_from old new k r
      | O =>
          if String.prefix old s
          then new ++ replace_from old new (String.length old - 1) r
          else String c (replace_from old new O r)
      end
  end.

Definition replace (old new s : string) : string := replace_from old new O s.

(** [s.split(sep)] for a non-empty [sep]; [cur] is the piece being read. *)
Fixpoint split_from (sep : string) (skip : nat) (cur s : string) : list string :=
  match s with
  | EmptyString => [cur]
  | String c r =>
      match skip with
      | S k => split_from sep k cur r
      | O =>
          if String.prefix sep s
          then cur :: split_from sep (String.length sep - 1) EmptyString r
          else split_from sep O (cur ++ String c EmptyString) r
      end
  end.

Definition split (sep s : string) : list string :=
  split_from sep O EmptyString s.

(** [sep.join(parts)] *)
Definition join (sep : string) (parts : list string) : string :=
  String.concat sep parts.

(** White space of [str.strip()] and [str.split()] below code 128. *)
Definition is_space (c : ascii) : bool :=
  ((9 <=? code c) && (code c <=? 13) || (28 <=? code c) && (code c <=? 32))%nat.

Fixpoint lstrip (s : string) : string :=
  match s with
  | EmptyString => EmptyString
  | String c r => if is_space c then lstrip r else s
  end.

Fixpoint rstrip (s : string) : string :=
  match s with
  | EmptyString => EmptyString
  | String c r =>
      let r' := rstrip r in
      if is_space c && String.eqb r' EmptyString then EmptyString
      else String c r'
  end.

(** [s.strip()] *)
Definition strip (s : string) : string := rstrip (lstrip s).

(** The first element of [s.split()], [None] when the list is empty
    (where [s.split()[0]] raises IndexError). *)
Fixpoint until_space (s : string) : string :=
  match s with
  | EmptyString => EmptyString
  | String c r => if is_space c then EmptyString else String c (until_space r)
  end.

Definition first_word (s : string) : option string :=
  match lstrip s with
  | EmptyString => None
  | w => Some (until_space w)
  end.

(** [s[:n]] *)
Definition take (n : nat) (s : string) : string := String.substring 0 n s.

(** [str(n)] for an int *)
Definition str_of_int (n : Z) : string :=
  NilZero.string_of_int (Z.to_int n).

Definition digit_of (c : ascii) : option Z :=
  if ((48 <=? code c) && (code c <=? 57))%nat
  then Some (Z.of_nat (code c - 48)) else None.

(** Digits with single underscores between them, as [int()] reads them. *)
Fixpoint digits_from (acc : Z) (after_digit : bool) (s : string) : option Z :=
  match s with
  | EmptyString => if after_digit then Some acc else None
  | String c r =>
      match digit_of c with
      | Some d => digits_from (10 * acc + d) true r
      | None =>
          if Ascii.eqb c "_"%char && after_digit
          then digits_from acc false r
          else None
      end
  end.

(** [int(s)]; [None] where Python raises ValueError. *)
Definition int_of_str (s : string) : option Z :=
  match strip s with
  | String "+"%char r => digits_from 0 false r
  | String "-"%char r => Z.opp <$> digits_from 0 false r
  | t => digits_from 0 false t
  end.

End PyStr.

(** ** Parsed JSON, exceptions *)

#[warnings="-register-all"]
Inductive json : Type :=
| JNull
| JBool (b : bool)
| JInt (n : Z)
| JFloat (text : string)  (* a float, held as the text Python prints for it *)
| JStr (s : string)
| JArr (items : list json)
| JObj (members : list (string * json)).

(** A Python [dict] with string keys, in insertion order. *)
Definition dict : Type := list (string * json).

Fixpoint dict_get (k : string) (d : dict) : option json :=
  match d with
  | [] => None
  | (k', v) :: rest => if String.eqb k k' then Some v else dict_get k rest
  end.

(** [k in d] *)
Definition dict_has (k : string) (d : dict) : bool :=
  match dict_get k d with Some _ => true | None => false end.

(** The last constructor is not a Python exception: it marks a record whose
    fields do not have the types the [Issue] dataclass declares (a
    [file_path] that is not a [str], a [line] that is not an [int], a value
    whose [str()] is not given here).  Python goes on with such a record;
    the embedding does not follow it. *)
Inductive exn : Type :=
| UnicodeDecodeError
| JSONDecodeError
| OSError
| AttributeError
| TypeError
| ValueError
| IndexError
| KeyError
| OutsideModel.

Inductive outcome (A : Type) : Type :=
| Ok (a : A)
| Raise (e : exn).

Arguments Ok {A} a.
Arguments Raise {A} e.

#[global] Instance outcome_ret : MRet outcome := fun A a => Ok a.

#[global] Instance outcome_bind : MBind outcome := fun A B k m =>
  match m with
  | Ok a => k a
  | Raise e => Raise e
  end.

(** A loop whose body can raise: the first exception ends it. *)
Fixpoint for_each {A B : Type} (body : A -> outcome B) (xs : list A)
  : outcome (list B) :=
  match xs with
  | [] => Ok []
  | x :: rest =>
      y ← body x;
      ys ← for_each body rest;
      Ok (y :: ys)
  end.

(** [str(v)], as an f-string prints [v]; lists and dicts are not given. *)
Definition py_str (v : json) : option string :=
  match v with
  | JNull => Some "None"
  | JBool true => Some "True"
  | JBool false => Some "False"
  | JInt n => Some (PyStr.str_of_int n)
  | JFloat text => Some text
  | JStr s => Some s
  | JArr _ | JObj _ => None
  end.

(** [f"{item.get(k)}"] *)
Definition fmt_get (k : string) (item : dict) : outcome string :=
  match dict_get k item with
  | None => Ok "None"
  | Some v =>
      match py_str v with
      | Some s => Ok s
      | None => Raise OutsideModel
      end
  end.

(** [item.get(k, default)] stored in a field declared [str]. *)
Definition get_str (k default : string) (item : dict) : outcome string :=
  match dict_get k item with
  | None => Ok default
  | Some (JStr s) => Ok s
  | Some _ => Raise OutsideModel
  end.

(** [item.get(k, default)] stored in a field declared [int]. *)
Definition get_int (k : string) (default : Z) (item : dict) : outcome Z :=
  match dict_get k item with
  | None => Ok default
  | Some (JInt n) => Ok n
  | Some _ => Raise OutsideModel
  end.

(** [item.get(k, default)] as the receiver of a [str] method: any other
    value has no such method. *)
Definition get_receiver (k default : string) (item : dict) : outcome string :=
  match dict_get k item with
  | None => Ok default
  | Some (JStr s) => Ok s
  | Some _ => Raise AttributeError
  end.

(** The receiver of [.get] and [.items()]: only a dict has them. *)
Definition as_dict (v : json) : outcome dict :=
  match v with
  | JObj d => Ok d
  | _ => Raise AttributeError
  end.

(** [for x in v]: a list gives its elements, a dict its keys, a string its
    characters; nothing else is iterable. *)
Definition iterate (v : json) : outcome (list json) :=
  match v with
  | JArr items => Ok items
  | JObj d => Ok (map (fun kv => JStr (fst kv)) d)
  | JStr s =>
      Ok (map (fun c => JStr (String c EmptyString)) (list_ascii_of_string s))
  | _ => Raise TypeError
  end.

(** ** The data model *)

Module Issue.
Record t : Type := mk {
  id : string;
  source : string;
  severity : string;
  rule_id : string;
  file_path : string;
  line : Z;
  message : string;
  category : string;
  raw_data : dict
}.
End Issue.

Module Job.
Record t : Type := mk {
  id : string;
  issue : Issue.t;
  job_type : string;
  complexity_score : Z;
  estimated_minutes : Z;
  pattern : option string;
  requires_agents : list string;
  verification_level : string;
  similar_fixes : list string;
  created_at : string
}.
End Job.

(** An entry of the pattern library.  [complexity] is read with
    [.get('complexity', score)], so an entry may lack it; [success_rate] is a
    float and is held as its text. *)
Module Pattern.
Record t : Type := mk {
  name : string;
  complexity : option Z;
  pattern : string;
  verification : string;
  estimated_minutes : Z;
  success_rate : string
}.
End Pattern.

(** What the code asks of its surroundings.
    - [read_json p]: [json.load] on the file [p] opened for reading;
    - [read_lines p]: the lines of the text file [p] ([for line in f]);
    - [path_exists p]: [Path(p).exists()];
    - [git_blame n p]: return code and standard output of
      [git blame -L n,n p];
    - [git_log r]: return code and standard output of
      [git log --grep r --oneline -n 5];
    - [now]: [datetime.now().isoformat()];
    - [patterns_file]: the content of [ORCHESTRATOR/pattern-library.json]
      when that file exists;
    - [incoming_json], [incoming_typescript]: name and path of the files
      matched by the two globs over [QUEUES/INCOMING];
    - [write_file p]: the making of the directory of [p] and
      [open(p, 'w')] with [json.dump]: nothing to report, or the exception
      that ends them (OSError and its subclasses, as FileNotFoundError when
      a directory on the way to [p] is missing). *)
Record World : Type := mkWorld {
  read_json : string -> outcome json;
  read_lines : string -> outcome (list string);
  path_exists : string -> outcome bool;
  git_blame : Z -> string -> outcome (Z * string);
  git_log : string -> outcome (Z * string);
  now : string;
  patterns_file : option (gmap string Pattern.t);
  incoming_json : list (string * string);
  incoming_typescript : list (string * string);
  write_file : string -> outcome unit
}.

(** ** orchestrator.py: class WedSyncOrchestrator *)

Module Orchestrator.

Import PyStr.

(** The fields of the object that the methods below read or update. *)
Record t : Type := mk {
  patterns : gmap string Pattern.t;
  stats : gmap string Z
}.

Definition default_patterns : gmap string Pattern.t :=
  list_to_map
    [ ("sonar-S3516",
       Pattern.mk "single-return-refactor" (Some 2)
                  "Multiple early returns -> Single return point"
                  "BASIC" 5 "0.95");
      ("sonar-S128",
       Pattern.mk "switch-case-breaks" (Some 1)
                  "Add break statements to switch cases"
                  "BASIC" 3 "0.98");
      ("typescript-missing-await",
       Pattern.mk "async-await-fix" (Some 3)
                  "Add await to async function calls"
                  "MEDIUM" 8 "0.9") ].

Definition load_patterns (w : World) : gmap string Pattern.t :=
  match patterns_file w with
  | Some loaded => loaded
  | None => default_patterns
  end.

Definition initial_stats : gmap string Z :=
  list_to_map
    [ ("total_issues", 0); ("speed_jobs", 0); ("deep_jobs", 0);
      ("skip_jobs", 0); ("failed_routing", 0) ].

(** [__init__], once the directories are made and the library is read. *)
Definition init (w : World) : t := mk (load_patterns w) initial_stats.

(** [d.get(k, default)] for a dict written out in the code. *)
Fixpoint table_get {A : Type} (k : string) (default : A)
         (d : list (string * A)) : A :=
  match d with
  | [] => default
  | (k', v) :: rest => if String.eqb k k' then v else table_get k default rest
  end.

Definition hash_suffix (key : string) : string :=
  take 8 (Md5.hexdigest key).

Definition categorize_sonar_rule (self : t) (rule : string) : string :=
  let security_rules := ["S2068"; "S2070"; "S3649"; "S4502"; "S5122"] in
  let performance_rules := ["S1854"; "S1481"; "S3776"] in
  let maintainability_rules := ["S3516"; "S128"; "S1172"] in
  if existsb (fun r => contains r rule) security_rules then "security"
  else if existsb (fun r => contains r rule) performance_rules
  then "performance"
  else if existsb (fun r => contains r rule) maintainability_rules
  then "maintainability"
  else "general".

Definition map_coderabbit_severity (self : t) (severity : string) : string :=
  let severity_map :=
    [ ("critical", "CRITICAL"); ("major", "MAJOR"); ("minor", "MINOR");
      ("refactor", "MINOR"); ("style", "INFO") ] in
  table_get (lower severity) "MINOR" severity_map.

Definition categorize_ts_error (self : t) (error_code : string) : string :=
  let type_errors := ["2345"; "2322"; "2339"; "2304"] in
  let async_errors := ["1308"; "2335"; "2794"] in
  let import_errors := ["2307"; "2306"; "2305"] in
  if mem error_code type_errors then "types"
  else if mem error_code async_errors then "async"
  else if mem error_code import_errors then "imports"
  else "syntax".

Definition map_ts_severity (self : t) (error_code : string) : string :=
  let critical_errors := ["1005"; "1109"; "1128"] in
  let major_errors := ["2345"; "2322"; "2339"] in
  if mem error_code critical_errors then "CRITICAL"
  else if mem error_code major_errors then "MAJOR"
  else "MINOR".

(** One turn of the loop over the WedSync custom format. *)
Definition sonarqube_custom_item (self : t) (severity : string) (v : json)
  : outcome Issue.t :=
  item ← as_dict v;
  file ← fmt_get "file" item;
  line ← fmt_get "line" item;
  let file_line_key := file ++ line in
  let hash := hash_suffix file_line_key in
  rule ← fmt_get "rule" item;
  id ← get_str "id" ("sonar-" ++ rule ++ "-" ++ hash) item;
  sev ← get_receiver "severity" severity item;
  rule_id ← get_str "rule" "" item;
  file_path ← get_str "file" "" item;
  line_no ← get_int "line" 0 item;
  message ← get_str "message" "" item;
  Ok (Issue.mk id "sonarqube" (upper sev) rule_id file_path line_no message
               (categorize_sonar_rule self rule_id) item).

(** One turn of the loop over the standard SonarQube format. *)
Definition sonarqube_standard_item (self : t) (v : json) : outcome Issue.t :=
  item ← as_dict v;
  component ← fmt_get "component" item;
  line ← fmt_get "line" item;
  let component_line := component ++ line in
  let hash := hash_suffix component_line in
  rule ← fmt_get "rule" item;
  sev ← get_receiver "severity" "UNKNOWN" item;
  rule_id ← get_str "rule" "" item;
  file_path ← get_str "component" "" item;
  line_no ← get_int "line" 0 item;
  message ← get_str "message" "" item;
  Ok (Issue.mk ("sonar-" ++ rule ++ "-" ++ hash) "sonarqube" (upper sev)
               rule_id file_path line_no message
               (categorize_sonar_rule self rule_id) item).

(** The body of [ingest_sonarqube] after the document is loaded.  A document
    that is not a dict raises at the test ['error_categories' in data] or at
    the first subscript or [.get] after it. *)
Definition sonarqube_issues (self : t) (data : json) : outcome (list Issue.t) :=
  match data with
  | JObj d =>
      match dict_get "error_categories" d with
      | Some categories =>
          cats ← as_dict categories;
          groups ←
            for_each
              (fun entry : string * json =>
                 category_data ← as_dict (snd entry);
                 items ←
                   match dict_get "issues" category_data with
                   | Some listed => iterate listed
                   | None => Ok []
                   end;
                 for_each (sonarqube_custom_item self (fst entry)) items)
              cats;
          Ok (concat groups)
      | None =>
          items ←
            match dict_get "issues" d with
            | Some listed => iterate listed
            | None => Ok []
            end;
          for_each (sonarqube_standard_item self) items
      end
  | JArr items =>
      if existsb (fun v => match v with
                           | JStr s => String.eqb s "error_categories"
                           | _ => false
                           end) items
      then Raise TypeError else Raise AttributeError
  | JStr s =>
      if contains "error_categories" s
      then Raise TypeError else Raise AttributeError
  | _ => Raise TypeError
  end.

Definition ingest_sonarqube (self : t) (w : World) (file_path : string)
  : outcome (list Issue.t) :=
  match read_json w file_path with
  | Raise UnicodeDecodeError => Ok []
  | Raise JSONDecodeError => Ok []
  | Raise e => Raise e
  | Ok data => sonarqube_issues self data
  end.

Definition coderabbit_item (self : t) (v : json) : outcome Issue.t :=
  item ← as_dict v;
  file ← fmt_get "file" item;
  line ← fmt_get "line" item;
  let file_line_key := file ++ line in
  let hash := hash_suffix file_line_key in
  pr ← fmt_get "pr" item;
  sev ← get_receiver "severity" "minor" item;
  tag ←
    match dict_get "severity" item with
    | Some _ => fmt_get "severity" item
    | None => Ok "refactor"
    end;
  file_path ← get_str "file" "" item;
  line_no ← get_int "line" 0 item;
  message ← get_str "summary" "" item;
  Ok (Issue.mk ("cr-" ++ pr ++ "-" ++ hash) "coderabbit"
               (map_coderabbit_severity self sev) ("CR-" ++ tag)
               file_path line_no message "refactor" item).

Definition ingest_coderabbit (self : t) (w : World) (file_path : string)
  : outcome (list Issue.t) :=
  data ← read_json w file_path;
  items ← iterate data;
  for_each (coderabbit_item self) items.

(** The body of the loop of [ingest_typescript]: [None] for a line that
    yields no issue. *)
Definition typescript_line (self : t) (line : string)
  : outcome (option Issue.t) :=
  if contains "error TS" line then
    let parts := split ": error TS" (strip line) in
    match parts with
    | file_info :: error_info :: _ =>
        let file_path := hd "" (split "(" file_info) in
        let line_info :=
          if contains "(" file_info
          then hd "" (split ")" (nth 1 (split "(" file_info) ""))
          else "0,0" in
        line_number ←
          (if String.eqb line_info ""
           then Ok 0
           else match int_of_str (hd "" (split "," line_info)) with
                | Some n => Ok n
                | None => Raise ValueError
                end);
        let error_code := hd "" (split ":" error_info) in
        let message := strip (join ":" (tl (split ":" error_info))) in
        let file_line_key := file_path ++ str_of_int line_number in
        let hash := hash_suffix file_line_key in
        Ok (Some (Issue.mk ("ts-" ++ error_code ++ "-" ++ hash) "typescript"
                           (map_ts_severity self error_code)
                           ("TS" ++ error_code) file_path line_number message
                           (categorize_ts_error self error_code)
                           [("original_line", JStr (strip line))]))
    | _ => Ok None
    end
  else Ok None.

Definition ingest_typescript (self : t) (w : World) (file_path : string)
  : outcome (list Issue.t) :=
  lines ← read_lines w file_path;
  found ← for_each (typescript_line self) lines;
  Ok (omap (M:=list) (fun o : option Issue.t => o) found).

(** [check_already_resolved]: an exception of the [try] block is caught,
    reported and followed by [return False]. *)
Definition check_already_resolved (self : t) (w : World) (issue : Issue.t)
  : bool :=
  match dict_get "status" (Issue.raw_data issue) with
  | Some (JStr "NEW") => false
  | _ =>
      match path_exists w (Issue.file_path issue) with
      | Raise _ => false
      | Ok false => true
      | Ok true =>
          match git_blame w (Issue.line issue) (Issue.file_path issue) with
          | Raise _ => false
          | Ok (returncode, stdout) =>
              if negb (returncode =? 0) then false
              else
                let blame_output := strip stdout in
                if contains "b0b8db54" blame_output then true else false
          end
      end
  end.

Definition severity_scores : list (string * Z) :=
  [ ("BLOCKER", 8); ("CRITICAL", 6); ("MAJOR", 4); ("MINOR", 2); ("INFO", 1) ].

Definition sensitive_paths : list string :=
  ["/api/"; "/auth/"; "/payment/"; "/marketplace/"].

Definition pattern_key (rule_id : string) : string :=
  replace "ts" "typescript-" (lower rule_id).

Definition calculate_complexity (self : t) (issue : Issue.t) : Z :=
  let score := 0 in
  let score := score + table_get (Issue.severity issue) 3 severity_scores in
  let score :=
    match patterns self !! pattern_key (Issue.rule_id issue) with
    | Some entry =>
        match Pattern.complexity entry with
        | Some c => c
        | None => score
        end
    | None => score
    end in
  let score :=
    if existsb (fun path => contains path (lower (Issue.file_path issue)))
               sensitive_paths
    then score + 3 else score in
  let score :=
    if String.eqb (Issue.category issue) "security" then score + 4
    else if String.eqb (Issue.category issue) "performance" then score + 2
    else score in
  Z.min score 10.

(** [find_similar_fixes]: [line.split()[0]] raises IndexError on a line of
    white space only; that and any failure of the subprocess end in
    [return []]. *)
Definition find_similar_fixes (self : t) (w : World) (issue : Issue.t)
  : list string :=
  match git_log w (Issue.rule_id issue) with
  | Ok (returncode, stdout) =>
      if returncode =? 0 then
        let lines :=
          filter (fun l => l <> "") (split (String "010" "") (strip stdout)) in
        match mapM first_word lines with
        | Some firsts => firsts
        | None => []
        end
      else []
  | Raise _ => []
  end.

Definition rule_patterns : list (string * string) :=
  [ ("S3516", "pattern-single-return");
    ("S128", "pattern-switch-cases");
    ("2794", "pattern-async-await");
    ("2307", "pattern-import-fixes");
    ("2345", "pattern-type-assertions") ].

(** The loop of [get_pattern_name] over [table], in the order of the dict. *)
Fixpoint first_fragment (rule_id : string) (table : list (string * string))
  : string :=
  match table with
  | [] => "pattern-general"
  | (rule_fragment, pattern) :: rest =>
      if contains rule_fragment rule_id then pattern
      else first_fragment rule_id rest
  end.

Definition get_pattern_name (self : t) (issue : Issue.t) : string :=
  first_fragment (Issue.rule_id issue) rule_patterns.

Definition route_issue (self : t) (w : World) (issue : Issue.t) : Job.t :=
  if check_already_resolved self w issue then
    Job.mk ("job-" ++ Issue.id issue) issue "SKIP" 0 1
           (Some "already-resolved") [] "NONE" [] (now w)
  else
    let complexity := calculate_complexity self issue in
    let similar_fixes := find_similar_fixes self w issue in
    if complexity <=? 3 then
      let pattern := get_pattern_name self issue in
      Job.mk ("job-" ++ Issue.id issue) issue "SPEED" complexity 5
             (Some pattern) [] "BASIC" similar_fixes (now w)
    else
      let agents_needed : list string := [] in
      let agents_needed :=
        if String.eqb (Issue.category issue) "security"
           || contains "auth" (lower (Issue.file_path issue))
        then (agents_needed ++ ["security-officer"])%list
        else agents_needed in
      let agents_needed :=
        if 8 <=? complexity
        then (agents_needed ++ ["architecture-reviewer"])%list
        else agents_needed in
      Job.mk ("job-" ++ Issue.id issue) issue "DEEP" complexity
             (complexity * 3) None agents_needed "COMPREHENSIVE"
             similar_fixes (now w).

(** [save_job]: the job file written (its path below [base_path], with [/]
    between the parts) and the object with its counter moved.  What the
    writing raises leaves [save_job]; after the writing, a job type with no
    counter raises KeyError. *)
Definition queue_dir (job : Job.t) : string :=
  if String.eqb (Job.job_type job) "SPEED" then
    match Job.pattern job with
    | Some (String c r) => "JOB-QUEUES/SPEED-JOBS/" ++ String c r
    | _ => "JOB-QUEUES/SPEED-JOBS/pattern-general"
    end
  else if String.eqb (Job.job_type job) "DEEP" then
    if String.eqb (Issue.category (Job.issue job)) "security"
    then "JOB-QUEUES/DEEP-JOBS/security-sensitive"
    else if 8 <=? Job.complexity_score job
    then "JOB-QUEUES/DEEP-JOBS/architecture-changes"
    else "JOB-QUEUES/DEEP-JOBS/new-patterns"
  else if String.eqb (Job.job_type job) "SKIP" then "JOB-QUEUES/SKIP-JOBS"
  else "JOB-QUEUES/FAILED-ROUTING".

Definition save_job (self : t) (w : World) (job : Job.t)
  : outcome (string * t) :=
  let job_file := queue_dir job ++ "/" ++ Job.id job ++ ".json" in
  _ ← write_file w job_file;
  let counter := lower (Job.job_type job) ++ "_jobs" in
  match stats self !! counter with
  | Some n => Ok (job_file, mk (patterns self) (<[counter := n + 1]> (stats self)))
  | None => Raise KeyError
  end.

(** [process_issues]; [worlds k] is what surrounds the routing of the issue
    at index [k] and the saving of its job.  The result lists the job files
    written, in the order of the writing; a path written twice holds the
    later job. *)
Fixpoint process_from (worlds : nat -> World) (k : nat) (self : t)
         (issues : list Issue.t) : outcome (list (string * Job.t) * t) :=
  match issues with
  | [] => Ok ([], self)
  | issue :: rest =>
      let job := route_issue self (worlds k) issue in
      saved ← save_job self (worlds k) job;
      later ← process_from worlds (S k) (snd saved) rest;
      Ok ((fst saved, job) :: fst later, snd later)
  end.

Definition process_issues (worlds : nat -> World) (self : t)
           (issues : list Issue.t) : outcome (list (string * Job.t) * t) :=
  done ← process_from worlds O self issues;
  Ok (fst done,
      mk (patterns (snd done))
         (<["total_issues" := Z.of_nat (length issues)]> (stats (snd done)))).

(** [setup_directories]: the directories made below [base_path] when the
    orchestrator is created. *)
Definition setup_directories : list string :=
  [ "JOB-QUEUES/SPEED-JOBS/pattern-single-return";
    "JOB-QUEUES/SPEED-JOBS/pattern-async-await";
    "JOB-QUEUES/SPEED-JOBS/pattern-switch-cases";
    "JOB-QUEUES/SPEED-JOBS/pattern-import-fixes";
    "JOB-QUEUES/SPEED-JOBS/pattern-type-assertions";
    "JOB-QUEUES/DEEP-JOBS/security-sensitive";
    "JOB-QUEUES/DEEP-JOBS/architecture-changes";
    "JOB-QUEUES/DEEP-JOBS/new-patterns";
    "JOB-QUEUES/DEEP-JOBS/performance-critical";
    "JOB-QUEUES/SKIP-JOBS";
    "JOB-QUEUES/FAILED-ROUTING";
    "ORCHESTRATOR" ].

End Orchestrator.

(** ** orchestrator.py: main *)

Module Args.
Record t : Type := mk {
  ingest_sonarqube : option string;
  ingest_coderabbit : option string;
  ingest_typescript : option string;
  process_all : bool;
  process_everything : bool;
  status : bool
}.
End Args.

Module Main.

Import PyStr.

(** [if args.x:] for an optional string argument *)
Definition given (arg : option string) : option string :=
  match arg with
  | Some (String c r) => Some (String c r)
  | _ => None
  end.

(** One turn of the loop over [incoming_dir.glob("*.json")]. *)
Definition incoming_json_file (self : Orchestrator.t) (w : World)
           (entry : string * string) : outcome (list Issue.t) :=
  let name := fst entry in
  let file_path := snd entry in
  if String.prefix "._" name then Ok []
  else if contains "sonarqube" (lower name)
  then Orchestrator.ingest_sonarqube self w file_path
  else if contains "coderabbit" (lower name)
  then Orchestrator.ingest_coderabbit self w file_path
  else if contains "performance" (lower name)
  then Orchestrator.ingest_coderabbit self w file_path
  else if contains "synthetic" (lower name)
  then Orchestrator.ingest_sonarqube self w file_path
  else if contains "production" (lower name)
  then Orchestrator.ingest_sonarqube self w file_path
  else if contains "realistic" (lower name)
  then Orchestrator.ingest_sonarqube self w file_path
  else Ok [].

Definition ingest_if_given (arg : option string)
           (ingest : string -> outcome (list Issue.t))
  : outcome (list Issue.t) :=
  match given arg with
  | Some file_path => ingest file_path
  | None => Ok []
  end.

(** The ingestion part of [main]: the value of [all_issues] when the
    processing starts, or the exception that ended the run. *)
Definition all_issues (self : Orchestrator.t) (w : World) (args : Args.t)
  : outcome (list Issue.t) :=
  everything ←
    (if Args.process_everything args then
       from_json ← for_each (incoming_json_file self w) (incoming_json w);
       from_ts ←
         for_each (fun entry : string * string =>
                     Orchestrator.ingest_typescript self w (snd entry))
                  (incoming_typescript w);
       Ok (concat from_json ++ concat from_ts)%list
     else Ok []);
  sonarqube ←
    ingest_if_given (Args.ingest_sonarqube args)
                    (Orchestrator.ingest_sonarqube self w);
  coderabbit ←
    ingest_if_given (Args.ingest_coderabbit args)
                    (Orchestrator.ingest_coderabbit self w);
  typescript ←
    ingest_if_given (Args.ingest_typescript args)
                    (Orchestrator.ingest_typescript self w);
  Ok (everything ++ sonarqube ++ coderabbit ++ typescript)%list.

(** [main] up to the end of [process_issues]: the job files written and the
    orchestrator, or the exception that ended the run. *)
Definition main (w : World) (worlds : nat -> World) (args : Args.t)
  : outcome (list (string * Job.t) * Orchestrator.t) :=
  let orchestrator := Orchestrator.init w in
  issues ← all_issues orchestrator w args;
  match issues with
  | _ :: _ =>
      if Args.process_all args || Args.process_everything args
      then Orchestrator.process_issues worlds orchestrator issues
      else Ok ([], orchestrator)
  | [] => Ok ([], orchestrator)
  end.

End Main.

(** ** parse-sonarqube.py: parse_sonarqube_results

    The loop over the records of a report.  An [ErrorObj.t] holds the
    fields of [error_obj] that are read off the record; the fields computed
    from them by the helper functions of the script are [derived], below. *)

Module ParseSonarqube.

Import PyStr.

Module ErrorObj.
Record t : Type := mk {
  id : string;
  source : string;
  severity : string;
  rule : string;
  file : string;
  line : Z;
  message : string;
  effort : string
}.
End ErrorObj.

(** [f"{idx:05d}"] *)
Definition pad5 (idx : nat) : string :=
  let digits := str_of_int (Z.of_nat idx) in
  string_of_list_ascii (repeat "0"%char (5 - String.length digits)) ++ digits.

(** One turn of the loop: [None] where the loop goes on to the next record
    without an [error_obj]. *)
Definition record (idx : nat) (v : json) : outcome (option ErrorObj.t) :=
  issue ← as_dict v;
  severity ← get_receiver "severity" "INFO" issue;
  let severity := upper severity in
  rule ← get_str "rule" "unknown" issue;
  component ← get_receiver "component" "" issue;
  let file_path := replace "WedSync:" "" component in
  line ← get_int "line" 0 issue;
  message ← get_str "message" "" issue;
  effort ← get_str "effort" "5min" issue;
  if String.eqb file_path "" then Ok None
  else Ok (Some (ErrorObj.mk ("SQ-" ++ pad5 idx) "SonarQube" severity rule
                             file_path line message effort)).

(** [Path(output_dir) / 'BY-SEVERITY' / severity / f"SQ-{idx:05d}.json"],
    with [/] between the parts. *)
Definition output_file (output_dir : string) (error_obj : ErrorObj.t)
  : string :=
  output_dir ++ "/BY-SEVERITY/" ++ ErrorObj.severity error_obj ++ "/"
  ++ ErrorObj.id error_obj ++ ".json".

(** The loop from index [idx] on: the error objects written, in order.  What
    a record or a writing raises ends the loop. *)
Fixpoint records_from (w : World) (output_dir : string) (idx : nat)
         (issues : list json) : outcome (list ErrorObj.t) :=
  match issues with
  | [] => Ok []
  | v :: rest =>
      made ← record idx v;
      _ ← match made with
          | Some error_obj => write_file w (output_file output_dir error_obj)
          | None => Ok tt
          end;
      later ← records_from w output_dir (S idx) rest;
      Ok (match made with
          | Some error_obj => error_obj :: later
          | None => later
          end)
  end.

Definition initial_stats : gmap string Z :=
  list_to_map
    [ ("BLOCKER", 0); ("CRITICAL", 0); ("MAJOR", 0); ("MINOR", 0); ("INFO", 0) ].

Definition count (stats : gmap string Z) (error_obj : ErrorObj.t)
  : gmap string Z :=
  match stats !! ErrorObj.severity error_obj with
  | Some n => <[ErrorObj.severity error_obj := n + 1]> stats
  | None => stats
  end.

(** The error objects written and the statistics returned; [None] where the
    function returns [None]. *)
Definition parse_sonarqube_results (w : World)
           (input_file output_dir : string)
  : outcome (option (list ErrorObj.t * gmap string Z)) :=
  match path_exists w input_file with
  | Ok true =>
      data ← read_json w input_file;
      issues ←
        match data with
        | JArr items => Ok items
        | _ =>
            d ← as_dict data;
            match dict_get "issues" d with
            | Some listed => iterate listed
            | None => Ok []
            end
        end;
      match issues with
      | [] => Ok None
      | _ =>
          written ← records_from w output_dir O issues;
          Ok (Some (written, fold_left count written initial_stats))
      end
  | _ => Ok None
  end.

(** [classify_category] *)
Definition classify_category (rule message : string) : string :=
  let rule_lower := lower rule in
  let message_lower := lower message in
  if contains "S4123" rule || contains "await" message_lower
     || contains "async" message_lower
  then "ASYNC-AWAIT"
  else if contains "deprecated" rule_lower || contains "deprecated" message_lower
  then "DEPRECATED-API"
  else if contains "complexity" rule_lower || contains "complex" message_lower
  then "COMPLEXITY"
  else if contains "TS" rule || contains "type" rule_lower
          || contains "type" message_lower
  then "TYPE-ERRORS"
  else if contains "security" rule_lower || contains "auth" rule_lower
          || contains "password" message_lower
  then "SECURITY"
  else if contains "unused" message_lower || contains "S1128" rule
  then "UNUSED-CODE"
  else if contains "duplicate" message_lower
  then "DUPLICATION"
  else "GENERAL".

Definition instructions : list (string * string) :=
  [ ("typescript:S4123",
     "Add or remove await keyword as appropriate. Check if the value is actually a Promise.");
    ("typescript:S1128", "Remove unused import statement");
    ("typescript:S6582", "Update deprecated API to new version");
    ("typescript:S117", "Rename variable to follow naming convention");
    ("typescript:S1854", "Remove dead code that is never executed");
    ("typescript:S3776", "Refactor to reduce cognitive complexity");
    ("typescript:S2589", "Remove redundant boolean literal in condition");
    ("typescript:S1186", "Add implementation or mark as abstract") ].

(** [s[:n]] counts characters, not bytes: a byte [10xxxxxx] continues the
    character before it and is kept with it. *)
Definition is_continuation (c : ascii) : bool :=
  ((128 <=? code c) && (code c <? 192))%nat.

Fixpoint take_chars (n : nat) (s : string) : string :=
  match s with
  | EmptyString => EmptyString
  | String c r =>
      if is_continuation c then String c (take_chars n r)
      else match n with
           | O => EmptyString
           | S n' => String c (take_chars n' r)
           end
  end.

(** [generate_fix_instructions] *)
Definition generate_fix_instructions (rule message : string) : string :=
  Orchestrator.table_get rule ("Fix issue: " ++ take_chars 100 message)
                         instructions.

(** [generate_verification_requirements] *)
Definition generate_verification_requirements (severity rule : string)
  : list string :=
  if mem severity ["BLOCKER"; "CRITICAL"] then
    [ "Run full test suite";
      "Deploy all verification agents";
      "Check pattern compliance with Ref MCP";
      "Verify no regressions introduced";
      "Production guardian approval required";
      "Performance impact assessment";
      "Security audit if auth/payment related" ]
  else if String.eqb severity "MAJOR" then
    [ "Run related tests";
      "Pattern check with Ref MCP";
      "Performance verification";
      "Check connected features";
      "Verify business logic intact" ]
  else if String.eqb severity "MINOR" then
    [ "Basic verification";
      "Build must pass";
      "Type checking must pass";
      "Lint must pass" ]
  else
    [ "Build verification";
      "Visual inspection" ].

(** [os.path.basename], [os.path.dirname] of [posixpath]: the path is cut
    after its last slash; the head loses its trailing slashes unless it
    holds nothing else. *)
Fixpoint basename (p : string) : string :=
  match p with
  | EmptyString => EmptyString
  | String c r =>
      if contains "/" r then basename r
      else if Ascii.eqb c "/" then r
      else p
  end.

Fixpoint head_of (p : string) : string :=
  match p with
  | EmptyString => EmptyString
  | String c r =>
      if contains "/" r then String c (head_of r)
      else if Ascii.eqb c "/" then "/"
      else EmptyString
  end.

Fixpoint all_slashes (s : string) : bool :=
  match s with
  | EmptyString => true
  | String c r => Ascii.eqb c "/" && all_slashes r
  end.

Fixpoint rstrip_slashes (s : string) : string :=
  match s with
  | EmptyString => EmptyString
  | String c r =>
      let r' := rstrip_slashes r in
      if Ascii.eqb c "/" && String.eqb r' EmptyString then EmptyString
      else String c r'
  end.

Definition dirname (p : string) : string :=
  let head := head_of p in
  if negb (String.eqb head "") && negb (all_slashes head)
  then rstrip_slashes head else head.

(** [generate_ref_queries] *)
Definition generate_ref_queries (rule file_path : string) : list string :=
  let base_name := basename file_path in
  let dir_name := dirname file_path in
  let queries :=
    [ "site:wedsync " ++ base_name ++ " implementation patterns";
      "WedSync " ++ rule ++ " best practice fix";
      rule ++ " common solutions TypeScript" ] in
  let queries :=
    if contains "api" dir_name
    then (queries ++ ["WedSync API endpoint patterns"])%list else queries in
  let queries :=
    if contains "components" dir_name
    then (queries ++ ["WedSync React component patterns"])%list else queries in
  let queries :=
    if contains "lib" dir_name || contains "utils" dir_name
    then (queries ++ ["WedSync utility function patterns"])%list else queries in
  queries.

(** [select_agents]: [list(set(agents))], a list without duplicates in an
    order the code does not fix, is held as the set. *)
Definition select_agents (severity rule : string) : gset string :=
  let agents : list string := [] in
  let agents :=
    if mem severity ["BLOCKER"; "CRITICAL"] then
      (agents ++ [ "pre-code-knowledge-gatherer";
                   "security-compliance-officer";
                   "performance-optimization-expert";
                   "test-automation-architect";
                   "production-guardian" ])%list
    else if String.eqb severity "MAJOR" then
      (agents ++ [ "pre-code-knowledge-gatherer";
                   "specification-compliance-overseer";
                   "test-automation-architect" ])%list
    else if String.eqb severity "MINOR" then
      (agents ++ ["pre-code-knowledge-gatherer"])%list
    else agents in
  let rule_lower := lower rule in
  let agents :=
    if contains "security" rule_lower || contains "auth" rule_lower
       || contains "S5659" rule
    then (agents ++ ["security-compliance-officer"])%list else agents in
  let agents :=
    if contains "performance" rule_lower || contains "complexity" rule_lower
    then (agents ++ ["performance-optimization-expert"])%list else agents in
  let agents :=
    if contains "test" rule_lower
    then (agents ++ ["test-automation-architect"])%list else agents in
  list_to_set agents.

(** [identify_connected_features], as a set like [select_agents]. *)
Definition identify_connected_features (file_path : string) : gset string :=
  let features : list string := [] in
  let path_lower := lower file_path in
  let features :=
    if contains "payment" path_lower || contains "checkout" path_lower
    then (features ++ ["payments"; "checkout"; "invoicing"])%list
    else features in
  let features :=
    if contains "auth" path_lower || contains "login" path_lower
    then (features ++ ["authentication"; "user-management"; "session"])%list
    else features in
  let features :=
    if contains "timeline" path_lower
    then (features ++ ["timeline"; "scheduling"; "vendor-coordination"])%list
    else features in
  let features :=
    if contains "vendor" path_lower
    then (features ++ ["vendor-management"; "vendor-communication"])%list
    else features in
  let features :=
    if contains "client" path_lower || contains "customer" path_lower
    then (features ++ ["client-management"; "crm"])%list
    else features in
  let features :=
    if contains "photo" path_lower || contains "image" path_lower
       || contains "gallery" path_lower
    then (features ++ ["photo-management"; "gallery"; "media"])%list
    else features in
  let features :=
    if contains "notification" path_lower || contains "email" path_lower
    then (features ++ ["notifications"; "communication"])%list
    else features in
  match features with
  | [] => {["general"]}
  | _ => list_to_set features
  end.

(** [assess_business_impact] *)
Definition assess_business_impact (severity file_path : string) : string :=
  let path_lower := lower file_path in
  if contains "payment" path_lower || contains "billing" path_lower
  then "HIGH - Payment processing affected"
  else if contains "auth" path_lower || contains "security" path_lower
  then "HIGH - Security and access control"
  else if contains "timeline" path_lower || contains "schedule" path_lower
  then "HIGH - Wedding day coordination"
  else if mem severity ["BLOCKER"; "CRITICAL"]
  then "HIGH - Critical functionality"
  else if contains "vendor" path_lower || contains "client" path_lower
  then "MEDIUM - User management affected"
  else if String.eqb severity "MAJOR"
  then "MEDIUM - Feature functionality"
  else "LOW - Code quality improvement".

(** [assess_complexity] *)
Definition assess_complexity (rule message : string) : string :=
  let message_lower := lower message in
  if contains "unused" message_lower || contains "S1128" rule then "low"
  else if contains "rename" message_lower || contains "naming" message_lower
  then "low"
  else if contains "S4123" rule then "low"
  else if contains "deprecated" message_lower then "medium"
  else if contains "duplicate" message_lower then "medium"
  else if contains "complexity" message_lower || contains "refactor" message_lower
  then "high"
  else if contains "security" message_lower then "high"
  else "medium".

(** The fields of [error_obj] computed from the fields read off the
    record. *)
Module Derived.
Record t : Type := mk {
  category : string;
  fix_instructions : string;
  verification_requirements : list string;
  ref_mcp_queries : list string;
  required_agents : gset string;
  connected_features : gset string;
  business_impact : string;
  fix_complexity : string;
  rollback_instructions : string
}.
End Derived.

Definition derived (error_obj : ErrorObj.t) : Derived.t :=
  Derived.mk
    (classify_category (ErrorObj.rule error_obj) (ErrorObj.message error_obj))
    (generate_fix_instructions (ErrorObj.rule error_obj)
                               (ErrorObj.message error_obj))
    (generate_verification_requirements (ErrorObj.severity error_obj)
                                        (ErrorObj.rule error_obj))
    (generate_ref_queries (ErrorObj.rule error_obj) (ErrorObj.file error_obj))
    (select_agents (ErrorObj.severity error_obj) (ErrorObj.rule error_obj))
    (identify_connected_features (ErrorObj.file error_obj))
    (assess_business_impact (ErrorObj.severity error_obj)
                            (ErrorObj.file error_obj))
    (assess_complexity (ErrorObj.rule error_obj) (ErrorObj.message error_obj))
    ("git checkout -- " ++ ErrorObj.file error_obj).

End ParseSonarqube.

(** ** Vocabulary of the properties *)

Import PyStr.

(** Some character of [s] is an upper-case letter. *)
Fixpoint has_upper (s : string) : bool :=
  match s with
  | EmptyString => false
  | String c r => is_upper c || has_upper r
  end.

(** The severity base score of an issue. *)
Definition severity_base (issue : Issue.t) : Z :=
  Orchestrator.table_get (Issue.severity issue) 3 Orchestrator.severity_scores.

(** The precomputed complexity of the library entry the rule maps to. *)
Definition library_complexity (self : Orchestrator.t) (issue : Issue.t)
  : option Z :=
  entry ← Orchestrator.patterns self
            !! Orchestrator.pattern_key (Issue.rule_id issue);
  Pattern.complexity entry.

(** The file path contains a sensitive segment. *)
Definition sensitive_path (issue : Issue.t) : bool :=
  existsb (fun path => contains path (lower (Issue.file_path issue)))
          Orchestrator.sensitive_paths.

Definition path_adjustment (issue : Issue.t) : Z :=
  if sensitive_path issue then 3 else 0.

Definition category_adjustment (issue : Issue.t) : Z :=
  if String.eqb (Issue.category issue) "security" then 4
  else if String.eqb (Issue.category issue) "performance" then 2
  else 0.

(** The score before the clamp. *)
Definition unclamped_score (self : Orchestrator.t) (issue : Issue.t) : Z :=
  default (severity_base issue) (library_complexity self issue)
  + path_adjustment issue + category_adjustment issue.

(** [name] is the pattern of the first entry of [table] whose fragment is a
    substring of [rule_id], or "pattern-general" when there is none. *)
Definition first_matching (rule_id : string) (table : list (string * string))
           (name : string) : Prop :=
  (exists before fragment after,
      table = (before ++ (fragment, name) :: after)%list
      /\ contains fragment rule_id = true
      /\ Forall (fun e => contains (fst e) rule_id = false) before)
  \/ (name = "pattern-general"
      /\ Forall (fun e => contains (fst e) rule_id = false) table).

(** Surroundings in which every path exists, [git blame] fails and
    [git log] finds nothing; no file can be read. *)
Definition quiet_world : World :=
  mkWorld (fun _ => Raise OSError) (fun _ => Raise OSError)
          (fun _ => Ok true) (fun _ _ => Ok (128, ""))
          (fun _ => Ok (0, "")) "2025-08-20T10:00:00" None [] []
          (fun _ => Ok tt).

(** Surroundings in which no path exists. *)
Definition emptied_world : World :=
  mkWorld (fun _ => Raise OSError) (fun _ => Raise OSError)
          (fun _ => Ok false) (fun _ _ => Ok (128, ""))
          (fun _ => Ok (0, "")) "2025-08-20T10:00:00" None [] []
          (fun _ => Ok tt).

(** The orchestrator as [__init__] leaves it when no library is stored. *)
Definition fresh : Orchestrator.t :=
  Orchestrator.mk Orchestrator.default_patterns Orchestrator.initial_stats.

Definition sample_issue (severity rule_id file_path category : string)
  : Issue.t :=
  Issue.mk ("sonar-" ++ rule_id ++ "-00000000") "sonarqube" severity rule_id
           file_path 1 "" category [].

(** The same issue under another severity. *)
Definition with_severity (severity : string) (issue : Issue.t) : Issue.t :=
  Issue.mk (Issue.id issue) (Issue.source issue) severity
           (Issue.rule_id issue) (Issue.file_path issue) (Issue.line issue)
           (Issue.message issue) (Issue.category issue) (Issue.raw_data issue).

(** A SonarQube-standard report of one BLOCKER record whose rule is the
    third key of the default library. *)
Definition await_record : dict :=
  [ ("component", JStr "src/utils/date.ts"); ("line", JInt 5);
    ("severity", JStr "BLOCKER"); ("rule", JStr "typescript-missing-await");
    ("message", JStr "missing await") ].

Definition await_report : json := JObj [("issues", JArr [JObj await_record])].

Definition await_issue : Issue.t :=
  Issue.mk "sonar-typescript-missing-await-a8e91c7e" "sonarqube" "BLOCKER"
           "typescript-missing-await" "src/utils/date.ts" 5 "missing await"
           "general" await_record.

(** The compiler line of the specification's scenario C, the issue it is
    normalised to, and surroundings whose only readable file holds it. *)
Definition ts2307_line : string :=
  "foo.ts(12,3): error TS2307: Cannot find module 'x'".

Definition newline : string := String "010" "".

Definition ts2307_issue : Issue.t :=
  Issue.mk "ts-2307-3a90d3ae" "typescript" "MINOR" "TS2307" "foo.ts" 12
           "Cannot find module 'x'" "imports"
           [("original_line", JStr ts2307_line)].

Definition ts2307_world : World :=
  mkWorld (fun _ => Raise OSError)
          (fun p => if String.eqb p "typescript-errors.txt"
                    then Ok [ts2307_line ++ newline] else Raise OSError)
          (fun _ => Ok true) (fun _ _ => Ok (128, ""))
          (fun _ => Ok (0, "")) "2025-08-20T10:00:00" None [] []
          (fun _ => Ok tt).

(** The severity field of a record, [default] when the record has none. *)
Definition severity_field (default : string) (v : json) : string :=
  match v with
  | JObj item =>
      match dict_get "severity" item with
      | Some (JStr s) => s
      | _ => default
      end
  | _ => default
  end.

(** The file path the parser script reads off a record: its component
    without the project prefix, empty when there is no component. *)
Definition record_file (v : json) : string :=
  replace "WedSync:" ""
          match v with
          | JObj item =>
              match dict_get "component" item with
              | Some (JStr s) => s
              | _ => ""
              end
          | _ => ""
          end.

(** The records that have a file path, each with its position in the list;
    the positions are counted from [idx]. *)
Fixpoint kept_from (idx : nat) (items : list json) : list (nat * json) :=
  match items with
  | [] => []
  | v :: rest =>
      if String.eqb (record_file v) "" then kept_from (S idx) rest
      else (idx, v) :: kept_from (S idx) rest
  end.

(** A SonarQube-standard report of two records, the second without a
    severity field, and surroundings whose only readable file holds it. *)
Definition unused_record : dict :=
  [ ("component", JStr "WedSync:src/a.ts"); ("line", JInt 3);
    ("severity", JStr "major"); ("rule", JStr "S1172");
    ("message", JStr "unused parameter") ].

Definition bare_record : dict :=
  [ ("component", JStr "WedSync:src/a.ts"); ("line", JInt 3);
    ("rule", JStr "S1172"); ("message", JStr "unused parameter") ].

Definition two_records : list json := [JObj unused_record; JObj bare_record].

Definition two_record_report : dict := [("issues", JArr two_records)].

Definition sonarqube_world : World :=
  mkWorld (fun p => if String.eqb p "sonarqube-results.json"
                    then Ok (JObj two_record_report) else Raise OSError)
          (fun _ => Raise OSError)
          (fun _ => Ok true) (fun _ _ => Ok (128, ""))
          (fun _ => Ok (0, "")) "2025-08-20T10:00:00" None [] []
          (fun _ => Ok tt).

Definition unused_issue : Issue.t :=
  Issue.mk "sonar-S1172-d15d23a5" "sonarqube" "MAJOR" "S1172"
           "WedSync:src/a.ts" 3 "unused parameter" "maintainability"
           unused_record.

Definition bare_issue : Issue.t :=
  Issue.mk "sonar-S1172-d15d23a5" "sonarqube" "UNKNOWN" "S1172"
           "WedSync:src/a.ts" 3 "unused parameter" "maintainability"
           bare_record.

(** Surroundings with four reports: a well-formed SonarQube report, a
    SonarQube report and a CodeRabbit report that are not JSON, and a
    compiler output that cannot be decoded.  The two SonarQube reports are
    also the content of [QUEUES/INCOMING]. *)
Definition mixed_world : World :=
  mkWorld (fun p => if String.eqb p "sonarqube-results.json"
                    then Ok (JObj two_record_report)
                    else if String.eqb p "sonarqube-broken.json"
                    then Raise JSONDecodeError
                    else if String.eqb p "coderabbit-report.json"
                    then Raise JSONDecodeError
                    else Raise OSError)
          (fun p => if String.eqb p "typescript-errors.txt"
                    then Raise UnicodeDecodeError else Raise OSError)
          (fun _ => Ok true) (fun _ _ => Ok (128, ""))
          (fun _ => Ok (0, "")) "2025-08-20T10:00:00" None
          [ ("sonarqube-broken.json", "sonarqube-broken.json");
            ("sonarqube-results.json", "sonarqube-results.json") ]
          [] (fun _ => Ok tt).

(** [--process-everything] *)
Definition args_everything : Args.t :=
  Args.mk None None None false true false.

(** [--ingest-sonarqube sonarqube-results.json
     --ingest-coderabbit coderabbit-report.json --process-all] *)
Definition args_with_coderabbit : Args.t :=
  Args.mk (Some "sonarqube-results.json") (Some "coderabbit-report.json")
          None true false false.

(** [--ingest-sonarqube sonarqube-results.json
     --ingest-typescript typescript-errors.txt --process-all] *)
Definition args_with_typescript : Args.t :=
  Args.mk (Some "sonarqube-results.json") None
          (Some "typescript-errors.txt") true false false.

(** The jobs written by a run, without the orchestrator. *)
Definition jobs_written (run : outcome (list (string * Job.t) * Orchestrator.t))
  : outcome (list string) :=
  done ← run; Ok (map fst (fst done)).

(** What identifies an issue across two ingestions. *)
Definition identity (issue : Issue.t) : string * Z * string * string :=
  (Issue.file_path issue, Issue.line issue, Issue.rule_id issue,
   Issue.severity issue).

(** An orchestrator that has routed jobs before, and later surroundings
    that hold the report of [sonarqube_world] under another name. *)
Definition busy : Orchestrator.t :=
  Orchestrator.mk Orchestrator.default_patterns
                  (<["speed_jobs" := 7]> Orchestrator.initial_stats).

Definition later_world : World :=
  mkWorld (fun p => if String.eqb p "archive/sonarqube-results.json"
                    then Ok (JObj two_record_report) else Raise OSError)
          (fun _ => Raise OSError)
          (fun _ => Ok false) (fun _ _ => Raise OSError)
          (fun _ => Raise OSError) "2025-08-21T09:30:00" None [] []
          (fun _ => Ok tt).

(** The field [k] of a record is absent or a string (an integer). *)
Definition absent_or_str (k : string) (item : dict) : bool :=
  match dict_get k item with
  | None | Some (JStr _) => true
  | Some _ => false
  end.

Definition absent_or_int (k : string) (item : dict) : bool :=
  match dict_get k item with
  | None | Some (JInt _) => true
  | Some _ => false
  end.

(** A record whose fields, where present, have the types the [Issue]
    dataclass declares for them. *)
Definition typed_record (v : json) : bool :=
  match v with
  | JObj item =>
      absent_or_str "component" item && absent_or_int "line" item
      && absent_or_str "severity" item && absent_or_str "rule" item
      && absent_or_str "message" item && absent_or_str "effort" item
  | _ => false
  end.

(** Proof automation: one step through a sequence of calls that may raise. *)
Ltac step_bind H :=
  match type of H with
  | mbind _ ?m = Ok _ =>
      let E := fresh "Hstep" in
      destruct m eqn:E; cbn [mbind outcome_bind] in H; [|discriminate H]
  end.

(** Proof automation: case analysis on a field of a typed record. *)
Ltac typed_field k :=
  match goal with
  | H : absent_or_str k _ = true |- _ =>
      unfold absent_or_str in H;
      destruct (dict_get k _) as [[]|]; try discriminate H; clear H
  | H : absent_or_int k _ = true |- _ =>
      unfold absent_or_int in H;
      destruct (dict_get k _) as [[]|]; try discriminate H; clear H
  end.

(** Some character of [s] is white space. *)
Fixpoint has_space (s : string) : bool :=
  match s with
  | EmptyString => false
  | String c r => is_space c || has_space r
  end.

(** The path [save_job] writes a job to. *)
Definition job_file (job : Job.t) : string :=
  Orchestrator.queue_dir job ++ "/" ++ Job.id job ++ ".json".

(** What [process_issues] writes for the issue at index [k]: the job the
    router makes of it in [worlds k], at its path. *)
Definition routed (self : Orchestrator.t) (worlds : nat -> World) (k : nat)
           (issue : Issue.t) : string * Job.t :=
  let job := Orchestrator.route_issue self (worlds k) issue in
  (job_file job, job).

(** The number of jobs of one type among the jobs written. *)
Definition count_type (job_type : string) (written : list (string * Job.t))
  : Z :=
  Z.of_nat (length (filter (fun fj => Job.job_type (snd fj) = job_type) written)).

(** The directories [save_job] can choose for a job the router made. *)
Definition routed_queues : list string :=
  [ "JOB-QUEUES/SPEED-JOBS/pattern-single-return";
    "JOB-QUEUES/SPEED-JOBS/pattern-switch-cases";
    "JOB-QUEUES/SPEED-JOBS/pattern-async-await";
    "JOB-QUEUES/SPEED-JOBS/pattern-import-fixes";
    "JOB-QUEUES/SPEED-JOBS/pattern-type-assertions";
    "JOB-QUEUES/SPEED-JOBS/pattern-general";
    "JOB-QUEUES/DEEP-JOBS/security-sensitive";
    "JOB-QUEUES/DEEP-JOBS/architecture-changes";
    "JOB-QUEUES/DEEP-JOBS/new-patterns";
    "JOB-QUEUES/SKIP-JOBS" ].

(** The raw record of the issue says [status: NEW]. *)
Definition marked_new (issue : Issue.t) : bool :=
  match dict_get "status" (Issue.raw_data issue) with
  | Some (JStr s) => String.eqb s "NEW"
  | _ => false
  end.

(** Surroundings in which [git log] prints two commits. *)
Definition logged_world : World :=
  mkWorld (fun _ => Raise OSError) (fun _ => Raise OSError)
          (fun _ => Ok true) (fun _ _ => Ok (128, ""))
          (fun _ => Ok (0, "b0b8db54 fix S1172" ++ String "010" ""
                           ++ "  77aa01c2 fix S1172 again" ++ String "010" ""))
          "2025-08-20T10:00:00" None [] [] (fun _ => Ok tt).

(** [s[k:]] *)
Fixpoint drop_str (k : nat) (s : string) : string :=
  match k, s with
  | S k', String _ r => drop_str k' r
  | _, _ => s
  end.

(** The first character of [s] is white space. *)
Definition starts_with_space (s : string) : bool :=
  match s with
  | String c _ => is_space c
  | EmptyString => false
  end.

(** Every character of [s] is a decimal digit. *)
Fixpoint all_digits (s : string) : bool :=
  match s with
  | EmptyString => true
  | String c r =>
      match digit_of c with
      | Some _ => all_digits r
      | None => false
      end
  end.

(** A line as the TypeScript compiler prints it. *)
Definition tsc_line (file line_no column error_code message : string) : string :=
  file ++ "(" ++ line_no ++ "," ++ column ++ ")" ++ ": error TS"
       ++ error_code ++ ": " ++ message.

(** Surroundings whose compiler output has a good line, then a line whose
    position is not a number, then another good line. *)
Definition garbled_world : World :=
  mkWorld (fun _ => Raise OSError)
          (fun p => if String.eqb p "typescript-errors.txt"
                    then Ok [ ts2307_line ++ newline;
                              tsc_line "bar.ts" "12a" "3" "1005" "';' expected."
                              ++ newline;
                              ts2307_line ++ newline ]
                    else Raise OSError)
          (fun _ => Ok true) (fun _ _ => Ok (128, ""))
          (fun _ => Ok (0, "")) "2025-08-20T10:00:00" None [] []
          (fun _ => Ok tt).

(** Some character of [s] is a lower-case letter. *)
Fixpoint has_lower (s : string) : bool :=
  match s with
  | EmptyString => false
  | String c r => is_lower c || has_lower r
  end.

(** The issues listed under one key of [error_categories]. *)
Definition category_items (category_data : json) : outcome (list json) :=
  d ← as_dict category_data;
  match dict_get "issues" d with
  | Some listed => iterate listed
  | None => Ok []
  end.

(** A WedSync custom report with one issue under the key [critical] that
    names its own severity and id, one without either, and a flat list that
    is not read. *)
Definition custom_report : dict :=
  [ ("error_categories",
     JObj [ ("critical",
             JObj [("issues",
                    JArr [ JObj [ ("id", JStr "WS-1"); ("file", JStr "src/a.ts");
                                  ("line", JInt 3); ("rule", JStr "S2068");
                                  ("severity", JStr "blocker") ];
                           JObj [ ("file", JStr "src/a.ts"); ("line", JInt 3);
                                  ("rule", JStr "S1172") ] ])]) ]);
    ("issues", JArr [JObj bare_record]) ].

(** A CodeRabbit report of two findings, the second without a severity. *)
Definition coderabbit_report : json :=
  JArr [ JObj [ ("pr", JInt 17); ("file", JStr "src/utils/date.ts");
                ("line", JInt 5); ("severity", JStr "Style");
                ("summary", JStr "prefer const") ];
         JObj [ ("pr", JInt 17); ("file", JStr "src/api/pay.ts");
                ("line", JInt 9); ("summary", JStr "extract function") ] ].

Definition coderabbit_world : World :=
  mkWorld (fun p => if String.eqb p "coderabbit-report.json"
                    then Ok coderabbit_report else Raise OSError)
          (fun _ => Raise OSError)
          (fun _ => Ok true) (fun _ _ => Ok (128, ""))
          (fun _ => Ok (0, "")) "2025-08-20T10:00:00" None [] []
          (fun _ => Ok tt).

(** The issues of [custom_report] and of [coderabbit_report]. *)
Definition custom_issues : list Issue.t :=
  Eval vm_compute in
    match Orchestrator.sonarqube_issues fresh (JObj custom_report) with
    | Ok issues => issues
    | Raise _ => []
    end.

Definition coderabbit_issues : list Issue.t :=
  Eval vm_compute in
    match Orchestrator.ingest_coderabbit fresh coderabbit_world
                                         "coderabbit-report.json" with
    | Ok issues => issues
    | Raise _ => []
    end.

(** The number of error objects of one severity among those written. *)
Definition count_severity (severity : string)
           (written : list ParseSonarqube.ErrorObj.t) : Z :=
  Z.of_nat
    (length (filter (fun e => ParseSonarqube.ErrorObj.severity e = severity)
                    written)).

(** A SonarQube-standard report with a record of a severity that is not one
    of the five levels, a record without component and two plain records;
    surroundings whose only readable file holds it. *)
Definition odd_records : list json :=
  [ JObj [ ("component", JStr "WedSync:src/a.ts"); ("severity", JStr "warning");
           ("rule", JStr "typescript:S1128") ];
    JObj [ ("severity", JStr "major"); ("rule", JStr "typescript:S117") ];
    JObj [ ("component", JStr "WedSync:src/b.ts"); ("severity", JStr "major") ];
    JObj [ ("component", JStr "src/c.ts") ] ].

Definition odd_world : World :=
  mkWorld (fun p => if String.eqb p "sonarqube-results.json"
                    then Ok (JObj [("issues", JArr odd_records)])
                    else Raise OSError)
          (fun _ => Raise OSError)
          (fun _ => Ok true) (fun _ _ => Ok (128, ""))
          (fun _ => Ok (0, "")) "2025-08-20T10:00:00" None [] []
          (fun _ => Ok tt).

(** What [parse_sonarqube_results] writes and counts for [odd_world]. *)
Definition odd_written : list ParseSonarqube.ErrorObj.t :=
  Eval vm_compute in
    match ParseSonarqube.parse_sonarqube_results
            odd_world "sonarqube-results.json" "QUEUES" with
    | Ok (Some (written, _)) => written
    | _ => []
    end.

Definition odd_stats : gmap string Z :=
  fold_left ParseSonarqube.count odd_written ParseSonarqube.initial_stats.

(** * Properties *)

(** ** The embedding on known values *)

Example md5_empty : Md5.hexdigest "" = "d41d8cd98f00b204e9800998ecf8427e".
Proof. vm_compute. reflexivity. Qed.

Example md5_abc : Md5.hexdigest "abc" = "900150983cd24fb0d6963f7d28e17f72".
Proof. vm_compute. reflexivity. Qed.

Example md5_two_blocks :
  Md5.hexdigest "aaaaaaaaaaaaaaaaaaaaaaaaaaaaaaaaaaaaaaaaaaaaaaaaaaaaaaaa"
  = "3b0c8ac703f828b04c6c197006d17218".
Proof. vm_compute. reflexivity. Qed.

Example pattern_key_ts :
  Orchestrator.pattern_key "TS2307" = "typescript-2307".
Proof. reflexivity. Qed.

Example pattern_key_sonar :
  Orchestrator.pattern_key "typescript:S3516" = "typescript:s3516".
Proof. reflexivity. Qed.

Example replace_leftmost : replace "aa" "b" "aaaaa" = "bba".
Proof. reflexivity. Qed.

Example split_keeps_empty : split "," "a,,b," = ["a"; ""; "b"; ""].
Proof. reflexivity. Qed.

Example split_error_line :
  split ": error TS" ts2307_line
  = ["foo.ts(12,3)"; "2307: Cannot find module 'x'"].
Proof. reflexivity. Qed.

Example strip_both_ends : strip ("  a b " ++ newline) = "a b".
Proof. reflexivity. Qed.

Example int_of_str_cases :
  int_of_str " 12 " = Some 12 /\ int_of_str "-7" = Some (-7)
  /\ int_of_str "1_000" = Some 1000 /\ int_of_str "" = None
  /\ int_of_str "12a" = None /\ int_of_str "1__2" = None.
Proof. repeat split; reflexivity. Qed.

Example str_of_int_cases :
  str_of_int 0 = "0" /\ str_of_int 105 = "105" /\ str_of_int (-12) = "-12".
Proof. repeat split; reflexivity. Qed.

Example pad5_cases :
  ParseSonarqube.pad5 7 = "00007" /\ ParseSonarqube.pad5 4321 = "04321".
Proof. split; reflexivity. Qed.

(** Scenario A of the specification, on the code: the component keeps its
    project prefix, the score is 10 and the job is DEEP. *)
Example scenario_a :
  let issue :=
    Issue.mk "sonar-S4502-943d704e" "sonarqube" "CRITICAL" "S4502"
             "proj:src/api/pay.ts" 10 "missing auth check" "security"
             [ ("component", JStr "proj:src/api/pay.ts"); ("line", JInt 10);
               ("severity", JStr "critical"); ("rule", JStr "S4502");
               ("message", JStr "missing auth check") ] in
  Orchestrator.sonarqube_issues fresh
    (JObj [("issues", JArr [JObj (Issue.raw_data issue)])]) = Ok [issue]
  /\ Orchestrator.calculate_complexity fresh issue = 10
  /\ Job.job_type (Orchestrator.route_issue fresh quiet_world issue) = "DEEP"
  /\ Job.estimated_minutes (Orchestrator.route_issue fresh quiet_world issue)
     = 30.
Proof. vm_compute. repeat split; reflexivity. Qed.

(** ** Strings *)

Lemma prefix_split (a b : string) :
  String.prefix a b = true <-> exists rest, b = a ++ rest.
Proof.
  revert b. induction a as [|c a IH]; intros b.
  - destruct b; simpl; split; eauto.
  - destruct b as [|d b]; simpl.
    + split; [discriminate | intros [r Hr]; discriminate].
    + destruct (ascii_dec c d) as [->|Hne].
      * rewrite IH. split; intros [r Hr]; exists r.
        -- now rewrite Hr.
        -- now injection Hr.
      * split; [discriminate | intros [r Hr]; injection Hr; congruence].
Qed.

Lemma contains_here (sub s : string) :
  String.prefix sub s = true -> contains sub s = true.
Proof. intros H. destruct s; cbn [contains]; rewrite H; reflexivity. Qed.

Lemma contains_later (sub : string) (c : ascii) (s : string) :
  contains sub s = true -> contains sub (String c s) = true.
Proof. intros H. cbn [contains]. rewrite H. apply orb_true_r. Qed.

(** [sub in s] holds exactly when [sub] is a substring of [s]. *)
Lemma contains_substring (sub s : string) :
  contains sub s = true <-> exists before after, s = before ++ sub ++ after.
Proof.
  split.
  - induction s as [|c s IH]; cbn [contains]; intros H.
    + rewrite orb_false_r in H. apply prefix_split in H as [r Hr].
      exists "", r. exact Hr.
    + apply orb_true_iff in H as [H|H].
      * apply prefix_split in H as [r Hr]. exists "", r. exact Hr.
      * destruct (IH H) as (pre & post & ->).
        exists (String c pre), post. reflexivity.
  - intros (pre & post & ->).
    induction pre as [|c pre IH]; simpl String.append.
    + apply contains_here, prefix_split. eauto.
    + apply contains_later, IH.
Qed.

Lemma lower_app (a b : string) : lower (a ++ b) = lower a ++ lower b.
Proof. induction a as [|c a IH]; simpl; [reflexivity | now rewrite IH]. Qed.

(** A substring stays one when both strings are lower-cased. *)
Lemma contains_lower (sub s : string) :
  contains sub s = true -> contains (lower sub) (lower s) = true.
Proof.
  rewrite !contains_substring. intros (pre & post & ->).
  exists (lower pre), (lower post). now rewrite !lower_app.
Qed.

Lemma is_upper_lower_char (c : ascii) : is_upper (lower_char c) = false.
Proof. destruct c as [[] [] [] [] [] [] [] []]; reflexivity. Qed.

Lemma has_upper_lower (s : string) : has_upper (lower s) = false.
Proof.
  induction s as [|c s IH]; simpl; [reflexivity|].
  now rewrite is_upper_lower_char, IH.
Qed.

Lemma has_upper_app (a b : string) :
  has_upper (a ++ b) = has_upper a || has_upper b.
Proof.
  induction a as [|c a IH]; simpl; [reflexivity|].
  now rewrite IH, orb_assoc.
Qed.

(** Replacing by a text without upper-case letters adds none. *)
Lemma has_upper_replace_from (old new : string) (skip : nat) (s : string) :
  has_upper new = false -> has_upper s = false ->
  has_upper (replace_from old new skip s) = false.
Proof.
  intros Hnew. revert skip.
  induction s as [|c s IH]; intros skip Hs; cbn [replace_from];
    [reflexivity|].
  cbn [has_upper] in Hs. apply orb_false_iff in Hs as [Hc Hs].
  destruct skip as [|k]; [|now apply IH].
  destruct (String.prefix old (String c s)).
  - rewrite has_upper_app, Hnew. now apply IH.
  - cbn [has_upper]. rewrite Hc. now apply IH.
Qed.

(** The scorer's pattern key has no upper-case letter. *)
Lemma pattern_key_no_upper (rule_id : string) :
  has_upper (Orchestrator.pattern_key rule_id) = false.
Proof.
  unfold Orchestrator.pattern_key, replace.
  apply has_upper_replace_from; [reflexivity | apply has_upper_lower].
Qed.

(** ** Scoring *)

Lemma severity_base_cases (issue : Issue.t) :
  In (severity_base issue) [8; 6; 4; 2; 1; 3].
Proof.
  unfold severity_base, Orchestrator.severity_scores. cbn [Orchestrator.table_get].
  repeat match goal with
         | |- context [if ?b then _ else _] => destruct b
         end; cbn [In]; auto 10.
Qed.

(** The score is the sum of base (or library value) and the two adjustments,
    cut at 10 from above and not cut from below. *)
Lemma calculate_complexity_unclamped (self : Orchestrator.t) (issue : Issue.t) :
  Orchestrator.calculate_complexity self issue
  = Z.min (unclamped_score self issue) 10.
Proof.
  unfold Orchestrator.calculate_complexity, unclamped_score,
    library_complexity, path_adjustment, category_adjustment, sensitive_path,
    severity_base.
  destruct (Orchestrator.patterns self !! _) as [entry|]; cbn [mbind option_bind];
    [destruct (Pattern.complexity entry)|]; unfold default, id; cbn [from_option];
    destruct (existsb _ _);
    destruct (String.eqb (Issue.category issue) "security");
    try destruct (String.eqb (Issue.category issue) "performance");
    f_equal; lia.
Qed.

(** ** Routing *)

Lemma first_fragment_spec (rule_id : string) (table : list (string * string)) :
  first_matching rule_id table (Orchestrator.first_fragment rule_id table).
Proof.
  induction table as [|[fragment name] rest IH]; cbn [Orchestrator.first_fragment].
  - right. split; [reflexivity | constructor].
  - destruct (contains fragment rule_id) eqn:Hhere.
    + left. exists [], fragment, rest. repeat split; [exact Hhere | constructor].
    + destruct IH as [(before & f & after & Heq & Hf & Hnone) | [Hname Hnone]].
      * left. exists ((fragment, name) :: before), f, after.
        split; [cbn [app]; f_equal; exact Heq|].
        split; [exact Hf | constructor; [exact Hhere | exact Hnone]].
      * right. split; [exact Hname | constructor; [exact Hhere | exact Hnone]].
Qed.

Lemma first_matching_unique (rule_id : string) (table : list (string * string))
      (name : string) :
  first_matching rule_id table name ->
  Orchestrator.first_fragment rule_id table = name.
Proof.
  intros [(before & f & after & -> & Hf & Hnone) | [-> Hnone]].
  - induction before as [|[f0 n0] before IH];
      cbn [app Orchestrator.first_fragment].
    + now rewrite Hf.
    + inversion Hnone as [|? ? Hf0 Hrest]; subst. cbn [fst] in Hf0.
      rewrite Hf0. now apply IH.
  - induction table as [|[f0 n0] table IH]; cbn [Orchestrator.first_fragment].
    + reflexivity.
    + inversion Hnone as [|? ? Hf0 Hrest]; subst. cbn [fst] in Hf0.
      rewrite Hf0. now apply IH.
Qed.

(** C1. An issue that is not already resolved is routed by its complexity
    score, the threshold 3 being on the SPEED side: a score of at most 3
    gives a SPEED job with verification BASIC, 5 estimated minutes and the
    pattern of the first rule fragment found in the rule id
    ("pattern-general" when there is none); a score above 3 (so 4 and more)
    gives a DEEP job with verification COMPREHENSIVE, three minutes per point
    of complexity and no pattern. *)
Theorem route_by_complexity
        (self : Orchestrator.t) (w : World) (issue : Issue.t) :
  Orchestrator.check_already_resolved self w issue = false ->
  let complexity := Orchestrator.calculate_complexity self issue in
  let job := Orchestrator.route_issue self w issue in
  Job.complexity_score job = complexity
  /\ (complexity <= 3 ->
      Job.job_type job = "SPEED"
      /\ Job.verification_level job = "BASIC"
      /\ Job.estimated_minutes job = 5
      /\ exists name,
          Job.pattern job = Some name
          /\ first_matching (Issue.rule_id issue) Orchestrator.rule_patterns name)
  /\ (3 < complexity ->
      Job.job_type job = "DEEP"
      /\ Job.verification_level job = "COMPREHENSIVE"
      /\ Job.estimated_minutes job = complexity * 3
      /\ Job.pattern job = None).
Proof.
  intros Hopen complexity job. subst job.
  unfold Orchestrator.route_issue. rewrite Hopen. fold complexity.
  destruct (Z.leb_spec complexity 3) as [Hle|Hgt]; cbn.
  - repeat split; try lia.
    exists (Orchestrator.first_fragment (Issue.rule_id issue)
                                        Orchestrator.rule_patterns).
    split; [reflexivity | apply first_fragment_spec].
  - repeat split; lia.
Qed.

Lemma route_by_complexity_witness :
  (Job.job_type (Orchestrator.route_issue fresh quiet_world
                   (sample_issue "MINOR" "TS2307" "foo.ts" "imports")) = "SPEED"
   /\ Job.pattern (Orchestrator.route_issue fresh quiet_world
                   (sample_issue "MINOR" "TS2307" "foo.ts" "imports"))
      = Some "pattern-import-fixes")
  /\ (Job.job_type (Orchestrator.route_issue fresh quiet_world
                   (sample_issue "MAJOR" "TS2345" "foo.ts" "types")) = "DEEP"
      /\ Job.estimated_minutes (Orchestrator.route_issue fresh quiet_world
                   (sample_issue "MAJOR" "TS2345" "foo.ts" "types")) = 12).
Proof.
  split.
  - destruct (route_by_complexity fresh quiet_world
                (sample_issue "MINOR" "TS2307" "foo.ts" "imports") eq_refl)
      as (_ & Hspeed & _).
    destruct Hspeed as (Htype & _ & _ & name & Hname & Hfirst).
    + vm_compute. discriminate.
    + split; [exact Htype|].
      rewrite Hname. f_equal. symmetry.
      apply (first_matching_unique _ _ _ Hfirst).
  - destruct (route_by_complexity fresh quiet_world
                (sample_issue "MAJOR" "TS2345" "foo.ts" "types") eq_refl)
      as (_ & _ & Hdeep).
    destruct Hdeep as (Htype & _ & Hminutes & _).
    + vm_compute. reflexivity.
    + split; [exact Htype | exact Hminutes].
Defined.

(** C7. An issue the already-resolved check accepts gets a SKIP job with
    verification NONE, one estimated minute, the pattern "already-resolved"
    and no agents; the complexity-based transitions play no part: the score
    recorded is 0 and the job is the same whatever the pattern library and
    the stats of the orchestrator are. *)
Theorem route_already_resolved
        (self : Orchestrator.t) (w : World) (issue : Issue.t) :
  Orchestrator.check_already_resolved self w issue = true ->
  Orchestrator.route_issue self w issue
  = Job.mk ("job-" ++ Issue.id issue) issue "SKIP" 0 1
           (Some "already-resolved") [] "NONE" [] (now w)
  /\ forall other : Orchestrator.t,
      Orchestrator.route_issue other w issue
      = Orchestrator.route_issue self w issue.
Proof.
  intros Hdone.
  assert (Hany : forall o : Orchestrator.t,
             Orchestrator.route_issue o w issue
             = Job.mk ("job-" ++ Issue.id issue) issue "SKIP" 0 1
                      (Some "already-resolved") [] "NONE" [] (now w)).
  { intros o. unfold Orchestrator.route_issue.
    change (Orchestrator.check_already_resolved o w issue)
      with (Orchestrator.check_already_resolved self w issue).
    now rewrite Hdone. }
  split; [apply Hany | intros other; now rewrite !Hany].
Qed.

Lemma route_already_resolved_witness :
  Orchestrator.route_issue fresh emptied_world
    (sample_issue "BLOCKER" "S4502" "src/auth/login.ts" "security")
  = Job.mk "job-sonar-S4502-00000000"
           (sample_issue "BLOCKER" "S4502" "src/auth/login.ts" "security")
           "SKIP" 0 1 (Some "already-resolved") [] "NONE" []
           "2025-08-20T10:00:00".
Proof.
  exact (proj1 (route_already_resolved fresh emptied_world
                  (sample_issue "BLOCKER" "S4502" "src/auth/login.ts" "security")
                  eq_refl)).
Defined.

(** The job type tells which branch of the router was taken. *)
Lemma route_issue_type (self : Orchestrator.t) (w : World) (issue : Issue.t) :
  let job := Orchestrator.route_issue self w issue in
  (Job.job_type job = "SKIP"
   /\ Orchestrator.check_already_resolved self w issue = true)
  \/ (Job.job_type job = "SPEED"
      /\ Orchestrator.check_already_resolved self w issue = false
      /\ Orchestrator.calculate_complexity self issue <= 3)
  \/ (Job.job_type job = "DEEP"
      /\ Orchestrator.check_already_resolved self w issue = false
      /\ 3 < Orchestrator.calculate_complexity self issue).
Proof.
  unfold Orchestrator.route_issue.
  destruct (Orchestrator.check_already_resolved self w issue); [now left|].
  destruct (Z.leb_spec (Orchestrator.calculate_complexity self issue) 3);
    [right; left | right; right]; cbn; auto.
Qed.

(** An issue that goes through the scorer carries its score. *)
Lemma route_issue_score (self : Orchestrator.t) (w : World) (issue : Issue.t) :
  Orchestrator.check_already_resolved self w issue = false ->
  Job.complexity_score (Orchestrator.route_issue self w issue)
  = Orchestrator.calculate_complexity self issue.
Proof.
  intros Hopen. unfold Orchestrator.route_issue. rewrite Hopen.
  now destruct (Orchestrator.calculate_complexity self issue <=? 3).
Qed.

(** The agents of a DEEP job, exactly. *)
Lemma deep_agents (self : Orchestrator.t) (w : World) (issue : Issue.t) :
  Job.job_type (Orchestrator.route_issue self w issue) = "DEEP" ->
  Job.requires_agents (Orchestrator.route_issue self w issue)
  = ((if String.eqb (Issue.category issue) "security"
         || contains "auth" (lower (Issue.file_path issue))
      then ["security-officer"] else [])
     ++ (if 8 <=? Orchestrator.calculate_complexity self issue
         then ["architecture-reviewer"] else []))%list.
Proof.
  unfold Orchestrator.route_issue.
  destruct (Orchestrator.check_already_resolved self w issue);
    [discriminate|].
  destruct (Orchestrator.calculate_complexity self issue <=? 3);
    [discriminate|].
  intros _. cbn [Job.requires_agents].
  destruct (_ || _); destruct (8 <=? _); reflexivity.
Qed.

(** C8. A DEEP job requires the security role ("security-officer") when the
    issue's category is security or its file path contains "auth", and the
    architecture-review role ("architecture-reviewer") when its complexity
    score is 8 or more; a SPEED job requires no agent. *)
Theorem route_requires_agents
        (self : Orchestrator.t) (w : World) (issue : Issue.t) :
  let job := Orchestrator.route_issue self w issue in
  (Job.job_type job = "DEEP" ->
   (Issue.category issue = "security"
    \/ contains "auth" (Issue.file_path issue) = true ->
    In "security-officer" (Job.requires_agents job))
   /\ (8 <= Job.complexity_score job ->
       In "architecture-reviewer" (Job.requires_agents job)))
  /\ (Job.job_type job = "SPEED" -> Job.requires_agents job = []).
Proof.
  cbn zeta. split.
  - intros Hdeep. rewrite (deep_agents _ _ _ Hdeep).
    assert (Hscore : Job.complexity_score (Orchestrator.route_issue self w issue)
                     = Orchestrator.calculate_complexity self issue).
    { destruct (route_issue_type self w issue) as [[H _]|[[H _]|(_ & Hopen & _)]];
        try congruence.
      now apply route_issue_score. }
    rewrite Hscore. split.
    + intros Hsec. apply in_or_app. left.
      assert (Htest : String.eqb (Issue.category issue) "security"
                      || contains "auth" (lower (Issue.file_path issue)) = true).
      { apply orb_true_iff. destruct Hsec as [Hcat|Hpath].
        - left. now apply String.eqb_eq.
        - right. now apply (contains_lower "auth"). }
      rewrite Htest. now left.
    + intros Hhigh. apply in_or_app. right.
      destruct (Z.leb_spec 8 (Orchestrator.calculate_complexity self issue));
        [now left | lia].
  - unfold Orchestrator.route_issue.
    destruct (Orchestrator.check_already_resolved self w issue);
      [discriminate|].
    destruct (Orchestrator.calculate_complexity self issue <=? 3);
      [reflexivity | discriminate].
Qed.

Lemma route_requires_agents_witness :
  (In "security-officer"
      (Job.requires_agents
         (Orchestrator.route_issue fresh quiet_world
            (sample_issue "CRITICAL" "S4502" "src/api/auth/pay.ts" "security")))
   /\ In "architecture-reviewer"
        (Job.requires_agents
           (Orchestrator.route_issue fresh quiet_world
              (sample_issue "CRITICAL" "S4502" "src/api/auth/pay.ts" "security"))))
  /\ Job.requires_agents
       (Orchestrator.route_issue fresh quiet_world
          (sample_issue "MINOR" "TS2307" "foo.ts" "imports")) = [].
Proof.
  split.
  - destruct (route_requires_agents fresh quiet_world
                (sample_issue "CRITICAL" "S4502" "src/api/auth/pay.ts" "security"))
      as [Hdeep _].
    destruct (Hdeep eq_refl) as [Hsec Harch].
    split; [apply Hsec; left; reflexivity | apply Harch; vm_compute; discriminate].
  - destruct (route_requires_agents fresh quiet_world
                (sample_issue "MINOR" "TS2307" "foo.ts" "imports"))
      as [_ Hspeed].
    exact (Hspeed eq_refl).
Defined.

(** ** The pattern library *)

Lemma default_patterns_keys (key : string) (entry : Pattern.t) :
  Orchestrator.default_patterns !! key = Some entry ->
  key = "sonar-S3516" \/ key = "sonar-S128"
  \/ (key = "typescript-missing-await" /\ Pattern.complexity entry = Some 3).
Proof.
  unfold Orchestrator.default_patterns. intros Hin.
  apply elem_of_list_to_map_2 in Hin.
  repeat (apply elem_of_cons in Hin as [Hin|Hin];
          [injection Hin as -> ->; auto|]).
  now apply elem_of_nil in Hin.
Qed.

(** Of the default library only the entry "typescript-missing-await" can be
    reached from a rule id. *)
Lemma default_patterns_reachable (rule_id : string) (entry : Pattern.t) :
  Orchestrator.default_patterns !! Orchestrator.pattern_key rule_id = Some entry ->
  Orchestrator.pattern_key rule_id = "typescript-missing-await"
  /\ Pattern.complexity entry = Some 3.
Proof.
  intros Hin. pose proof (pattern_key_no_upper rule_id) as Hlow.
  destruct (default_patterns_keys _ _ Hin) as [Hk|[Hk|Hk]];
    [rewrite Hk in Hlow; discriminate Hlow ..| exact Hk].
Qed.

(** C2. When the rule id of an issue maps to an entry of the pattern
    library, the entry's precomputed complexity takes the place of the
    severity base score, it is not added to it: the score is that complexity
    plus the path and category adjustments, cut at 10, and is the same under
    every severity.  An entry of complexity 2, a path that is not sensitive
    and a category other than security and performance give the score 2,
    under severity BLOCKER as under any other. *)
Theorem library_overrides_base
        (self : Orchestrator.t) (issue : Issue.t) (entry : Pattern.t) (c : Z) :
  Orchestrator.patterns self !! Orchestrator.pattern_key (Issue.rule_id issue)
  = Some entry ->
  Pattern.complexity entry = Some c ->
  Orchestrator.calculate_complexity self issue
  = Z.min (c + path_adjustment issue + category_adjustment issue) 10
  /\ (forall severity,
        Orchestrator.calculate_complexity self (with_severity severity issue)
        = Orchestrator.calculate_complexity self issue)
  /\ (c = 2 -> sensitive_path issue = false ->
      Issue.category issue <> "security" ->
      Issue.category issue <> "performance" ->
      Orchestrator.calculate_complexity self (with_severity "BLOCKER" issue) = 2).
Proof.
  intros Hentry Hc.
  assert (Hany : forall severity,
             Orchestrator.calculate_complexity self (with_severity severity issue)
             = Z.min (c + path_adjustment issue + category_adjustment issue) 10).
  { intros severity. rewrite calculate_complexity_unclamped.
    unfold unclamped_score, library_complexity.
    cbn [with_severity Issue.rule_id]. rewrite Hentry.
    cbn [mbind option_bind]. now rewrite Hc. }
  assert (Hself : Orchestrator.calculate_complexity self issue
                  = Z.min (c + path_adjustment issue + category_adjustment issue) 10).
  { rewrite calculate_complexity_unclamped.
    unfold unclamped_score, library_complexity. rewrite Hentry.
    cbn [mbind option_bind]. now rewrite Hc. }
  split; [exact Hself|]. split.
  - intros severity. now rewrite Hany, Hself.
  - intros -> Hpath Hsec Hperf. rewrite Hany.
    unfold path_adjustment, category_adjustment. rewrite Hpath.
    apply String.eqb_neq in Hsec, Hperf. rewrite Hsec, Hperf. reflexivity.
Qed.

Lemma library_overrides_base_witness :
  Orchestrator.calculate_complexity
    (Orchestrator.mk
       {[ "typescript-2307" :=
            Pattern.mk "import-fix" (Some 2) "Fix the module path" "BASIC" 4 "0.9" ]}
       Orchestrator.initial_stats)
    (with_severity "BLOCKER" (sample_issue "BLOCKER" "TS2307" "foo.ts" "imports"))
  = 2.
Proof.
  apply (library_overrides_base
           (Orchestrator.mk
              {[ "typescript-2307" :=
                   Pattern.mk "import-fix" (Some 2) "Fix the module path"
                              "BASIC" 4 "0.9" ]}
              Orchestrator.initial_stats)
           (sample_issue "BLOCKER" "TS2307" "foo.ts" "imports")
           (Pattern.mk "import-fix" (Some 2) "Fix the module path" "BASIC" 4 "0.9")
           2);
    (reflexivity || discriminate).
Defined.

(** C3. The score never exceeds 10 and is not cut from below (a sum of at
    most 10 is returned as it is; the severity base scores are all at least
    1): severity BLOCKER (base 8), a sensitive path (+3) and category
    security (+4) sum to 15 and score exactly 10.  Under the default library
    this holds for every rule id. *)
Theorem complexity_clamped (self : Orchestrator.t) (issue : Issue.t) :
  Orchestrator.calculate_complexity self issue <= 10
  /\ 1 <= severity_base issue
  /\ (unclamped_score self issue <= 10 ->
      Orchestrator.calculate_complexity self issue = unclamped_score self issue)
  /\ (Issue.severity issue = "BLOCKER" ->
      sensitive_path issue = true ->
      Issue.category issue = "security" ->
      (library_complexity self issue = None ->
       unclamped_score self issue = 15
       /\ Orchestrator.calculate_complexity self issue = 10)
      /\ (Orchestrator.patterns self = Orchestrator.default_patterns ->
          Orchestrator.calculate_complexity self issue = 10)).
Proof.
  rewrite calculate_complexity_unclamped.
  split; [lia|]. split.
  { pose proof (severity_base_cases issue) as Hbase. cbn [In] in Hbase. lia. }
  split; [lia|].
  intros Hsev Hpath Hcat.
  assert (Hadj : path_adjustment issue = 3 /\ category_adjustment issue = 4
                 /\ severity_base issue = 8).
  { unfold path_adjustment, category_adjustment, severity_base.
    now rewrite Hpath, Hcat, Hsev. }
  destruct Hadj as (Hp & Hc & Hb). split.
  - intros Hnone. unfold unclamped_score.
    rewrite Hnone, Hp, Hc, Hb. split; reflexivity.
  - intros Hdefault. unfold unclamped_score, library_complexity.
    rewrite Hdefault, Hp, Hc, Hb.
    destruct (Orchestrator.default_patterns !! _) as [entry|] eqn:Hentry;
      cbn [mbind option_bind]; [|reflexivity].
    apply default_patterns_reachable in Hentry as [_ ->]. reflexivity.
Qed.

Lemma complexity_clamped_witness :
  unclamped_score fresh (sample_issue "BLOCKER" "S2068" "src/api/login.ts" "security")
  = 15
  /\ Orchestrator.calculate_complexity
       fresh (sample_issue "BLOCKER" "S2068" "src/api/login.ts" "security")
     = 10.
Proof.
  destruct (complexity_clamped
              fresh (sample_issue "BLOCKER" "S2068" "src/api/login.ts" "security"))
    as (_ & _ & _ & Hcase).
  destruct (Hcase eq_refl eq_refl eq_refl) as [Hbase _].
  exact (Hbase eq_refl).
Defined.

(** The score can fall below 1 when a library entry says so: nothing cuts it
    from below. *)
Lemma negative_library_score :
  Orchestrator.calculate_complexity
    (Orchestrator.mk
       {[ "typescript-2307" :=
            Pattern.mk "import-fix" (Some (-4)) "Fix the module path" "BASIC" 4 "0.9" ]}
       Orchestrator.initial_stats)
    (sample_issue "BLOCKER" "TS2307" "foo.ts" "imports")
  = -4.
Proof. reflexivity. Qed.

(** C10, as the code has it.  Under the default pattern library the entries
    "sonar-S3516" and "sonar-S128" never override a score: the pattern key,
    the lower-cased rule id with "ts" replaced by "typescript-", has no
    upper-case letter and so differs from both.  The override is taken
    exactly when the pattern key is "typescript-missing-await"; for every
    issue with another pattern key the score is the severity base plus the
    path and category adjustments, cut at 10. *)
Theorem default_library_override (self : Orchestrator.t) (issue : Issue.t) :
  Orchestrator.patterns self = Orchestrator.default_patterns ->
  let key := Orchestrator.pattern_key (Issue.rule_id issue) in
  has_upper key = false
  /\ key <> "sonar-S3516"
  /\ key <> "sonar-S128"
  /\ (is_Some (Orchestrator.patterns self !! key)
      <-> key = "typescript-missing-await")
  /\ (key <> "typescript-missing-await" ->
      Orchestrator.calculate_complexity self issue
      = Z.min (severity_base issue + path_adjustment issue
               + category_adjustment issue) 10).
Proof.
  intros Hdefault key. subst key.
  pose proof (pattern_key_no_upper (Issue.rule_id issue)) as Hlow.
  split; [exact Hlow|].
  split; [intros Hk; rewrite Hk in Hlow; discriminate Hlow|].
  split; [intros Hk; rewrite Hk in Hlow; discriminate Hlow|].
  rewrite Hdefault. split; [split|].
  - intros [entry Hentry]. now apply default_patterns_reachable in Hentry.
  - intros ->. eexists. reflexivity.
  - intros Hother. rewrite calculate_complexity_unclamped.
    unfold unclamped_score, library_complexity. rewrite Hdefault.
    destruct (Orchestrator.default_patterns !! _) as [entry|] eqn:Hentry;
      [|reflexivity].
    apply default_patterns_reachable in Hentry as [Hk _]. contradiction.
Qed.

Lemma default_library_override_witness :
  Orchestrator.calculate_complexity
    fresh (sample_issue "MAJOR" "typescript:S3516" "src/api/pay.ts" "maintainability")
  = Z.min (4 + 3 + 0) 10.
Proof.
  destruct (default_library_override
              fresh
              (sample_issue "MAJOR" "typescript:S3516" "src/api/pay.ts"
                            "maintainability") eq_refl)
    as (_ & _ & _ & _ & Hscore).
  apply Hscore. vm_compute. discriminate.
Defined.

(** C10 as stated fails: the SonarQube-standard record of [await_report]
    gives a SonarQube-sourced issue whose score under the default library
    is the library's 3, not the severity base 8 with its adjustments. *)
Lemma sonarqube_issue_overridden :
  Orchestrator.sonarqube_issues fresh await_report = Ok [await_issue]
  /\ Issue.source await_issue = "sonarqube"
  /\ Orchestrator.default_patterns
       !! Orchestrator.pattern_key (Issue.rule_id await_issue)
     = Some (Pattern.mk "async-await-fix" (Some 3)
                        "Add await to async function calls" "MEDIUM" 8 "0.9")
  /\ Orchestrator.calculate_complexity fresh await_issue = 3
  /\ Z.min (severity_base await_issue + path_adjustment await_issue
            + category_adjustment await_issue) 10 = 8.
Proof. vm_compute. repeat split; reflexivity. Qed.

(** ** Ingestion of compiler output *)

(** C4, as the code has it.  The compiler line
    [foo.ts(12,3): error TS2307: Cannot find module 'x'] is normalised to one
    issue of severity MINOR (2307 is neither a syntax nor a type-error code)
    and category imports; under the default library its score is 2, and
    when it is not already resolved it is routed to a SPEED job with 5
    estimated minutes, verification BASIC and the pattern
    "pattern-import-fixes". *)
Theorem typescript_2307_routes_speed
        (self : Orchestrator.t) (w : World) (path line : string) :
  line = ts2307_line \/ line = ts2307_line ++ newline ->
  read_lines w path = Ok [line] ->
  Orchestrator.ingest_typescript self w path = Ok [ts2307_issue]
  /\ Issue.severity ts2307_issue = "MINOR"
  /\ Issue.category ts2307_issue = "imports"
  /\ (Orchestrator.patterns self = Orchestrator.default_patterns ->
      Orchestrator.calculate_complexity self ts2307_issue = 2
      /\ forall w' : World,
          Orchestrator.check_already_resolved self w' ts2307_issue = false ->
          let job := Orchestrator.route_issue self w' ts2307_issue in
          Job.job_type job = "SPEED"
          /\ Job.estimated_minutes job = 5
          /\ Job.verification_level job = "BASIC"
          /\ Job.pattern job = Some "pattern-import-fixes").
Proof.
  intros Hline Hread.
  split.
  { unfold Orchestrator.ingest_typescript. rewrite Hread.
    destruct Hline as [-> | ->]; vm_compute; reflexivity. }
  split; [reflexivity|]. split; [reflexivity|].
  intros Hdefault.
  assert (Hscore : Orchestrator.calculate_complexity self ts2307_issue = 2).
  { unfold Orchestrator.calculate_complexity. rewrite Hdefault.
    vm_compute. reflexivity. }
  split; [exact Hscore|].
  intros w' Hopen. unfold Orchestrator.route_issue.
  rewrite Hopen, Hscore. cbn. repeat split; reflexivity.
Qed.

Lemma typescript_2307_routes_speed_witness :
  Orchestrator.ingest_typescript fresh ts2307_world "typescript-errors.txt"
  = Ok [ts2307_issue]
  /\ Job.job_type (Orchestrator.route_issue fresh ts2307_world ts2307_issue)
     = "SPEED".
Proof.
  destruct (typescript_2307_routes_speed
              fresh ts2307_world "typescript-errors.txt"
              (ts2307_line ++ newline) (or_intror eq_refl) eq_refl)
    as (Hingest & _ & _ & Hroute).
  split; [exact Hingest|].
  destruct (Hroute eq_refl) as [_ Hjob].
  exact (proj1 (Hjob ts2307_world eq_refl)).
Defined.

(** C4 as stated fails: the issue is MINOR, not MAJOR; its score is 2, not
    4; the job is SPEED with 5 minutes, not DEEP with 12. *)
Lemma typescript_2307_not_deep :
  Orchestrator.ingest_typescript fresh ts2307_world "typescript-errors.txt"
  = Ok [ts2307_issue]
  /\ Issue.severity ts2307_issue <> "MAJOR"
  /\ Orchestrator.calculate_complexity fresh ts2307_issue <> 4
  /\ Job.job_type (Orchestrator.route_issue fresh ts2307_world ts2307_issue)
     <> "DEEP"
  /\ Job.estimated_minutes
       (Orchestrator.route_issue fresh ts2307_world ts2307_issue) <> 12.
Proof. vm_compute. repeat split; discriminate. Qed.

(** ** Ingestion of SonarQube reports *)

Lemma for_each_inv {A B : Type} (body : A -> outcome B)
      (xs : list A) (ys : list B) :
  for_each body xs = Ok ys -> Forall2 (fun x y => body x = Ok y) xs ys.
Proof.
  revert ys. induction xs as [|x xs IH]; cbn [for_each]; intros ys H.
  - injection H as <-. constructor.
  - step_bind H. step_bind H. injection H as <-.
    constructor; [assumption | now apply IH].
Qed.

(** A receiver read with success is the severity field or its default. *)
Lemma get_receiver_severity (default s : string) (item : dict) :
  get_receiver "severity" default item = Ok s ->
  s = severity_field default (JObj item).
Proof.
  unfold get_receiver, severity_field.
  destruct (dict_get "severity" item) as [[]|]; intros H;
    try discriminate H; now injection H.
Qed.

(** What one record of the standard format is turned into. *)
Lemma standard_item_inv (self : Orchestrator.t) (v : json) (issue : Issue.t) :
  Orchestrator.sonarqube_standard_item self v = Ok issue ->
  exists item component line rule,
    v = JObj item
    /\ fmt_get "component" item = Ok component
    /\ fmt_get "line" item = Ok line
    /\ fmt_get "rule" item = Ok rule
    /\ Issue.id issue
       = "sonar-" ++ rule ++ "-" ++ Orchestrator.hash_suffix (component ++ line)
    /\ Issue.severity issue = upper (severity_field "UNKNOWN" v)
    /\ get_str "rule" "" item = Ok (Issue.rule_id issue)
    /\ get_str "component" "" item = Ok (Issue.file_path issue)
    /\ get_int "line" 0 item = Ok (Issue.line issue).
Proof.
  unfold Orchestrator.sonarqube_standard_item. intros H.
  destruct v as [| | | | | |item]; try discriminate H.
  cbn [as_dict mbind outcome_bind] in H.
  do 8 step_bind H. injection H as <-. cbn [Issue.id Issue.severity
    Issue.rule_id Issue.file_path Issue.line].
  apply get_receiver_severity in Hstep2. subst.
  exists item, a, a0, a1. repeat split; assumption.
Qed.

(** What one record is turned into by the parser script: nothing when it
    has no file path, else an object named after the position of the record
    and carrying the record's own severity. *)
Lemma record_inv (idx : nat) (v : json)
      (made : option ParseSonarqube.ErrorObj.t) :
  ParseSonarqube.record idx v = Ok made ->
  match made with
  | Some error_obj =>
      record_file v <> ""
      /\ ParseSonarqube.ErrorObj.id error_obj
         = "SQ-" ++ ParseSonarqube.pad5 idx
      /\ ParseSonarqube.ErrorObj.source error_obj = "SonarQube"
      /\ ParseSonarqube.ErrorObj.file error_obj = record_file v
      /\ ParseSonarqube.ErrorObj.severity error_obj
         = upper (severity_field "INFO" v)
  | None => record_file v = ""
  end.
Proof.
  unfold ParseSonarqube.record. intros H.
  destruct v as [| | | | | |item]; try discriminate H.
  cbn [as_dict mbind outcome_bind] in H.
  do 6 step_bind H.
  assert (Hfile : replace "WedSync:" "" a1 = record_file (JObj item)).
  { unfold get_receiver in Hstep1. unfold record_file.
    destruct (dict_get "component" item) as [[]|];
      try discriminate Hstep1; now injection Hstep1 as <-. }
  rewrite Hfile in H.
  apply get_receiver_severity in Hstep.
  destruct (String.eqb_spec (record_file (JObj item)) "") as [Hnone|Hsome];
    injection H as <-; [exact Hnone|].
  cbn [ParseSonarqube.ErrorObj.id ParseSonarqube.ErrorObj.source
       ParseSonarqube.ErrorObj.file ParseSonarqube.ErrorObj.severity].
  rewrite Hstep. repeat split; first [exact Hsome | reflexivity].
Qed.

(** The objects written are those of the records that have a file path, in
    the order of the records. *)
Lemma records_from_inv (w : World) (output_dir : string) (items : list json) :
  forall (idx : nat) (written : list ParseSonarqube.ErrorObj.t),
    ParseSonarqube.records_from w output_dir idx items = Ok written ->
    Forall2 (fun kept error_obj =>
               ParseSonarqube.ErrorObj.id error_obj
               = "SQ-" ++ ParseSonarqube.pad5 (fst kept)
               /\ ParseSonarqube.ErrorObj.source error_obj = "SonarQube"
               /\ ParseSonarqube.ErrorObj.file error_obj
                  = record_file (snd kept)
               /\ ParseSonarqube.ErrorObj.file error_obj <> ""
               /\ ParseSonarqube.ErrorObj.severity error_obj
                  = upper (severity_field "INFO" (snd kept)))
            (kept_from idx items) written.
Proof.
  induction items as [|v items IH];
    cbn [ParseSonarqube.records_from kept_from]; intros idx written H.
  - injection H as <-. constructor.
  - do 3 step_bind H. injection H as <-.
    apply record_inv in Hstep. apply IH in Hstep1.
    destruct a as [error_obj|].
    + destruct Hstep as (Hsome & Hid & Hsource & Hfile & Hsev).
      apply String.eqb_neq in Hsome as Hkept. rewrite Hkept.
      constructor; [|exact Hstep1]. cbn [fst snd].
      rewrite Hfile. repeat split; assumption.
    + rewrite Hstep, String.eqb_refl. exact Hstep1.
Qed.

Lemma for_each_total {A B : Type} (body : A -> outcome B) (xs : list A) :
  Forall (fun x => exists y, body x = Ok y) xs ->
  exists ys, for_each body xs = Ok ys.
Proof.
  induction 1 as [|x xs [y Hy] _ [ys Hys]]; cbn [for_each].
  - now exists [].
  - rewrite Hy. cbn [mbind outcome_bind]. rewrite Hys. now exists (y :: ys).
Qed.

(** A typed record is turned into an issue. *)
Lemma standard_item_total (self : Orchestrator.t) (v : json) :
  typed_record v = true ->
  exists issue, Orchestrator.sonarqube_standard_item self v = Ok issue.
Proof.
  destruct v as [| | | | | |item]; try discriminate.
  unfold typed_record. rewrite !andb_true_iff.
  intros [[[[[Hc Hl] Hs] Hr] Hm] He].
  unfold Orchestrator.sonarqube_standard_item, fmt_get, get_str, get_int,
    get_receiver.
  cbn [as_dict mbind outcome_bind].
  typed_field "component"; typed_field "line"; typed_field "severity";
    typed_field "rule"; typed_field "message";
    cbn [py_str mbind outcome_bind]; eexists; reflexivity.
Qed.

(** A typed record passes the parser script's loop, with or without an
    [error_obj]. *)
Lemma record_total (idx : nat) (v : json) :
  typed_record v = true ->
  exists made, ParseSonarqube.record idx v = Ok made.
Proof.
  destruct v as [| | | | | |item]; try discriminate.
  unfold typed_record. rewrite !andb_true_iff.
  intros [[[[[Hc Hl] Hs] Hr] Hm] He].
  unfold ParseSonarqube.record, get_str, get_int, get_receiver.
  cbn [as_dict mbind outcome_bind].
  typed_field "component"; typed_field "line"; typed_field "severity";
    typed_field "rule"; typed_field "message"; typed_field "effort";
    cbn [mbind outcome_bind];
    match goal with
    | |- context [if ?b then _ else _] => destruct b
    end; eexists; reflexivity.
Qed.

(** Where every file can be written, typed records pass the whole loop. *)
Lemma records_from_total
      (w : World) (output_dir : string) (idx : nat) (items : list json) :
  (forall p, write_file w p = Ok tt) ->
  Forall (fun v => typed_record v = true) items ->
  exists written,
    ParseSonarqube.records_from w output_dir idx items = Ok written.
Proof.
  intros Hwrite Htyped. revert idx.
  induction Htyped as [|v items Hv _ IH]; intros idx;
    cbn [ParseSonarqube.records_from].
  - now exists [].
  - destruct (record_total idx v Hv) as [made ->].
    destruct (IH (S idx)) as [later ->].
    destruct made as [error_obj|]; cbn [mbind outcome_bind];
      rewrite ?Hwrite; cbn [mbind outcome_bind]; eauto.
Qed.

(** The first writing that fails ends the loop of the parser script with
    its exception. *)
Lemma records_from_write_fails
      (w : World) (output_dir : string) (idx : nat) (v : json)
      (rest : list json) (error_obj : ParseSonarqube.ErrorObj.t) (e : exn) :
  ParseSonarqube.record idx v = Ok (Some error_obj) ->
  write_file w (ParseSonarqube.output_file output_dir error_obj) = Raise e ->
  ParseSonarqube.records_from w output_dir idx (v :: rest) = Raise e.
Proof.
  intros Hmade Hwrite. cbn [ParseSonarqube.records_from].
  rewrite Hmade. cbn [mbind outcome_bind]. now rewrite Hwrite.
Qed.

(** C5, as the code has it.  For every record of the flat issues list of a
    SonarQube-standard report the severity of the resulting issue is the
    record's severity field upper-cased; when the field is absent it is
    UNKNOWN in the orchestrator's [ingest_sonarqube], and the scorer gives
    such an issue the base score 3; it is INFO in the parser script's
    [parse_sonarqube_results], where the objects written are those of the
    records that have a file path, one for one and in their order, each
    named after the position of its record and carrying that record's
    severity.  Records whose fields have the declared types are all turned
    into issues by the orchestrator, and into statistics by the parser
    script when every file can be written; a writing that fails ends the
    parser script with its exception. *)
Theorem sonarqube_standard_severity
        (self : Orchestrator.t) (w : World) (path output_dir : string)
        (report : dict) (items : list json) :
  read_json w path = Ok (JObj report) ->
  dict_get "error_categories" report = None ->
  dict_get "issues" report = Some (JArr items) ->
  (forall issues,
      Orchestrator.ingest_sonarqube self w path = Ok issues ->
      Forall2 (fun v issue =>
                 Issue.severity issue = upper (severity_field "UNKNOWN" v))
              items issues)
  /\ (forall v, In v items ->
                match v with
                | JObj item => dict_get "severity" item = None
                | _ => True
                end ->
                upper (severity_field "UNKNOWN" v) = "UNKNOWN"
                /\ upper (severity_field "INFO" v) = "INFO")
  /\ (forall issue,
         Issue.severity issue = "UNKNOWN" ->
         Orchestrator.table_get (Issue.severity issue) 3
                                Orchestrator.severity_scores = 3
         /\ (library_complexity self issue = None ->
             Orchestrator.calculate_complexity self issue
             = Z.min (3 + path_adjustment issue + category_adjustment issue)
                     10))
  /\ (forall written stats,
         ParseSonarqube.parse_sonarqube_results w path output_dir
         = Ok (Some (written, stats)) ->
         Forall2 (fun kept error_obj =>
                    ParseSonarqube.ErrorObj.id error_obj
                    = "SQ-" ++ ParseSonarqube.pad5 (fst kept)
                    /\ ParseSonarqube.ErrorObj.severity error_obj
                       = upper (severity_field "INFO" (snd kept)))
                 (kept_from 0 items) written)
  /\ (Forall (fun v => typed_record v = true) items ->
      (exists issues, Orchestrator.ingest_sonarqube self w path = Ok issues)
      /\ (items <> [] -> path_exists w path = Ok true ->
          (forall p, write_file w p = Ok tt) ->
          exists written stats,
            ParseSonarqube.parse_sonarqube_results w path output_dir
            = Ok (Some (written, stats))))
  /\ (forall v rest error_obj e,
         items = v :: rest ->
         path_exists w path = Ok true ->
         ParseSonarqube.record 0 v = Ok (Some error_obj) ->
         write_file w (ParseSonarqube.output_file output_dir error_obj)
         = Raise e ->
         ParseSonarqube.parse_sonarqube_results w path output_dir = Raise e).
Proof.
  intros Hread Hstd Hlist.
  split; [|split; [|split; [|split; [|split]]]].
  - intros issues. unfold Orchestrator.ingest_sonarqube. rewrite Hread.
    cbn [Orchestrator.sonarqube_issues]. rewrite Hstd, Hlist.
    cbn [iterate mbind outcome_bind]. intros H.
    apply for_each_inv in H.
    eapply Forall2_impl; [exact H|].
    intros v issue Hitem. cbn beta in Hitem.
    apply standard_item_inv in Hitem as (? & ? & ? & ? & _ & _ & _ & _ & _ & Hsev & _).
    exact Hsev.
  - intros v _ Habsent. unfold severity_field.
    destruct v as [| | | | | |item]; try (split; reflexivity).
    rewrite Habsent. split; reflexivity.
  - intros issue Hunknown. split; [now rewrite Hunknown|].
    intros Hnone. rewrite calculate_complexity_unclamped.
    unfold unclamped_score, severity_base. rewrite Hnone, Hunknown.
    reflexivity.
  - intros written stats. unfold ParseSonarqube.parse_sonarqube_results.
    destruct (path_exists w path) as [[]|]; try discriminate.
    rewrite Hread. cbn [as_dict mbind outcome_bind]. rewrite Hlist.
    cbn [iterate mbind outcome_bind].
    destruct items as [|v items]; [discriminate|].
    intros H. step_bind H. injection H as <- _.
    apply records_from_inv in Hstep.
    eapply Forall2_impl; [exact Hstep|].
    intros kept error_obj (Hid & _ & _ & _ & Hsev). now split.
  - intros Htyped. split.
    + unfold Orchestrator.ingest_sonarqube. rewrite Hread.
      cbn [Orchestrator.sonarqube_issues]. rewrite Hstd, Hlist.
      cbn [iterate mbind outcome_bind]. apply for_each_total.
      eapply Forall_impl; [exact Htyped|].
      intros v Hv. now apply standard_item_total.
    + intros Hsome Hexists Hwrite.
      unfold ParseSonarqube.parse_sonarqube_results.
      rewrite Hexists, Hread. cbn [as_dict mbind outcome_bind].
      rewrite Hlist. cbn [iterate mbind outcome_bind].
      destruct items as [|v items]; [contradiction|].
      destruct (records_from_total w output_dir 0 (v :: items) Hwrite Htyped)
        as [written ->].
      cbn [mbind outcome_bind]. eauto.
  - intros v rest error_obj e -> Hexists Hmade Hwrite.
    unfold ParseSonarqube.parse_sonarqube_results.
    rewrite Hexists, Hread. cbn [as_dict mbind outcome_bind].
    rewrite Hlist. cbn [iterate mbind outcome_bind].
    now rewrite (records_from_write_fails _ _ _ _ _ _ _ Hmade Hwrite).
Qed.

Lemma sonarqube_standard_severity_witness :
  Forall2 (fun v issue =>
             Issue.severity issue = upper (severity_field "UNKNOWN" v))
          two_records [unused_issue; bare_issue]
  /\ Issue.severity unused_issue = "MAJOR"
  /\ Issue.severity bare_issue = "UNKNOWN"
  /\ Orchestrator.calculate_complexity fresh bare_issue = 3
  /\ exists written stats,
      ParseSonarqube.parse_sonarqube_results
        sonarqube_world "sonarqube-results.json" "QUEUES"
      = Ok (Some (written, stats))
      /\ map ParseSonarqube.ErrorObj.severity written = ["MAJOR"; "INFO"].
Proof.
  destruct (sonarqube_standard_severity
              fresh sonarqube_world "sonarqube-results.json" "QUEUES"
              two_record_report two_records eq_refl eq_refl eq_refl)
    as (Horch & _ & Hscore & Hparse & Htotal & _).
  split; [apply Horch; vm_compute; reflexivity|].
  split; [reflexivity|]. split; [reflexivity|].
  split.
  { destruct (Hscore bare_issue eq_refl) as [_ Hbase].
    rewrite Hbase; [reflexivity | vm_compute; reflexivity]. }
  destruct Htotal as [_ Hrun].
  { repeat constructor. }
  destruct Hrun as (written & stats & Hrun);
    [discriminate | reflexivity | reflexivity |].
  exists written, stats. split; [exact Hrun|].
  apply Hparse in Hrun. cbn [kept_from] in Hrun.
  revert Hrun. vm_compute kept_from. intros Hrun.
  inversion Hrun as [|k1 e1 ks es [_ Hs1] Hrest]; subst.
  inversion Hrest as [|k2 e2 ks2 es2 [_ Hs2] Hnil]; subst.
  inversion Hnil; subst. cbn [map]. rewrite Hs1, Hs2. reflexivity.
Defined.

(** C5 as stated fails in the orchestrator: a record without a severity
    field gives an issue of severity UNKNOWN, not INFO. *)
Lemma sonarqube_absent_severity_unknown :
  Orchestrator.ingest_sonarqube fresh sonarqube_world "sonarqube-results.json"
  = Ok [unused_issue; bare_issue]
  /\ dict_get "severity" bare_record = None
  /\ Issue.severity bare_issue = "UNKNOWN"
  /\ Issue.severity bare_issue <> "INFO".
Proof. vm_compute. repeat split; discriminate. Qed.

(** ** Reports that cannot be read *)

(** [ingest_sonarqube] skips a report that is not JSON or cannot be
    decoded. *)
Lemma sonarqube_skips_unreadable
      (self : Orchestrator.t) (w : World) (path : string) :
  read_json w path = Raise JSONDecodeError
  \/ read_json w path = Raise UnicodeDecodeError ->
  Orchestrator.ingest_sonarqube self w path = Ok [].
Proof.
  unfold Orchestrator.ingest_sonarqube. now intros [-> | ->].
Qed.

(** [ingest_coderabbit] has no handler: what the reading raises leaves it. *)
Lemma coderabbit_propagates
      (self : Orchestrator.t) (w : World) (path : string) (e : exn) :
  read_json w path = Raise e ->
  Orchestrator.ingest_coderabbit self w path = Raise e.
Proof. unfold Orchestrator.ingest_coderabbit. now intros ->. Qed.

(** Neither has [ingest_typescript]. *)
Lemma typescript_propagates
      (self : Orchestrator.t) (w : World) (path : string) (e : exn) :
  read_lines w path = Raise e ->
  Orchestrator.ingest_typescript self w path = Raise e.
Proof. unfold Orchestrator.ingest_typescript. now intros ->. Qed.

(** C6 at its failing inputs.  A SonarQube report that is not JSON is
    skipped and the run goes on to the next report, as the claim says.  A
    CodeRabbit report that is not JSON, or a compiler output that cannot be
    decoded, ends the whole run with the exception: no job is written, not
    even for the well-formed SonarQube report of the same run. *)
Theorem unreadable_report_runs :
  jobs_written (Main.main mixed_world (fun _ => mixed_world) args_everything)
  = Ok [ "JOB-QUEUES/DEEP-JOBS/new-patterns/job-sonar-S1172-d15d23a5.json";
         "JOB-QUEUES/SPEED-JOBS/pattern-general/job-sonar-S1172-d15d23a5.json" ]
  /\ Orchestrator.ingest_coderabbit fresh mixed_world "coderabbit-report.json"
     = Raise JSONDecodeError
  /\ Main.main mixed_world (fun _ => mixed_world) args_with_coderabbit
     = Raise JSONDecodeError
  /\ Orchestrator.ingest_typescript fresh mixed_world "typescript-errors.txt"
     = Raise UnicodeDecodeError
  /\ Main.main mixed_world (fun _ => mixed_world) args_with_typescript
     = Raise UnicodeDecodeError.
Proof. vm_compute. repeat split; reflexivity. Qed.

(** ** Determinism *)

(** The scorer reads the orchestrator through its pattern library only. *)
Lemma calculate_complexity_patterns
      (self other : Orchestrator.t) (issue : Issue.t) :
  Orchestrator.patterns self = Orchestrator.patterns other ->
  Orchestrator.calculate_complexity self issue
  = Orchestrator.calculate_complexity other issue.
Proof.
  intros Hlib. unfold Orchestrator.calculate_complexity. now rewrite Hlib.
Qed.

(** The scorer reads the issue through four of its fields only. *)
Lemma calculate_complexity_fields
      (self : Orchestrator.t) (issue other : Issue.t) :
  Issue.severity issue = Issue.severity other ->
  Issue.rule_id issue = Issue.rule_id other ->
  Issue.file_path issue = Issue.file_path other ->
  Issue.category issue = Issue.category other ->
  Orchestrator.calculate_complexity self issue
  = Orchestrator.calculate_complexity self other.
Proof.
  intros Hsev Hrule Hpath Hcat. unfold Orchestrator.calculate_complexity.
  now rewrite Hsev, Hrule, Hpath, Hcat.
Qed.

Lemma save_job_patterns
      (self : Orchestrator.t) (w : World) (job : Job.t)
      (saved : string * Orchestrator.t) :
  Orchestrator.save_job self w job = Ok saved ->
  Orchestrator.patterns (snd saved) = Orchestrator.patterns self.
Proof.
  unfold Orchestrator.save_job. intros H. step_bind H.
  destruct (Orchestrator.stats self !! _); [|discriminate H].
  now injection H as <-.
Qed.

Lemma process_from_patterns
      (worlds : nat -> World) (issues : list Issue.t) (k : nat)
      (self : Orchestrator.t) (done : list (string * Job.t) * Orchestrator.t) :
  Orchestrator.process_from worlds k self issues = Ok done ->
  Orchestrator.patterns (snd done) = Orchestrator.patterns self.
Proof.
  revert k self done.
  induction issues as [|issue issues IH]; cbn [Orchestrator.process_from];
    intros k self done H.
  - now injection H as <-.
  - step_bind H. step_bind H. injection H as <-. cbn [snd].
    rewrite (IH _ _ _ Hstep0). now apply save_job_patterns in Hstep.
Qed.

(** Routing and saving a batch of issues leaves the pattern library as it
    was. *)
Lemma process_issues_patterns
      (worlds : nat -> World) (issues : list Issue.t)
      (self : Orchestrator.t) (done : list (string * Job.t) * Orchestrator.t) :
  Orchestrator.process_issues worlds self issues = Ok done ->
  Orchestrator.patterns (snd done) = Orchestrator.patterns self.
Proof.
  unfold Orchestrator.process_issues. intros H. step_bind H.
  injection H as <-. cbn [snd Orchestrator.patterns].
  now apply process_from_patterns in Hstep.
Qed.

(** The id of an issue of the standard format is a hash of the record's
    component, line and rule, and of nothing else. *)
Lemma standard_item_id
      (self other : Orchestrator.t) (a b : dict) (issue issue' : Issue.t) :
  Orchestrator.sonarqube_standard_item self (JObj a) = Ok issue ->
  Orchestrator.sonarqube_standard_item other (JObj b) = Ok issue' ->
  dict_get "component" a = dict_get "component" b ->
  dict_get "line" a = dict_get "line" b ->
  dict_get "rule" a = dict_get "rule" b ->
  Issue.id issue = Issue.id issue'.
Proof.
  intros Ha Hb Hcomponent Hline Hrule.
  apply standard_item_inv in Ha
    as (a' & c & l & r & Heq & Hc & Hl & Hr & Hid & _).
  apply standard_item_inv in Hb
    as (b' & c' & l' & r' & Heq' & Hc' & Hl' & Hr' & Hid' & _).
  injection Heq as <-. injection Heq' as <-.
  unfold fmt_get in Hc, Hl, Hr, Hc', Hl', Hr'.
  rewrite Hcomponent in Hc. rewrite Hline in Hl. rewrite Hrule in Hr.
  rewrite Hc in Hc'. rewrite Hl in Hl'. rewrite Hr in Hr'.
  injection Hc' as ->. injection Hl' as ->. injection Hr' as ->.
  now rewrite Hid, Hid'.
Qed.

(** C9. Scoring and normalisation are deterministic.  Two calls of the
    scorer on the same issue return the same integer, whatever the stats of
    the orchestrator are at each call, provided the pattern library is the
    same; a batch routed and saved between the two calls changes nothing.
    Two ingestions of the same SonarQube report content return the same
    issues, whatever the orchestrator, the path, the clock and the rest of
    the surroundings are: the same (file_path, line, rule_id, severity)
    tuples in the same order, and the same ids. *)
Theorem scoring_and_ingestion_deterministic
        (self other : Orchestrator.t) (w w' : World) (path path' : string)
        (issue : Issue.t) :
  Orchestrator.patterns self = Orchestrator.patterns other ->
  read_json w path = read_json w' path' ->
  Orchestrator.calculate_complexity self issue
  = Orchestrator.calculate_complexity other issue
  /\ (forall worlds issues done,
         Orchestrator.process_issues worlds self issues = Ok done ->
         Orchestrator.calculate_complexity (snd done) issue
         = Orchestrator.calculate_complexity self issue)
  /\ Orchestrator.ingest_sonarqube self w path
     = Orchestrator.ingest_sonarqube other w' path'
  /\ (forall first second,
         Orchestrator.ingest_sonarqube self w path = Ok first ->
         Orchestrator.ingest_sonarqube other w' path' = Ok second ->
         map identity first = map identity second
         /\ map Issue.id first = map Issue.id second).
Proof.
  intros Hlib Hread.
  assert (Hsame : Orchestrator.ingest_sonarqube self w path
                  = Orchestrator.ingest_sonarqube other w' path').
  { unfold Orchestrator.ingest_sonarqube. now rewrite Hread. }
  split; [now apply calculate_complexity_patterns|].
  split.
  { intros worlds issues done Hdone.
    apply calculate_complexity_patterns.
    now apply process_issues_patterns in Hdone. }
  split; [exact Hsame|].
  intros first second Hfirst Hsecond.
  rewrite Hsame, Hsecond in Hfirst. injection Hfirst as ->. now split.
Qed.

Lemma scoring_and_ingestion_deterministic_witness :
  Orchestrator.calculate_complexity fresh unused_issue
  = Orchestrator.calculate_complexity busy unused_issue
  /\ Orchestrator.ingest_sonarqube fresh sonarqube_world "sonarqube-results.json"
     = Orchestrator.ingest_sonarqube busy later_world
                                     "archive/sonarqube-results.json".
Proof.
  destruct (scoring_and_ingestion_deterministic
              fresh busy sonarqube_world later_world
              "sonarqube-results.json" "archive/sonarqube-results.json"
              unused_issue eq_refl eq_refl)
    as (Hscore & _ & Hingest & _).
  split; [exact Hscore | exact Hingest].
Defined.

(** * Further properties of the code *)

(** ** Scores and jobs *)

Lemma adjustments_range (issue : Issue.t) :
  In (path_adjustment issue) [0; 3] /\ In (category_adjustment issue) [0; 2; 4].
Proof.
  unfold path_adjustment, category_adjustment.
  destruct (sensitive_path issue);
    destruct (String.eqb (Issue.category issue) "security");
    destruct (String.eqb (Issue.category issue) "performance");
    cbn [In]; auto 10.
Qed.


(** Under the default library the library value is 3 or absent. *)
Lemma default_library_complexity (self : Orchestrator.t) (issue : Issue.t) :
  Orchestrator.patterns self = Orchestrator.default_patterns ->
  library_complexity self issue = None \/ library_complexity self issue = Some 3.
Proof.
  intros Hdefault. unfold library_complexity. rewrite Hdefault.
  destruct (Orchestrator.default_patterns !! _) as [entry|] eqn:Hentry;
    cbn [mbind option_bind]; [right | now left].
  now apply default_patterns_reachable in Hentry as [_ ->].
Qed.





(** ** Queues *)

Lemma first_fragment_names (rule_id : string) :
  In (Orchestrator.first_fragment rule_id Orchestrator.rule_patterns)
     [ "pattern-single-return"; "pattern-switch-cases"; "pattern-async-await";
       "pattern-import-fixes"; "pattern-type-assertions"; "pattern-general" ].
Proof.
  unfold Orchestrator.rule_patterns. cbn [Orchestrator.first_fragment].
  repeat match goal with
         | |- context [if ?b then _ else _] => destruct b
         end; cbn [In]; auto 10.
Qed.

(** X3. The job the router makes is always saved in one of ten queue
    directories: a SPEED pattern directory, one of three DEEP directories,
    or the SKIP directory.  It is never saved in FAILED-ROUTING nor in
    DEEP-JOBS/performance-critical, two directories [setup_directories]
    makes; every other queue is one [setup_directories] made, except
    SPEED-JOBS/pattern-general. *)
Theorem routed_queue_known (self : Orchestrator.t) (w : World) (issue : Issue.t) :
  let queue := Orchestrator.queue_dir (Orchestrator.route_issue self w issue) in
  In queue routed_queues
  /\ queue <> "JOB-QUEUES/FAILED-ROUTING"
  /\ queue <> "JOB-QUEUES/DEEP-JOBS/performance-critical"
  /\ (In queue Orchestrator.setup_directories
      \/ queue = "JOB-QUEUES/SPEED-JOBS/pattern-general").
Proof.
  cbn zeta.
  assert (Hin : In (Orchestrator.queue_dir (Orchestrator.route_issue self w issue))
                   routed_queues).
  { unfold Orchestrator.route_issue.
    destruct (Orchestrator.check_already_resolved self w issue);
      [cbn; auto 12|].
    destruct (Orchestrator.calculate_complexity self issue <=? 3).
    - unfold Orchestrator.queue_dir, Orchestrator.get_pattern_name.
      cbn [Job.job_type Job.pattern String.eqb Ascii.eqb Bool.eqb].
      pose proof (first_fragment_names (Issue.rule_id issue)) as Hname.
      cbn [In] in Hname.
      destruct Hname as [<-|[<-|[<-|[<-|[<-|[<-|[]]]]]]]; cbn; auto 12.
    - unfold Orchestrator.queue_dir.
      cbn [Job.job_type Job.issue Job.complexity_score String.eqb Ascii.eqb
           Bool.eqb].
      destruct (String.eqb (Issue.category issue) "security");
        [cbn; auto 12|].
      destruct (8 <=? Orchestrator.calculate_complexity self issue);
        cbn; auto 12. }
  split; [exact Hin|].
  unfold routed_queues in Hin. cbn [In] in Hin.
  repeat (destruct Hin as [<-|Hin];
          [repeat split; try discriminate; cbn; auto 20|]).
  contradiction.
Qed.

(** X4. For a DEEP job the queue follows the category and the score, not
    the agents: it is security-sensitive exactly for category security (and
    then the security officer is required); it is architecture-changes
    exactly for another category with a score of 8 or more (and then the
    architecture reviewer is required); a job in new-patterns never requires
    the architecture reviewer. *)
Theorem deep_queue_agents (self : Orchestrator.t) (w : World) (issue : Issue.t) :
  let job := Orchestrator.route_issue self w issue in
  Job.job_type job = "DEEP" ->
  (Orchestrator.queue_dir job = "JOB-QUEUES/DEEP-JOBS/security-sensitive"
   <-> Issue.category issue = "security")
  /\ (Orchestrator.queue_dir job = "JOB-QUEUES/DEEP-JOBS/architecture-changes"
      <-> Issue.category issue <> "security" /\ 8 <= Job.complexity_score job)
  /\ (Orchestrator.queue_dir job = "JOB-QUEUES/DEEP-JOBS/security-sensitive" ->
      In "security-officer" (Job.requires_agents job))
  /\ (Orchestrator.queue_dir job = "JOB-QUEUES/DEEP-JOBS/architecture-changes" ->
      In "architecture-reviewer" (Job.requires_agents job))
  /\ (Orchestrator.queue_dir job = "JOB-QUEUES/DEEP-JOBS/new-patterns" ->
      ~ In "architecture-reviewer" (Job.requires_agents job)).
Proof.
  cbn zeta. intros Hdeep. rewrite (deep_agents _ _ _ Hdeep).
  assert (Hscore : Job.complexity_score (Orchestrator.route_issue self w issue)
                   = Orchestrator.calculate_complexity self issue).
  { destruct (route_issue_type self w issue) as [[H _]|[[H _]|(_ & Hopen & _)]];
      try congruence.
    now apply route_issue_score. }
  assert (Hcat : Issue.category (Job.issue (Orchestrator.route_issue self w issue))
                 = Issue.category issue).
  { unfold Orchestrator.route_issue.
    destruct (Orchestrator.check_already_resolved self w issue); [reflexivity|].
    now destruct (Orchestrator.calculate_complexity self issue <=? 3). }
  unfold Orchestrator.queue_dir. rewrite Hdeep, Hscore, Hcat.
  cbn [String.eqb Ascii.eqb Bool.eqb].
  destruct (String.eqb_spec (Issue.category issue) "security") as [Hsec|Hsec];
    destruct (Z.leb_spec 8 (Orchestrator.calculate_complexity self issue));
    cbn [orb app In];
    repeat split; try (intros; discriminate); try tauto; try lia;
    try (intros [? ?]; try contradiction; lia);
    try (destruct (contains "auth" _); cbn [app In];
         intuition (discriminate || lia)).
Qed.

Lemma deep_queue_agents_witness :
  Orchestrator.queue_dir
    (Orchestrator.route_issue fresh quiet_world
       (sample_issue "CRITICAL" "S4502" "src/api/auth/pay.ts" "security"))
  = "JOB-QUEUES/DEEP-JOBS/security-sensitive".
Proof.
  apply (proj1 (deep_queue_agents fresh quiet_world
                  (sample_issue "CRITICAL" "S4502" "src/api/auth/pay.ts" "security")
                  eq_refl)).
  reflexivity.
Defined.

(** ** Processing a batch *)

(** The router reads the orchestrator through its pattern library only. *)
Lemma route_issue_patterns
      (self other : Orchestrator.t) (w : World) (issue : Issue.t) :
  Orchestrator.patterns self = Orchestrator.patterns other ->
  Orchestrator.route_issue self w issue = Orchestrator.route_issue other w issue.
Proof.
  intros Hlib.
  unfold Orchestrator.route_issue, Orchestrator.check_already_resolved,
    Orchestrator.find_similar_fixes, Orchestrator.get_pattern_name.
  rewrite (calculate_complexity_patterns self other issue Hlib). reflexivity.
Qed.

Lemma routed_patterns
      (self other : Orchestrator.t) (worlds : nat -> World) (k : nat)
      (issue : Issue.t) :
  Orchestrator.patterns self = Orchestrator.patterns other ->
  routed self worlds k issue = routed other worlds k issue.
Proof.
  intros Hlib. unfold routed.
  now rewrite (route_issue_patterns self other (worlds k) issue Hlib).
Qed.

Lemma save_job_counter
      (self : Orchestrator.t) (w : World) (job : Job.t) (n : Z) :
  write_file w (job_file job) = Ok tt ->
  Orchestrator.stats self !! (lower (Job.job_type job) ++ "_jobs") = Some n ->
  Orchestrator.save_job self w job
  = Ok (job_file job,
        Orchestrator.mk
          (Orchestrator.patterns self)
          (<[lower (Job.job_type job) ++ "_jobs" := n + 1]>
             (Orchestrator.stats self))).
Proof.
  unfold Orchestrator.save_job, job_file. intros -> ->. reflexivity.
Qed.

(** What the writing raises leaves [save_job]. *)
Lemma save_job_write_fails
      (self : Orchestrator.t) (w : World) (job : Job.t) (e : exn) :
  write_file w (job_file job) = Raise e ->
  Orchestrator.save_job self w job = Raise e.
Proof. unfold Orchestrator.save_job, job_file. now intros ->. Qed.

Lemma count_type_cons (job_type : string) (fj : string * Job.t)
      (written : list (string * Job.t)) :
  count_type job_type (fj :: written)
  = (if String.eqb (Job.job_type (snd fj)) job_type then 1 else 0)
    + count_type job_type written.
Proof.
  unfold count_type. rewrite filter_cons.
  destruct (String.eqb_spec (Job.job_type (snd fj)) job_type) as [Heq|Hne].
  - rewrite decide_True by exact Heq. cbn [length]. lia.
  - rewrite decide_False by exact Hne. lia.
Qed.

Lemma process_from_accounting (worlds : nat -> World) (issues : list Issue.t) :
  forall (k : nat) (self : Orchestrator.t) (a b c : Z),
    Orchestrator.stats self !! "speed_jobs" = Some a ->
    Orchestrator.stats self !! "deep_jobs" = Some b ->
    Orchestrator.stats self !! "skip_jobs" = Some c ->
    (forall j issue,
        issues !! j = Some issue ->
        write_file (worlds (k + j)%nat)
                   (fst (routed self worlds (k + j) issue)) = Ok tt) ->
    exists written self',
      Orchestrator.process_from worlds k self issues = Ok (written, self')
      /\ written = imap (fun j => routed self worlds (k + j)) issues
      /\ map (fun fj => Job.issue (snd fj)) written = issues
      /\ Orchestrator.stats self' !! "speed_jobs"
         = Some (a + count_type "SPEED" written)
      /\ Orchestrator.stats self' !! "deep_jobs"
         = Some (b + count_type "DEEP" written)
      /\ Orchestrator.stats self' !! "skip_jobs"
         = Some (c + count_type "SKIP" written)
      /\ count_type "SPEED" written + count_type "DEEP" written
         + count_type "SKIP" written = Z.of_nat (length issues)
      /\ (forall key, key <> "speed_jobs" -> key <> "deep_jobs" ->
                      key <> "skip_jobs" ->
                      Orchestrator.stats self' !! key
                      = Orchestrator.stats self !! key).
Proof.
  induction issues as [|issue issues IH]; intros k self a b c Ha Hb Hc Hwrite;
    cbn [Orchestrator.process_from].
  - exists [], self. cbn. rewrite !Z.add_0_r. repeat split; auto.
  - set (job := Orchestrator.route_issue self (worlds k) issue).
    assert (Hissue : Job.issue job = issue).
    { subst job. unfold Orchestrator.route_issue.
      destruct (Orchestrator.check_already_resolved _ _ _); [reflexivity|].
      now destruct (Orchestrator.calculate_complexity self issue <=? 3). }
    assert (Hw0 : write_file (worlds k) (job_file job) = Ok tt).
    { specialize (Hwrite 0%nat issue eq_refl).
      rewrite Nat.add_0_r in Hwrite. exact Hwrite. }
    assert (Hlater : forall stats' j issue',
               issues !! j = Some issue' ->
               write_file (worlds (S k + j)%nat)
                 (fst (routed (Orchestrator.mk (Orchestrator.patterns self)
                                               stats')
                              worlds (S k + j) issue')) = Ok tt).
    { intros stats' j issue' Hj. specialize (Hwrite (S j) issue' Hj).
      rewrite Nat.add_succ_r in Hwrite.
      now rewrite (routed_patterns _ self). }
    assert (Himap : forall stats',
               (job_file job, job)
               :: imap (fun j =>
                          routed (Orchestrator.mk (Orchestrator.patterns self)
                                                  stats')
                                 worlds (S k + j)) issues
               = imap (fun j => routed self worlds (k + j)) (issue :: issues)).
    { intros stats'. rewrite imap_cons. f_equal.
      - unfold routed. now rewrite Nat.add_0_r.
      - apply imap_ext. intros j issue' _. cbn [compose].
        rewrite Nat.add_succ_r. now apply routed_patterns. }
    destruct (route_issue_type self (worlds k) issue)
      as [[Htype _]|[[Htype _]|[Htype _]]]; fold job in Htype.
    + assert (Hsave : Orchestrator.stats self
                        !! (lower (Job.job_type job) ++ "_jobs") = Some c)
        by now rewrite Htype.
      rewrite (save_job_counter _ _ _ _ Hw0 Hsave).
      cbn [mbind outcome_bind snd fst].
      rewrite Htype. change (lower "SKIP" ++ "_jobs") with "skip_jobs".
      edestruct (IH (S k)
                    (Orchestrator.mk (Orchestrator.patterns self)
                       (<["skip_jobs" := c + 1]> (Orchestrator.stats self)))
                    a b (c + 1))
        as (written & self' & -> & Hwritten & Hmap & Hs & Hd & Hk & Hsum
            & Hother);
        cbn [Orchestrator.stats].
      { now rewrite lookup_insert_ne. }
      { now rewrite lookup_insert_ne. }
      { now rewrite lookup_insert_eq. }
      { apply Hlater. }
      cbn [mbind outcome_bind snd fst]. eexists _, self'.
      split; [reflexivity|].
      split; [rewrite Hwritten; apply Himap|].
      rewrite !count_type_cons. cbn [snd].
      rewrite Htype. cbn [String.eqb Ascii.eqb Bool.eqb].
      cbn [map snd]. rewrite Hissue, Hmap, Hs, Hd, Hk.
      repeat split; try (f_equal; lia).
      * cbn [length]. lia.
      * intros key H1 H2 H3. rewrite (Hother key H1 H2 H3).
        cbn [Orchestrator.stats]. now rewrite lookup_insert_ne.
    + assert (Hsave : Orchestrator.stats self
                        !! (lower (Job.job_type job) ++ "_jobs") = Some a)
        by now rewrite Htype.
      rewrite (save_job_counter _ _ _ _ Hw0 Hsave).
      cbn [mbind outcome_bind snd fst].
      rewrite Htype. change (lower "SPEED" ++ "_jobs") with "speed_jobs".
      edestruct (IH (S k)
                    (Orchestrator.mk (Orchestrator.patterns self)
                       (<["speed_jobs" := a + 1]> (Orchestrator.stats self)))
                    (a + 1) b c)
        as (written & self' & -> & Hwritten & Hmap & Hs & Hd & Hk & Hsum
            & Hother);
        cbn [Orchestrator.stats].
      { now rewrite lookup_insert_eq. }
      { now rewrite lookup_insert_ne. }
      { now rewrite lookup_insert_ne. }
      { apply Hlater. }
      cbn [mbind outcome_bind snd fst]. eexists _, self'.
      split; [reflexivity|].
      split; [rewrite Hwritten; apply Himap|].
      rewrite !count_type_cons. cbn [snd].
      rewrite Htype. cbn [String.eqb Ascii.eqb Bool.eqb].
      cbn [map snd]. rewrite Hissue, Hmap, Hs, Hd, Hk.
      repeat split; try (f_equal; lia).
      * cbn [length]. lia.
      * intros key H1 H2 H3. rewrite (Hother key H1 H2 H3).
        cbn [Orchestrator.stats]. now rewrite lookup_insert_ne.
    + assert (Hsave : Orchestrator.stats self
                        !! (lower (Job.job_type job) ++ "_jobs") = Some b)
        by now rewrite Htype.
      rewrite (save_job_counter _ _ _ _ Hw0 Hsave).
      cbn [mbind outcome_bind snd fst].
      rewrite Htype. change (lower "DEEP" ++ "_jobs") with "deep_jobs".
      edestruct (IH (S k)
                    (Orchestrator.mk (Orchestrator.patterns self)
                       (<["deep_jobs" := b + 1]> (Orchestrator.stats self)))
                    a (b + 1) c)
        as (written & self' & -> & Hwritten & Hmap & Hs & Hd & Hk & Hsum
            & Hother);
        cbn [Orchestrator.stats].
      { now rewrite lookup_insert_ne. }
      { now rewrite lookup_insert_eq. }
      { now rewrite lookup_insert_ne. }
      { apply Hlater. }
      cbn [mbind outcome_bind snd fst]. eexists _, self'.
      split; [reflexivity|].
      split; [rewrite Hwritten; apply Himap|].
      rewrite !count_type_cons. cbn [snd].
      rewrite Htype. cbn [String.eqb Ascii.eqb Bool.eqb].
      cbn [map snd]. rewrite Hissue, Hmap, Hs, Hd, Hk.
      repeat split; try (f_equal; lia).
      * cbn [length]. lia.
      * intros key H1 H2 H3. rewrite (Hother key H1 H2 H3).
        cbn [Orchestrator.stats]. now rewrite lookup_insert_ne.
Qed.

(** A batch is processed as its first part, then its second part from the
    index and the orchestrator the first part leaves. *)
Lemma process_from_app
      (worlds : nat -> World) (first second : list Issue.t) :
  forall (k : nat) (self : Orchestrator.t),
    Orchestrator.process_from worlds k self (first ++ second)%list
    = (done ← Orchestrator.process_from worlds k self first;
       later ← Orchestrator.process_from worlds (k + length first)%nat
                                         (snd done) second;
       Ok ((fst done ++ fst later)%list, snd later)).
Proof.
  induction first as [|issue first IH]; intros k self;
    cbn [app Orchestrator.process_from length mbind outcome_bind fst snd].
  - rewrite Nat.add_0_r.
    now destruct (Orchestrator.process_from worlds k self second) as [[? ?]|].
  - destruct (Orchestrator.save_job self (worlds k) _) as [saved|];
      cbn [mbind outcome_bind]; [|reflexivity].
    rewrite IH, Nat.add_succ_r.
    destruct (Orchestrator.process_from worlds (S k) (snd saved) first)
      as [done|]; cbn [mbind outcome_bind fst snd]; [|reflexivity].
    now destruct (Orchestrator.process_from worlds _ (snd done) second).
Qed.

(** The first writing that fails ends the batch with its exception. *)
Lemma process_from_write_fails
      (worlds : nat -> World) (self : Orchestrator.t)
      (before : list Issue.t) (issue : Issue.t) (after : list Issue.t)
      (a b c : Z) (e : exn) :
  Orchestrator.stats self !! "speed_jobs" = Some a ->
  Orchestrator.stats self !! "deep_jobs" = Some b ->
  Orchestrator.stats self !! "skip_jobs" = Some c ->
  (forall j earlier,
      before !! j = Some earlier ->
      write_file (worlds j) (fst (routed self worlds j earlier)) = Ok tt) ->
  write_file (worlds (length before))
             (fst (routed self worlds (length before) issue)) = Raise e ->
  Orchestrator.process_from worlds 0 self (before ++ issue :: after)%list
  = Raise e.
Proof.
  intros Ha Hb Hc Hwrite Hfail. rewrite process_from_app.
  destruct (process_from_accounting worlds before 0 self a b c Ha Hb Hc Hwrite)
    as (written & mid & Hrun & _).
  rewrite Hrun. cbn [mbind outcome_bind fst snd Nat.add].
  apply process_from_patterns in Hrun as Hlib. cbn [snd] in Hlib.
  cbn [Orchestrator.process_from].
  rewrite (route_issue_patterns mid self _ issue Hlib).
  unfold routed in Hfail. cbn [fst] in Hfail.
  now rewrite (save_job_write_fails _ _ _ _ Hfail).
Qed.

(** ** The already-resolved check *)

Lemma status_match (s : string) (X : bool) :
  match s with
  | "NEW" => false
  | _ => X
  end = if String.eqb s "NEW" then false else X.
Proof.
  destruct (String.eqb_spec s "NEW") as [->|Hne]; [reflexivity|].
  destruct s as [|[[] [] [] [] [] [] [] []] s]; try reflexivity.
  destruct s as [|[[] [] [] [] [] [] [] []] s]; try reflexivity.
  destruct s as [|[[] [] [] [] [] [] [] []] s]; try reflexivity.
  destruct s; [contradiction | reflexivity].
Qed.

Lemma check_already_resolved_spec
      (self : Orchestrator.t) (w : World) (issue : Issue.t) :
  Orchestrator.check_already_resolved self w issue = true
  <-> marked_new issue = false
      /\ (path_exists w (Issue.file_path issue) = Ok false
          \/ (path_exists w (Issue.file_path issue) = Ok true
              /\ exists out,
                  git_blame w (Issue.line issue) (Issue.file_path issue)
                  = Ok (0, out)
                  /\ contains "b0b8db54" (strip out) = true)).
Proof.
  unfold Orchestrator.check_already_resolved, marked_new.
  destruct (dict_get "status" (Issue.raw_data issue)) as [v|].
  - destruct v; try rewrite status_match;
      try destruct (String.eqb s "NEW");
      (destruct (path_exists w (Issue.file_path issue)) as [[]|];
       [destruct (git_blame w (Issue.line issue) (Issue.file_path issue))
          as [[rc out]|];
        [destruct (Z.eqb_spec rc 0) as [->|Hrc]; cbn [negb];
         [destruct (contains "b0b8db54" (strip out)) eqn:Hmark|]|]| |]);
      split; try discriminate; try tauto;
      try (intros [_ [H|[H1 (o & H2 & H3)]]]; congruence);
      try (intros [? _]; discriminate);
      intros _; split; try reflexivity; right; split; eauto.
  - destruct (path_exists w (Issue.file_path issue)) as [[]|];
      [destruct (git_blame w (Issue.line issue) (Issue.file_path issue))
         as [[rc out]|];
       [destruct (Z.eqb_spec rc 0) as [->|Hrc]; cbn [negb];
        [destruct (contains "b0b8db54" (strip out)) eqn:Hmark|]|]| |];
      split; try discriminate; try tauto;
      try (intros [_ [H|[H1 (o & H2 & H3)]]]; congruence);
      intros _; split; try reflexivity; right; split; eauto.
Qed.

(** X6. A job is SKIP exactly when the issue's record is not marked NEW and
    either its file does not exist, or the file exists and [git blame] on
    its line succeeds and shows the commit b0b8db54.  So an issue marked
    NEW is never skipped, and no failure of the file system or of git makes
    an issue count as resolved. *)
Theorem skip_exactly_when (self : Orchestrator.t) (w : World) (issue : Issue.t) :
  Job.job_type (Orchestrator.route_issue self w issue) = "SKIP"
  <-> marked_new issue = false
      /\ (path_exists w (Issue.file_path issue) = Ok false
          \/ (path_exists w (Issue.file_path issue) = Ok true
              /\ exists out,
                  git_blame w (Issue.line issue) (Issue.file_path issue)
                  = Ok (0, out)
                  /\ contains "b0b8db54" (strip out) = true)).
Proof.
  rewrite <- (check_already_resolved_spec self).
  destruct (route_issue_type self w issue)
    as [[Htype Hdone]|[(Htype & Hopen & _)|(Htype & Hopen & _)]];
    rewrite Htype; split; intros H; try discriminate H; congruence.
Qed.

(** ** Similar fixes *)

Lemma until_space_clean (s : string) : has_space (until_space s) = false.
Proof.
  induction s as [|c s IH]; cbn [until_space]; [reflexivity|].
  destruct (is_space c) eqn:Hc; [reflexivity|].
  cbn [has_space]. now rewrite Hc, IH.
Qed.

Lemma lstrip_head (s : string) (c : ascii) (r : string) :
  lstrip s = String c r -> is_space c = false.
Proof.
  induction s as [|d s IH]; cbn [lstrip]; [discriminate|].
  destruct (is_space d) eqn:Hd; [exact IH|].
  intros H. injection H as <- _. exact Hd.
Qed.

Lemma first_word_clean (s word : string) :
  first_word s = Some word -> word <> "" /\ has_space word = false.
Proof.
  unfold first_word. destruct (lstrip s) as [|c r] eqn:Hs; [discriminate|].
  intros H. injection H as <-.
  apply lstrip_head in Hs. cbn [until_space]. rewrite Hs.
  split; [discriminate|]. cbn [has_space]. rewrite Hs. apply until_space_clean.
Qed.

(** X7. The similar fixes of an issue are the first words of the non-empty
    lines [git log] printed, all of them or none.  When the subprocess
    returns code 0 and every such line holds a character that is not white
    space, the list holds the first word of each line, one per line and in
    their order; when one of the lines is white space only the list is
    empty (the IndexError is swallowed), as it is when the subprocess raises
    or returns another code.  Every element is non-empty and free of white
    space. *)
Theorem similar_fixes_clean (self : Orchestrator.t) (w : World) (issue : Issue.t) :
  let fixes := Orchestrator.find_similar_fixes self w issue in
  Forall (fun h => h <> "" /\ has_space h = false) fixes
  /\ (forall e, git_log w (Issue.rule_id issue) = Raise e -> fixes = [])
  /\ (forall returncode out,
         git_log w (Issue.rule_id issue) = Ok (returncode, out) ->
         returncode <> 0 -> fixes = [])
  /\ (forall out,
         git_log w (Issue.rule_id issue) = Ok (0, out) ->
         let lines :=
           filter (fun l => l <> "") (split newline (strip out)) in
         (Forall (fun l => lstrip l <> "") lines ->
          Forall2 (fun l h => first_word l = Some h) lines fixes)
         /\ (Exists (fun l => lstrip l = "") lines -> fixes = [])).
Proof.
  cbn zeta. unfold Orchestrator.find_similar_fixes.
  fold newline.
  destruct (git_log w (Issue.rule_id issue)) as [[rc out]|e].
  - destruct (Z.eqb_spec rc 0) as [->|Hrc].
    + destruct (mapM first_word _) as [firsts|] eqn:Hfirsts.
      * apply mapM_Some_1 in Hfirsts. split; [|split; [|split]].
        -- clear -Hfirsts. induction Hfirsts as [|l h ls hs Hh _ IH];
             constructor; [now apply (first_word_clean l) | exact IH].
        -- discriminate.
        -- intros ? ? H. injection H as <- <-. contradiction.
        -- intros ? H. injection H as <-. split; [intros _; exact Hfirsts|].
           intros Hblank. exfalso. clear -Hfirsts Hblank.
           induction Hfirsts as [|l h ls hs Hh _ IH];
             inversion Hblank as [? ? Hl|? ? Hls]; subst; [|now apply IH].
           unfold first_word in Hh. rewrite Hl in Hh. discriminate Hh.
      * split; [constructor|]. split; [discriminate|].
        split; [reflexivity|].
        intros ? H. injection H as <-. split; [|reflexivity].
        intros Hall. exfalso.
        assert (Hsome : is_Some
                          (mapM first_word
                                (filter (fun l => l <> "")
                                        (split newline (strip out))))).
        { apply mapM_is_Some. eapply Forall_impl; [exact Hall|].
          intros l Hl. unfold compose, first_word.
          destruct (lstrip l) eqn:Hhead; [congruence | eauto]. }
        rewrite Hfirsts in Hsome. now destruct Hsome.
    + split; [constructor|]. split; [discriminate|].
      split; [reflexivity|]. intros ? H. injection H as ? _. contradiction.
  - split; [constructor|]. split; [reflexivity|].
    split; discriminate.
Qed.

Lemma similar_fixes_clean_witness :
  Orchestrator.find_similar_fixes fresh logged_world unused_issue
  = ["b0b8db54"; "77aa01c2"].
Proof.
  destruct (similar_fixes_clean fresh logged_world unused_issue)
    as (_ & _ & _ & Hlines).
  destruct (Hlines _ eq_refl) as [Hwords _].
  assert (Hfirst : Forall2 (fun l h => first_word l = Some h)
                           ["b0b8db54 fix S1172"; "  77aa01c2 fix S1172 again"]
                           (Orchestrator.find_similar_fixes
                              fresh logged_world unused_issue)).
  { apply Hwords. repeat constructor; discriminate. }
  remember (Orchestrator.find_similar_fixes fresh logged_world unused_issue)
    as fixes eqn:Hfixes.
  clear -Hfirst.
  inversion Hfirst as [|? h1 ? hs1 H1 Hrest]; subst.
  inversion Hrest as [|? h2 ? hs2 H2 Hnil]; subst.
  inversion Hnil; subst.
  vm_compute in H1, H2. injection H1 as <-. injection H2 as <-. reflexivity.
Defined.

Example similar_fixes_logged :
  Orchestrator.find_similar_fixes fresh logged_world unused_issue
  = ["b0b8db54"; "77aa01c2"].
Proof. reflexivity. Qed.

(** ** More on strings: [split], [join], [strip] *)

#[local] Arguments String.append !s1 s2 : simpl nomatch.

Lemma append_assoc (a b c : string) : (a ++ b) ++ c = a ++ (b ++ c).
Proof.
  induction a as [|x a IH]; cbn [String.append String.length];
    [reflexivity | now rewrite IH].
Qed.

Lemma append_empty_r (a : string) : a ++ "" = a.
Proof.
  induction a as [|x a IH]; cbn [String.append String.length];
    [reflexivity | now rewrite IH].
Qed.

Lemma append_nonempty (a b : string) : b <> "" -> String.eqb (a ++ b) "" = false.
Proof.
  intros Hb. destruct a; cbn [String.append]; [|reflexivity]. now destruct b.
Qed.


(** ['c' in s] one character further. *)
Lemma contains_char_cons (c d : ascii) (s : string) :
  contains (String c "") (String d s) = false
  <-> d <> c /\ contains (String c "") s = false.
Proof.
  cbn [contains]. cbn [String.prefix].
  destruct (ascii_dec c d) as [->|Hne].
  - destruct s; cbn; split; try discriminate; intros [H _]; contradiction.
  - cbn [orb]. split; [intros H; split; [congruence | exact H] | now intros [_ H]].
Qed.

Lemma contains_char_app (c : ascii) (a b : string) :
  contains (String c "") (a ++ b) = false
  <-> contains (String c "") a = false /\ contains (String c "") b = false.
Proof.
  induction a as [|d a IH]; cbn [String.append].
  - split; [intros H; split; [reflexivity | exact H] | now intros [_ H]].
  - rewrite !contains_char_cons, IH. tauto.
Qed.

(** A piece that lacks the first character of the separator is read into
    the current piece. *)
Lemma split_from_lacking (c0 : ascii) (rest a b cur : string) :
  contains (String c0 "") a = false ->
  split_from (String c0 rest) O cur (a ++ b)
  = split_from (String c0 rest) O (cur ++ a) b.
Proof.
  revert cur. induction a as [|d a IH]; intros cur Ha; cbn [String.append].
  - now rewrite append_empty_r.
  - apply contains_char_cons in Ha as [Hd Ha].
    cbn [split_from String.prefix].
    destruct (ascii_dec c0 d) as [->|_]; [contradiction|].
    rewrite (IH _ Ha), append_assoc. reflexivity.
Qed.

Lemma split_from_skip (sep x b cur : string) :
  split_from sep (String.length x) cur (x ++ b) = split_from sep O cur b.
Proof.
  induction x as [|d x IH]; cbn [String.length String.append split_from];
    [reflexivity | exact IH].
Qed.

(** At an occurrence of the separator the current piece ends. *)
Lemma split_from_at (c0 : ascii) (rest b cur : string) :
  split_from (String c0 rest) O cur (String c0 rest ++ b)
  = cur :: split_from (String c0 rest) O "" b.
Proof.
  assert (Hpre : String.prefix (String c0 rest) (String c0 rest ++ b) = true)
    by (apply prefix_split; eauto).
  cbn [String.append] in *. cbn [split_from]. rewrite Hpre.
  replace (String.length (String c0 rest) - 1)%nat with (String.length rest)
    by (cbn [String.length]; lia).
  now rewrite split_from_skip.
Qed.

(** Without an occurrence of the separator there is one piece. *)
Lemma split_from_none (sep s cur : string) :
  contains sep s = false -> split_from sep O cur s = [cur ++ s].
Proof.
  revert cur. induction s as [|d s IH]; intros cur Hs; cbn [split_from].
  - now rewrite append_empty_r.
  - cbn [contains] in Hs. apply orb_false_iff in Hs as [Hpre Hs].
    rewrite Hpre, (IH _ Hs), append_assoc. reflexivity.
Qed.

Lemma split_from_head (sep : string) (k : nat) (cur s : string) :
  exists more pieces, split_from sep k cur s = (cur ++ more) :: pieces.
Proof.
  revert k cur. induction s as [|d s IH]; intros k cur; cbn [split_from].
  - exists "", []. now rewrite append_empty_r.
  - destruct k as [|k]; [|apply IH].
    destruct (String.prefix sep (String d s)).
    + eexists "", _. now rewrite append_empty_r.
    + destruct (IH O (cur ++ String d "")) as (more & pieces & ->).
      exists (String d more), pieces. now rewrite append_assoc.
Qed.

Lemma drop_str_app (x b : string) : drop_str (String.length x) (x ++ b) = b.
Proof.
  induction x as [|d x IH]; cbn [String.length String.append drop_str];
    [now destruct b | exact IH].
Qed.

(** Joining the pieces with the separator gives the text back. *)
Lemma join_split_from (c0 : ascii) (rest s : string) :
  forall (k : nat) (cur : string),
    join (String c0 rest) (split_from (String c0 rest) k cur s)
    = cur ++ drop_str k s.
Proof.
  induction s as [|d s IH]; intros k cur; cbn [split_from].
  - destruct k; cbn; now rewrite append_empty_r.
  - destruct k as [|k]; [|cbn [drop_str]; apply IH].
    cbn [drop_str].
    destruct (String.prefix (String c0 rest) (String d s)) eqn:Hpre.
    + apply prefix_split in Hpre as [b Hb]. cbn [String.append] in Hb.
      injection Hb as -> ->.
      replace (String.length (String c0 rest) - 1)%nat with (String.length rest)
        by (cbn [String.length]; lia).
      destruct (split_from_head (String c0 rest) (String.length rest) ""
                                (rest ++ b)) as (more & pieces & Hsplit).
      pose proof (IH (String.length rest) "") as Hjoin.
      rewrite Hsplit in Hjoin |- *. unfold join in *.
      cbn [String.concat]. cbn [String.concat] in Hjoin. rewrite Hjoin.
      rewrite drop_str_app. cbn [String.append]. reflexivity.
    + rewrite IH, append_assoc. reflexivity.
Qed.

Lemma join_split (c0 : ascii) (rest s : string) :
  join (String c0 rest) (split (String c0 rest) s) = s.
Proof. unfold split. now rewrite join_split_from. Qed.

Lemma rstrip_app (a b : string) :
  rstrip (a ++ b) = if String.eqb (rstrip b) "" then rstrip a else a ++ rstrip b.
Proof.
  induction a as [|c a IH]; cbn [String.append rstrip].
  - now destruct (String.eqb_spec (rstrip b) "").
  - rewrite IH. destruct (String.eqb_spec (rstrip b) "") as [Hb|Hb].
    + reflexivity.
    + rewrite (append_nonempty a _ Hb), andb_false_r. reflexivity.
Qed.

Lemma rstrip_idempotent (s : string) : rstrip (rstrip s) = rstrip s.
Proof.
  induction s as [|c s IH]; cbn [rstrip]; [reflexivity|].
  destruct (is_space c && String.eqb (rstrip s) "") eqn:Hcut; [reflexivity|].
  cbn [rstrip]. now rewrite IH, Hcut.
Qed.

Lemma lstrip_rstrip (s : string) : lstrip (rstrip s) = rstrip (lstrip s).
Proof.
  induction s as [|c s IH]; cbn [rstrip lstrip]; [reflexivity|].
  destruct (is_space c) eqn:Hc; cbn [andb].
  - destruct (String.eqb_spec (rstrip s) "") as [Hs|Hs].
    + rewrite <- IH, Hs. reflexivity.
    + cbn [lstrip]. now rewrite Hc.
  - cbn [lstrip rstrip]. now rewrite Hc.
Qed.

(** White space in front of a text does not change what [strip] gives. *)
Lemma strip_after_space (c : ascii) (s : string) :
  is_space c = true -> strip (rstrip (String c s)) = strip s.
Proof.
  intros Hc. unfold strip.
  rewrite lstrip_rstrip, rstrip_idempotent. cbn [lstrip]. now rewrite Hc.
Qed.

Lemma rstrip_prefix (s : string) : exists t, s = rstrip s ++ t.
Proof.
  induction s as [|c s [t Ht]]; cbn [rstrip]; [now exists ""|].
  destruct (is_space c && String.eqb (rstrip s) "").
  - now exists (String c s).
  - exists t. cbn [String.append]. now rewrite <- Ht.
Qed.

Lemma contains_prefix_false (sub a b : string) :
  contains sub (a ++ b) = false -> contains sub a = false.
Proof.
  intros H. destruct (contains sub a) eqn:Ha; [|reflexivity].
  apply contains_substring in Ha as (pre & post & ->).
  assert (Hin : contains sub ((pre ++ sub ++ post) ++ b) = true).
  { apply contains_substring. exists pre, (post ++ b).
    now rewrite !append_assoc. }
  congruence.
Qed.

(** ** Reading integers *)

Lemma digits_from_chars (t : string) :
  forall (acc : Z) (after : bool) (n : Z) (c : ascii),
    digits_from acc after t = Some n ->
    digit_of c = None -> c <> "_"%char ->
    contains (String c "") t = false.
Proof.
  induction t as [|d t IH]; intros acc after n c Hn Hc Hu; [reflexivity|].
  cbn [digits_from] in Hn. apply contains_char_cons.
  destruct (digit_of d) as [v|] eqn:Hd.
  - split; [congruence | now apply (IH _ _ _ _ Hn)].
  - destruct (Ascii.eqb_spec d "_"%char) as [->|Hne]; [|discriminate Hn].
    destruct after; [|discriminate Hn].
    split; [congruence | now apply (IH _ _ _ _ Hn)].
Qed.

Lemma contains_char_lstrip (c : ascii) (s : string) :
  is_space c = false ->
  contains (String c "") (lstrip s) = false -> contains (String c "") s = false.
Proof.
  intros Hc. induction s as [|d s IH]; cbn [lstrip]; [trivial|].
  destruct (is_space d) eqn:Hd; [|trivial].
  intros H. apply contains_char_cons. split; [congruence | now apply IH].
Qed.

Lemma contains_char_rstrip (c : ascii) (s : string) :
  is_space c = false ->
  contains (String c "") (rstrip s) = false -> contains (String c "") s = false.
Proof.
  intros Hc. induction s as [|d s IH]; cbn [rstrip]; [trivial|].
  destruct (is_space d && String.eqb (rstrip s) "") eqn:Hcut.
  - apply andb_true_iff in Hcut as [Hd Hs]. apply String.eqb_eq in Hs.
    intros _. apply contains_char_cons.
    split; [congruence | apply IH; now rewrite Hs].
  - intros H. apply contains_char_cons in H as [Hne H].
    apply contains_char_cons. split; [exact Hne | now apply IH].
Qed.

Lemma int_of_str_shape (s : string) (n : Z) :
  int_of_str s = Some n ->
  exists t m,
    digits_from 0 false t = Some m
    /\ (strip s = t \/ strip s = String "+" t \/ strip s = String "-" t).
Proof.
  unfold int_of_str. destruct (strip s) as [|d t] eqn:Hs.
  - intros H. exists "", n. auto.
  - destruct (Ascii.eqb_spec d "+"%char) as [->|Hplus].
    { intros H. exists t, n. auto. }
    destruct (Ascii.eqb_spec d "-"%char) as [->|Hminus].
    { intros H. destruct (digits_from 0 false t) as [m|] eqn:Hm;
        [|discriminate H]. exists t, m. auto. }
    intros H. exists (String d t), n. split; [|now left].
    destruct d as [[] [] [] [] [] [] [] []]; try exact H; contradiction.
Qed.

(** What [int()] accepts holds only white space, a sign, digits and
    underscores. *)
Lemma int_of_str_chars (s : string) (n : Z) (c : ascii) :
  int_of_str s = Some n ->
  is_space c = false -> digit_of c = None ->
  c <> "_"%char -> c <> "+"%char -> c <> "-"%char ->
  contains (String c "") s = false.
Proof.
  intros Hn Hspace Hdigit Hu Hplus Hminus.
  apply int_of_str_shape in Hn as (t & m & Hm & Hshape).
  pose proof (digits_from_chars t 0 false m c Hm Hdigit Hu) as Ht.
  apply contains_char_lstrip; [exact Hspace|].
  apply contains_char_rstrip; [exact Hspace|].
  fold (strip s). destruct Hshape as [->|[->| ->]]; [exact Ht|..];
    apply contains_char_cons; split; congruence.
Qed.

(** ** Reading a compiler line *)

Lemma lstrip_fixed (s : string) : starts_with_space s = false -> lstrip s = s.
Proof. destruct s as [|c s]; cbn; [trivial | now intros ->]. Qed.

Lemma starts_with_space_app (a b : string) :
  starts_with_space a = false -> starts_with_space b = false ->
  starts_with_space (a ++ b) = false.
Proof. destruct a; cbn; auto. Qed.

(** The stripped line: only the white space after the message goes. *)
Lemma tsc_line_strip (file ln col code msg : string) :
  starts_with_space file = false ->
  strip (tsc_line file ln col code msg)
  = (file ++ "(" ++ ln ++ "," ++ col ++ ")") ++ ": error TS"
    ++ (code ++ ":" ++ rstrip (String " " msg)).
Proof.
  intros Hfile. unfold strip, tsc_line.
  rewrite lstrip_fixed by (apply starts_with_space_app; [exact Hfile | reflexivity]).
  replace (file ++ "(" ++ ln ++ "," ++ col ++ ")" ++ ": error TS" ++ code ++ ": " ++ msg)
    with (((file ++ "(" ++ ln ++ "," ++ col ++ ")" ++ ": error TS" ++ code) ++ ":")
            ++ String " " msg)
    by (rewrite !append_assoc; reflexivity).
  rewrite rstrip_app.
  destruct (String.eqb_spec (rstrip (String " " msg)) "") as [Hmsg|Hmsg].
  - rewrite Hmsg, rstrip_app. cbn [rstrip is_space].
    change (String.eqb ":" "") with false. cbn iota.
    rewrite !append_assoc. cbn. rewrite ?append_empty_r. reflexivity.
  - rewrite !append_assoc. reflexivity.
Qed.

Lemma tsc_line_has_error (file ln col code msg : string) :
  contains "error TS" (tsc_line file ln col code msg) = true.
Proof.
  apply contains_substring.
  exists (file ++ "(" ++ ln ++ "," ++ col ++ ")" ++ ": "), (code ++ ": " ++ msg).
  unfold tsc_line. rewrite !append_assoc. reflexivity.
Qed.

(** Two pieces around the one separator. *)
Lemma split_once (c0 : ascii) (rest a b : string) :
  contains (String c0 "") a = false ->
  contains (String c0 rest) b = false ->
  split (String c0 rest) (a ++ String c0 rest ++ b) = [a; b].
Proof.
  intros Ha Hb. unfold split.
  rewrite (split_from_lacking _ _ _ _ _ Ha), split_from_at.
  now rewrite (split_from_none _ _ _ Hb).
Qed.

(** The first piece ends at the first separator. *)
Lemma split_first (c0 : ascii) (rest a b : string) :
  contains (String c0 "") a = false ->
  split (String c0 rest) (a ++ String c0 rest ++ b)
  = a :: split (String c0 rest) b.
Proof.
  intros Ha. unfold split.
  now rewrite (split_from_lacking _ _ _ _ _ Ha), split_from_at.
Qed.

(** The first piece begins with what lacks the separator. *)
Lemma split_hd_lacking (c0 : ascii) (rest a b : string) :
  contains (String c0 "") a = false ->
  exists more, hd "" (split (String c0 rest) (a ++ b)) = a ++ more.
Proof.
  intros Ha. unfold split. rewrite (split_from_lacking _ _ _ _ _ Ha).
  destruct (split_from_head (String c0 rest) O ("" ++ a) b)
    as (more & pieces & ->).
  now exists more.
Qed.

(** A compiler line whose parts hold no separator is read up to the line
    number, which [int()] accepts or not. *)
Lemma typescript_line_read
      (self : Orchestrator.t) (file ln col code msg : string) :
  starts_with_space file = false ->
  contains ":" file = false ->
  contains "(" file = false ->
  contains ":" ln = false -> contains "(" ln = false ->
  contains ")" ln = false -> contains "," ln = false ->
  contains ":" col = false ->
  contains ":" code = false ->
  contains ": error TS" (code ++ ": " ++ msg) = false ->
  Orchestrator.typescript_line self (tsc_line file ln col code msg)
  = match int_of_str ln with
    | Some n =>
        Ok (Some (Issue.mk
                    ("ts-" ++ code ++ "-"
                     ++ Orchestrator.hash_suffix (file ++ str_of_int n))
                    "typescript" (Orchestrator.map_ts_severity self code)
                    ("TS" ++ code) file n (strip msg)
                    (Orchestrator.categorize_ts_error self code)
                    [("original_line",
                      JStr (strip (tsc_line file ln col code msg)))]))
    | None => Raise ValueError
    end.
Proof.
  intros Hstart Hfile_colon Hfile_paren Hln_colon Hln_open Hln_close Hln_comma
         Hcol Hcode Hsep.
  set (X := rstrip (String " " msg)).
  set (A := file ++ "(" ++ ln ++ "," ++ col ++ ")").
  set (E := code ++ ":" ++ X).
  assert (HA : contains ":" A = false).
  { subst A. repeat (apply contains_char_app; split); auto. }
  assert (HE : contains ": error TS" E = false).
  { subst E X. destruct (rstrip_prefix (String " " msg)) as [t Ht].
    apply (contains_prefix_false _ _ t).
    rewrite !append_assoc. cbn [String.append]. rewrite <- Ht. exact Hsep. }
  unfold Orchestrator.typescript_line.
  rewrite tsc_line_has_error, (tsc_line_strip _ _ _ _ _ Hstart).
  fold X A E. rewrite (split_once _ _ _ _ HA HE).
  assert (Hfile : hd "" (split "(" A) = file).
  { subst A. now rewrite (split_first _ _ _ _ Hfile_paren). }
  assert (Hopen : contains "(" A = true).
  { apply contains_substring. now exists file, (ln ++ "," ++ col ++ ")"). }
  assert (Hinfo : exists more,
             hd "" (split ")" (nth 1 (split "(" A) "")) = (ln ++ ",") ++ more).
  { subst A. rewrite (split_first _ _ _ _ Hfile_paren).
    replace (nth 1 (file :: split "(" (ln ++ "," ++ col ++ ")")) "")
      with (hd "" (split "(" ((ln ++ ",") ++ col ++ ")")))
      by (rewrite append_assoc; cbn [nth];
          destruct (split "(" (ln ++ "," ++ col ++ ")")); reflexivity).
    destruct (split_hd_lacking "(" "" (ln ++ ",") (col ++ ")")) as [y Hy].
    { apply contains_char_app. now split. }
    rewrite Hy.
    apply (split_hd_lacking ")" "" (ln ++ ",") y).
    apply contains_char_app. now split. }
  destruct Hinfo as [more Hinfo].
  rewrite Hfile, Hopen, Hinfo.
  assert (Hnonempty : String.eqb ((ln ++ ",") ++ more) "" = false)
    by now destruct ln.
  rewrite Hnonempty.
  assert (Hnumber : hd "" (split "," ((ln ++ ",") ++ more)) = ln).
  { rewrite append_assoc. now rewrite (split_first _ _ _ _ Hln_comma). }
  rewrite Hnumber.
  destruct (int_of_str ln) as [n|]; cbn [mbind outcome_bind]; [|reflexivity].
  assert (Hparts : split ":" E = code :: split ":" X).
  { subst E. now rewrite (split_first _ _ _ _ Hcode). }
  rewrite Hparts. cbn [hd tl]. rewrite join_split.
  subst X. rewrite strip_after_space by reflexivity.
  reflexivity.
Qed.

(** X8. A line as the compiler prints it,
    [file(line,column): error TScode: message], is read back into its
    parts: the issue has that file path, the line number [int()] reads, the
    rule id "TS" followed by the code, and the message without the white
    space around it, colons included; its id is "ts-", the code and the
    hash of file path and line number.  The file must not begin with white
    space nor hold a colon or an opening parenthesis, the column and the
    code must hold no colon, and the separator ": error TS" must not come
    again after the code. *)
Theorem typescript_line_parses
        (self : Orchestrator.t) (file ln col code msg : string) (n : Z) :
  starts_with_space file = false ->
  contains ":" file = false ->
  contains "(" file = false ->
  int_of_str ln = Some n ->
  contains ":" col = false ->
  contains ":" code = false ->
  contains ": error TS" (code ++ ": " ++ msg) = false ->
  Orchestrator.typescript_line self (tsc_line file ln col code msg)
  = Ok (Some (Issue.mk
                ("ts-" ++ code ++ "-"
                 ++ Orchestrator.hash_suffix (file ++ str_of_int n))
                "typescript" (Orchestrator.map_ts_severity self code)
                ("TS" ++ code) file n (strip msg)
                (Orchestrator.categorize_ts_error self code)
                [("original_line",
                  JStr (strip (tsc_line file ln col code msg)))])).
Proof.
  intros Hstart Hfile_colon Hfile_paren Hint Hcol Hcode Hsep.
  assert (Hln : forall c, is_space c = false -> digit_of c = None ->
                          c <> "_"%char -> c <> "+"%char -> c <> "-"%char ->
                          contains (String c "") ln = false).
  { intros c. now apply int_of_str_chars with (n := n). }
  rewrite typescript_line_read; try assumption; try (apply Hln; easy).
  now rewrite Hint.
Qed.

Lemma typescript_line_parses_witness :
  Orchestrator.typescript_line fresh
    (tsc_line "src/app/page.tsx" "42" "7" "2322"
              ("Type 'A' is not assignable to type 'B': see docs." ++ newline))
  = Ok (Some (Issue.mk
                ("ts-2322-"
                 ++ Orchestrator.hash_suffix ("src/app/page.tsx" ++ str_of_int 42))
                "typescript" "MAJOR" "TS2322" "src/app/page.tsx" 42
                "Type 'A' is not assignable to type 'B': see docs." "types"
                [("original_line",
                  JStr "src/app/page.tsx(42,7): error TS2322: Type 'A' is not assignable to type 'B': see docs.")])).
Proof.
  rewrite (typescript_line_parses
             fresh "src/app/page.tsx" "42" "7" "2322"
             ("Type 'A' is not assignable to type 'B': see docs." ++ newline) 42)
    by (vm_compute; reflexivity).
  vm_compute. reflexivity.
Defined.

(** ** Severity, category and routing of compiler errors *)

(** The two tables of error codes, side by side. *)
Lemma ts_code_cases (self : Orchestrator.t) (code : string) :
  In (Orchestrator.map_ts_severity self code,
      Orchestrator.categorize_ts_error self code)
     [ ("CRITICAL", "syntax"); ("MAJOR", "types"); ("MINOR", "types");
       ("MINOR", "async"); ("MINOR", "imports"); ("MINOR", "syntax") ].
Proof.
  unfold Orchestrator.map_ts_severity, Orchestrator.categorize_ts_error, mem.
  cbn [existsb].
  repeat match goal with
         | |- context [String.eqb code ?l] =>
             destruct (String.eqb_spec code l) as [->|?];
             [vm_compute; tauto|]
         end.
  cbn. tauto.
Qed.

(** X9. For every error code the severity is CRITICAL, MAJOR or MINOR and
    the category is types, async, imports or syntax, never security or
    performance; CRITICAL comes only with category syntax and MAJOR only
    with category types, so an async or imports error is always MINOR. *)
Theorem typescript_severity_category (self : Orchestrator.t) (code : string) :
  let severity := Orchestrator.map_ts_severity self code in
  let category := Orchestrator.categorize_ts_error self code in
  In severity ["CRITICAL"; "MAJOR"; "MINOR"]
  /\ In category ["types"; "async"; "imports"; "syntax"]
  /\ category <> "security" /\ category <> "performance"
  /\ (severity = "CRITICAL" -> category = "syntax")
  /\ (severity = "MAJOR" -> category = "types")
  /\ (category = "async" \/ category = "imports" -> severity = "MINOR").
Proof.
  cbn zeta. pose proof (ts_code_cases self code) as Hcases.
  cbn [In] in Hcases.
  repeat (destruct Hcases as [Hcase|Hcases];
          [injection Hcase as <- <-; cbn [In];
           intuition (discriminate || auto)|]).
  contradiction.
Qed.

Lemma typescript_severity_category_witness :
  Orchestrator.categorize_ts_error fresh "1005" = "syntax"
  /\ Orchestrator.map_ts_severity fresh "2307" = "MINOR".
Proof.
  destruct (typescript_severity_category fresh "1005")
    as (_ & _ & _ & _ & Hcritical & _).
  destruct (typescript_severity_category fresh "2307")
    as (_ & _ & _ & _ & _ & _ & Himports).
  split; [apply Hcritical; reflexivity | apply Himports; right; reflexivity].
Defined.

Lemma lower_digits (s : string) : all_digits s = true -> lower s = s.
Proof.
  induction s as [|c s IH]; cbn [all_digits lower]; [reflexivity|].
  destruct (digit_of c) eqn:Hc; [|discriminate].
  intros Hs. rewrite (IH Hs). f_equal.
  destruct c as [[] [] [] [] [] [] [] []]; try reflexivity; discriminate Hc.
Qed.

Lemma contains_in_digits (c : ascii) (rest s : string) :
  all_digits s = true -> digit_of c = None ->
  contains (String c rest) s = false.
Proof.
  intros Hs Hc. induction s as [|d s IH]; [reflexivity|].
  cbn [all_digits] in Hs. destruct (digit_of d) eqn:Hd; [|discriminate Hs].
  cbn [contains String.prefix].
  destruct (ascii_dec c d) as [->|_]; [congruence|].
  cbn [orb]. now apply IH.
Qed.

Lemma replace_from_none (old new s : string) :
  contains old s = false -> replace_from old new O s = s.
Proof.
  induction s as [|d s IH]; [reflexivity|].
  cbn [contains]. intros H. apply orb_false_iff in H as [Hpre Hs].
  cbn [replace_from]. rewrite Hpre. now rewrite (IH Hs).
Qed.

(** The pattern key of the rule id of a numeric error code. *)
Lemma pattern_key_numeric (code : string) :
  all_digits code = true ->
  Orchestrator.pattern_key ("TS" ++ code) = "typescript-" ++ code.
Proof.
  intros Hcode. unfold Orchestrator.pattern_key, replace.
  change (lower ("TS" ++ code)) with (String "t" (String "s" (lower code))).
  rewrite (lower_digits _ Hcode).
  cbn [replace_from String.prefix].
  destruct (ascii_dec "t" "t") as [_|Hne]; [|contradiction].
  destruct (ascii_dec "s" "s") as [_|Hne]; [|contradiction].
  replace (String.prefix "" code) with true by now destruct code.
  cbn [String.length Nat.sub replace_from].
  rewrite replace_from_none by now apply contains_in_digits.
  reflexivity.
Qed.

(** X10. Under the default pattern library an issue of a numeric compiler
    error code never meets a library entry: its score is the severity base
    plus 3 in a sensitive path, with no category adjustment and no clamp,
    and, unless already resolved, it goes to SPEED exactly when its
    severity is MINOR and its path is not sensitive. *)
Theorem typescript_issue_routing
        (self : Orchestrator.t) (w : World) (issue : Issue.t) (code : string) :
  Orchestrator.patterns self = Orchestrator.default_patterns ->
  all_digits code = true ->
  Issue.rule_id issue = "TS" ++ code ->
  Issue.severity issue = Orchestrator.map_ts_severity self code ->
  Issue.category issue = Orchestrator.categorize_ts_error self code ->
  Orchestrator.check_already_resolved self w issue = false ->
  library_complexity self issue = None
  /\ Orchestrator.calculate_complexity self issue
     = severity_base issue + path_adjustment issue
  /\ (Job.job_type (Orchestrator.route_issue self w issue) = "SPEED"
      <-> Issue.severity issue = "MINOR" /\ sensitive_path issue = false).
Proof.
  intros Hdefault Hcode Hrule Hsev Hcat Hopen.
  assert (Hnone : library_complexity self issue = None).
  { unfold library_complexity. rewrite Hdefault, Hrule, pattern_key_numeric
      by exact Hcode.
    destruct (Orchestrator.default_patterns !! _) as [entry|] eqn:Hentry;
      [|reflexivity].
    apply default_patterns_keys in Hentry as [Hk|[Hk|[Hk _]]];
      cbn [String.append] in Hk;
      first [discriminate Hk | injection Hk as ->; discriminate Hcode]. }
  pose proof (ts_code_cases self code) as Hcases.
  rewrite <- Hsev, <- Hcat in Hcases. cbn [In] in Hcases.
  assert (Hscore : Orchestrator.calculate_complexity self issue
                   = severity_base issue + path_adjustment issue).
  { rewrite calculate_complexity_unclamped. unfold unclamped_score.
    rewrite Hnone. cbn [default from_option].
    destruct (adjustments_range issue) as [Hp _]. cbn [In] in Hp.
    unfold category_adjustment, severity_base.
    repeat (destruct Hcases as [Hcase|Hcases];
            [injection Hcase as <- <-; cbn; lia|]).
    contradiction. }
  split; [exact Hnone|]. split; [exact Hscore|].
  destruct (route_issue_type self w issue)
    as [[_ Hdone]|[(Htype & _ & Hle)|(Htype & _ & Hgt)]]; [congruence|..];
    rewrite Htype; rewrite Hscore in *;
    unfold path_adjustment, severity_base in *;
    destruct (sensitive_path issue);
    repeat (destruct Hcases as [Hcase|Hcases];
            [injection Hcase as Hs Hc; rewrite <- ?Hs in *; cbn in *;
             split; [intros H; try discriminate H; try lia; split; congruence
                    |intros [H1 H2]; try discriminate; try congruence; try lia]|]);
    try contradiction.
Qed.

Lemma typescript_issue_routing_witness :
  Job.job_type (Orchestrator.route_issue fresh quiet_world ts2307_issue)
  = "SPEED".
Proof.
  destruct (typescript_issue_routing fresh quiet_world ts2307_issue "2307"
              eq_refl eq_refl eq_refl eq_refl eq_refl eq_refl)
    as (_ & _ & Hspeed).
  apply Hspeed. split; reflexivity.
Defined.

(** A loop ends at the first turn that raises. *)
Lemma for_each_raises {A B : Type} (body : A -> outcome B)
      (before : list A) (bad : A) (after : list A) (e : exn) :
  Forall (fun x => exists y, body x = Ok y) before ->
  body bad = Raise e ->
  for_each body (before ++ bad :: after) = Raise e.
Proof.
  intros Hbefore Hbad.
  induction Hbefore as [|x xs [y Hy] _ IH]; cbn [app for_each].
  - now rewrite Hbad.
  - rewrite Hy. cbn [mbind outcome_bind]. now rewrite IH.
Qed.

(** X11. One compiler line whose position does not start with an integer
    ends the ingestion of the whole file with ValueError: the issues of the
    lines before it are lost and the lines after it are not read. *)
Theorem typescript_bad_position_aborts
        (self : Orchestrator.t) (w : World) (path : string)
        (before after : list string) (file ln col code msg : string) :
  read_lines w path
  = Ok (before ++ tsc_line file ln col code msg :: after)%list ->
  Forall (fun l => exists found, Orchestrator.typescript_line self l = Ok found)
         before ->
  starts_with_space file = false ->
  contains ":" file = false ->
  contains "(" file = false ->
  contains ":" ln = false -> contains "(" ln = false ->
  contains ")" ln = false -> contains "," ln = false ->
  contains ":" col = false ->
  contains ":" code = false ->
  contains ": error TS" (code ++ ": " ++ msg) = false ->
  int_of_str ln = None ->
  Orchestrator.ingest_typescript self w path = Raise ValueError.
Proof.
  intros Hread Hbefore Hstart Hf1 Hf2 Hl1 Hl2 Hl3 Hl4 Hcol Hcode Hsep Hint.
  unfold Orchestrator.ingest_typescript. rewrite Hread.
  cbn [mbind outcome_bind].
  rewrite (for_each_raises _ _ _ _ ValueError Hbefore); [reflexivity|].
  rewrite typescript_line_read by assumption. now rewrite Hint.
Qed.

Lemma typescript_bad_position_aborts_witness :
  Orchestrator.ingest_typescript fresh garbled_world "typescript-errors.txt"
  = Raise ValueError.
Proof.
  apply (typescript_bad_position_aborts
           fresh garbled_world "typescript-errors.txt"
           [ts2307_line ++ newline] [ts2307_line ++ newline]
           "bar.ts" "12a" "3" "1005" ("';' expected." ++ newline)).
  - vm_compute. reflexivity.
  - constructor; [|constructor].
    exists (Some ts2307_issue). vm_compute. reflexivity.
  - reflexivity.
  - reflexivity.
  - reflexivity.
  - reflexivity.
  - reflexivity.
  - reflexivity.
  - reflexivity.
  - reflexivity.
  - reflexivity.
  - vm_compute. reflexivity.
  - reflexivity.
Defined.

(** ** Issues of SonarQube reports, in both formats *)

Lemma is_lower_upper_char (c : ascii) : is_lower (upper_char c) = false.
Proof. destruct c as [[] [] [] [] [] [] [] []]; reflexivity. Qed.

Lemma has_lower_upper (s : string) : has_lower (upper s) = false.
Proof.
  induction s as [|c s IH]; cbn [upper has_lower]; [reflexivity|].
  now rewrite is_lower_upper_char, IH.
Qed.

Lemma categorize_sonar_rule_cases (self : Orchestrator.t) (rule : string) :
  In (Orchestrator.categorize_sonar_rule self rule)
     ["security"; "performance"; "maintainability"; "general"].
Proof.
  unfold Orchestrator.categorize_sonar_rule.
  repeat match goal with
         | |- context [if ?b then _ else _] => destruct b
         end; cbn [In]; auto.
Qed.

(** What one record of the custom format is turned into. *)
Lemma custom_item_inv (self : Orchestrator.t) (key : string) (v : json)
      (issue : Issue.t) :
  Orchestrator.sonarqube_custom_item self key v = Ok issue ->
  exists item,
    v = JObj item
    /\ Issue.source issue = "sonarqube"
    /\ Issue.severity issue = upper (severity_field key v)
    /\ Issue.category issue
       = Orchestrator.categorize_sonar_rule self (Issue.rule_id issue)
    /\ Issue.raw_data issue = item
    /\ (forall given, dict_get "id" item = Some (JStr given) ->
                      Issue.id issue = given)
    /\ get_str "rule" "" item = Ok (Issue.rule_id issue)
    /\ get_str "file" "" item = Ok (Issue.file_path issue)
    /\ get_int "line" 0 item = Ok (Issue.line issue).
Proof.
  unfold Orchestrator.sonarqube_custom_item. intros H.
  destruct v as [| | | | | |item]; try discriminate H.
  cbn [as_dict mbind outcome_bind] in H.
  do 9 step_bind H. injection H as <-.
  cbn [Issue.id Issue.source Issue.severity Issue.rule_id Issue.file_path
       Issue.line Issue.category Issue.raw_data].
  apply get_receiver_severity in Hstep3. subst.
  exists item. repeat split; try assumption.
  intros given Hgiven. unfold get_str in Hstep2. rewrite Hgiven in Hstep2.
  now injection Hstep2.
Qed.

Lemma standard_item_shape (self : Orchestrator.t) (v : json) (issue : Issue.t) :
  Orchestrator.sonarqube_standard_item self v = Ok issue ->
  Issue.source issue = "sonarqube"
  /\ Issue.category issue
     = Orchestrator.categorize_sonar_rule self (Issue.rule_id issue)
  /\ Issue.raw_data issue = match v with JObj item => item | _ => [] end.
Proof.
  unfold Orchestrator.sonarqube_standard_item. intros H.
  destruct v as [| | | | | |item]; try discriminate H.
  cbn [as_dict mbind outcome_bind] in H.
  do 8 step_bind H. injection H as <-. now cbn.
Qed.

Lemma Forall2_concat_Forall {A B : Type} (P : B -> Prop) (Q : A -> list B -> Prop)
      (xs : list A) (groups : list (list B)) :
  (forall x group, Q x group -> Forall P group) ->
  Forall2 Q xs groups -> Forall P (concat groups).
Proof.
  intros HQ H. induction H as [|x group xs groups Hx _ IH]; cbn [concat].
  - constructor.
  - apply Forall_app. split; [now apply (HQ x) | exact IH].
Qed.

(** The custom format, group by group. *)
Lemma custom_groups_inv (self : Orchestrator.t) (report cats : dict)
      (issues : list Issue.t) :
  dict_get "error_categories" report = Some (JObj cats) ->
  Orchestrator.sonarqube_issues self (JObj report) = Ok issues ->
  exists groups,
    issues = concat groups
    /\ Forall2 (fun entry group =>
                  exists items,
                    category_items (snd entry) = Ok items
                    /\ Forall2 (fun v issue =>
                                  Orchestrator.sonarqube_custom_item
                                    self (fst entry) v = Ok issue)
                               items group)
               cats groups.
Proof.
  intros Hcats. cbn [Orchestrator.sonarqube_issues]. rewrite Hcats.
  cbn [as_dict mbind outcome_bind]. intros H. step_bind H.
  injection H as <-. exists a. split; [reflexivity|].
  apply for_each_inv in Hstep.
  eapply Forall2_impl; [exact Hstep|].
  intros entry group Hgroup. cbn beta in Hgroup.
  unfold category_items.
  destruct (as_dict (snd entry)) as [d|]; cbn [mbind outcome_bind] in *;
    [|discriminate Hgroup].
  step_bind Hgroup. exists a0. split; [reflexivity|].
  now apply for_each_inv.
Qed.

(** X12. Every issue [ingest_sonarqube] returns, from either format, has
    source sonarqube, keeps its record as raw data, has the category its
    rule id is given by [categorize_sonar_rule] (security, performance,
    maintainability or general), and a severity without lower-case
    letters. *)
Theorem sonarqube_issues_shape
        (self : Orchestrator.t) (w : World) (path : string)
        (issues : list Issue.t) :
  Orchestrator.ingest_sonarqube self w path = Ok issues ->
  Forall (fun issue =>
            Issue.source issue = "sonarqube"
            /\ Issue.category issue
               = Orchestrator.categorize_sonar_rule self (Issue.rule_id issue)
            /\ In (Issue.category issue)
                  ["security"; "performance"; "maintainability"; "general"]
            /\ has_lower (Issue.severity issue) = false)
         issues.
Proof.
  unfold Orchestrator.ingest_sonarqube.
  destruct (read_json w path) as [data|e].
  2:{ destruct e; intros H; try discriminate H; injection H as <-; constructor. }
  destruct data as [| | | |s|items|report];
    try (cbn; discriminate);
    try (cbn [Orchestrator.sonarqube_issues];
         match goal with |- context [if ?b then _ else _] => destruct b end;
         discriminate).
  destruct (dict_get "error_categories" report) as [categories|] eqn:Hcats.
  - intros H.
    destruct categories as [| | | | | |cats];
      try (cbn [Orchestrator.sonarqube_issues] in H; rewrite Hcats in H;
           discriminate H).
    destruct (custom_groups_inv self report cats issues Hcats H)
      as (groups & -> & Hgroups).
    eapply Forall2_concat_Forall; [|exact Hgroups].
    intros entry group (items & _ & Hitems). cbn beta in Hitems.
    clear -Hitems. induction Hitems as [|v issue vs group Hv _ IH];
      constructor; [|exact IH].
    apply custom_item_inv in Hv as (item & _ & Hsrc & Hsev & Hcat & _).
    repeat split; [exact Hsrc | exact Hcat | |].
    + rewrite Hcat. apply categorize_sonar_rule_cases.
    + rewrite Hsev. apply has_lower_upper.
  - cbn [Orchestrator.sonarqube_issues]. rewrite Hcats. intros H.
    step_bind H. apply for_each_inv in H.
    clear -H. induction H as [|v issue vs group Hv _ IH];
      constructor; [|exact IH].
    pose proof (standard_item_shape _ _ _ Hv) as (Hsrc & Hcat & _).
    apply standard_item_inv in Hv as (? & ? & ? & ? & _ & _ & _ & _ & _ & Hsev & _).
    repeat split; [exact Hsrc | exact Hcat | |].
    + rewrite Hcat. apply categorize_sonar_rule_cases.
    + rewrite Hsev. apply has_lower_upper.
Qed.

Lemma sonarqube_issues_shape_witness :
  Forall (fun issue =>
            Issue.source issue = "sonarqube"
            /\ Issue.category issue
               = Orchestrator.categorize_sonar_rule fresh (Issue.rule_id issue)
            /\ In (Issue.category issue)
                  ["security"; "performance"; "maintainability"; "general"]
            /\ has_lower (Issue.severity issue) = false)
         [unused_issue; bare_issue].
Proof.
  apply (sonarqube_issues_shape fresh sonarqube_world "sonarqube-results.json").
  vm_compute. reflexivity.
Defined.

(** X13. In the WedSync custom format the issues come out group by group,
    in the order of the keys of [error_categories] and of the records under
    each key; the severity of an issue is its record's own severity field,
    or the key of its group when the record has none, upper-cased; its id
    is the record's id when the record gives one.  A flat [issues] list
    beside [error_categories] is not read. *)
Theorem custom_format_issues
        (self : Orchestrator.t) (report cats : dict) (issues : list Issue.t) :
  dict_get "error_categories" report = Some (JObj cats) ->
  Orchestrator.sonarqube_issues self (JObj report) = Ok issues ->
  (exists groups,
      issues = concat groups
      /\ Forall2 (fun entry group =>
                    exists items,
                      category_items (snd entry) = Ok items
                      /\ Forall2 (fun v issue =>
                                    Issue.severity issue
                                    = upper (severity_field (fst entry) v)
                                    /\ Issue.raw_data issue
                                       = match v with
                                         | JObj item => item
                                         | _ => []
                                         end
                                    /\ forall given,
                                        dict_get "id" (Issue.raw_data issue)
                                        = Some (JStr given) ->
                                        Issue.id issue = given)
                                 items group)
                 cats groups)
  /\ forall other : dict,
      dict_get "error_categories" other = Some (JObj cats) ->
      Orchestrator.sonarqube_issues self (JObj other) = Ok issues.
Proof.
  intros Hcats Hrun. split.
  - destruct (custom_groups_inv self report cats issues Hcats Hrun)
      as (groups & -> & Hgroups).
    exists groups. split; [reflexivity|].
    eapply Forall2_impl; [exact Hgroups|].
    intros entry group (items & Hitems & Hall). exists items.
    split; [exact Hitems|].
    eapply Forall2_impl; [exact Hall|].
    intros v issue Hv. cbn beta in Hv.
    apply custom_item_inv in Hv as (item & -> & _ & Hsev & _ & Hraw & Hid & _).
    rewrite Hraw. auto.
  - intros other Hother. rewrite <- Hrun.
    cbn [Orchestrator.sonarqube_issues]. now rewrite Hcats, Hother.
Qed.

Lemma custom_format_issues_witness :
  map Issue.severity custom_issues = ["BLOCKER"; "CRITICAL"]
  /\ map Issue.id custom_issues = ["WS-1"; "sonar-S1172-ddf703ad"]
  /\ Orchestrator.sonarqube_issues
       fresh (JObj [("error_categories",
                     default JNull (dict_get "error_categories" custom_report))])
     = Ok custom_issues.
Proof.
  split; [reflexivity|]. split; [reflexivity|].
  apply (proj2 (custom_format_issues
                  fresh custom_report
                  [ ("critical",
                     default JNull
                       (dict_get "critical"
                          match dict_get "error_categories" custom_report with
                          | Some (JObj cats) => cats
                          | _ => []
                          end)) ]
                  custom_issues eq_refl eq_refl)).
  reflexivity.
Defined.

(** ** Issues of CodeRabbit reports *)

Lemma map_coderabbit_severity_cases (self : Orchestrator.t) (severity : string) :
  In (Orchestrator.map_coderabbit_severity self severity)
     ["CRITICAL"; "MAJOR"; "MINOR"; "INFO"].
Proof.
  unfold Orchestrator.map_coderabbit_severity. cbn [Orchestrator.table_get].
  repeat match goal with
         | |- context [if ?b then _ else _] => destruct b
         end; cbn [In]; auto 10.
Qed.

(** What one finding is turned into. *)
Lemma coderabbit_item_inv (self : Orchestrator.t) (v : json) (issue : Issue.t) :
  Orchestrator.coderabbit_item self v = Ok issue ->
  Issue.source issue = "coderabbit"
  /\ Issue.category issue = "refactor"
  /\ Issue.severity issue
     = Orchestrator.map_coderabbit_severity self (severity_field "minor" v)
  /\ Issue.rule_id issue = "CR-" ++ severity_field "refactor" v.
Proof.
  unfold Orchestrator.coderabbit_item. intros H.
  destruct v as [| | | | | |item]; try discriminate H.
  cbn [as_dict mbind outcome_bind] in H.
  do 8 step_bind H. injection H as <-.
  cbn [Issue.source Issue.category Issue.severity Issue.rule_id].
  pose proof (get_receiver_severity _ _ _ Hstep2) as ->.
  repeat split.
  unfold get_receiver in Hstep2. unfold fmt_get in Hstep3.
  cbn [severity_field].
  destruct (dict_get "severity" item) as [[]|]; try discriminate Hstep2;
    cbn [py_str] in Hstep3; now injection Hstep3 as <-.
Qed.

(** The pattern key of a CodeRabbit rule id begins with "cr-". *)
Lemma pattern_key_coderabbit (tag : string) :
  exists rest, Orchestrator.pattern_key ("CR-" ++ tag) = String "c" rest.
Proof.
  unfold Orchestrator.pattern_key, replace.
  change (lower ("CR-" ++ tag)) with (String "c" (String "r" (String "-" (lower tag)))).
  cbn [replace_from String.prefix].
  destruct (ascii_dec "t" "c") as [Heq|_]; [discriminate Heq|].
  eauto.
Qed.

(** The severity map of CodeRabbit, spelled out on the lower-cased word. *)
Lemma map_coderabbit_severity_spec (self : Orchestrator.t) (severity : string) :
  let level := Orchestrator.map_coderabbit_severity self severity in
  (level = "CRITICAL" <-> lower severity = "critical")
  /\ (level = "MAJOR" <-> lower severity = "major")
  /\ (level = "INFO" <-> lower severity = "style")
  /\ (level = "MINOR"
      <-> lower severity <> "critical" /\ lower severity <> "major"
          /\ lower severity <> "style").
Proof.
  cbn zeta. unfold Orchestrator.map_coderabbit_severity.
  cbn [Orchestrator.table_get].
  destruct (String.eqb_spec (lower severity) "critical") as [->|Hc];
    [repeat split; intros; try discriminate; try tauto|].
  destruct (String.eqb_spec (lower severity) "major") as [->|Hm];
    [repeat split; intros; try discriminate; try tauto|].
  destruct (String.eqb_spec (lower severity) "minor") as [->|Hn];
    [repeat split; intros; try discriminate; try tauto|].
  destruct (String.eqb_spec (lower severity) "refactor") as [->|Hr];
    [repeat split; intros; try discriminate; try tauto|].
  destruct (String.eqb_spec (lower severity) "style") as [->|Hs];
    repeat split; intros; try discriminate; try tauto.
Qed.

(** X14. Every issue [ingest_coderabbit] returns has source coderabbit and
    category refactor.  Its severity follows the finding's severity word
    whatever its letter case: CRITICAL for critical, MAJOR for major, INFO
    for style, and MINOR for every other word (minor, refactor and unknown
    words alike) and when the finding has no severity; so it is never
    BLOCKER.  Its rule id is "CR-" followed by the severity as written,
    "CR-refactor" when absent.  Under the default pattern library such an
    issue never meets a library entry: its score is the severity base plus
    the path adjustment. *)
Theorem coderabbit_issues_shape
        (self : Orchestrator.t) (w : World) (path : string) (data : json)
        (issues : list Issue.t) :
  read_json w path = Ok data ->
  Orchestrator.ingest_coderabbit self w path = Ok issues ->
  exists items,
    iterate data = Ok items
    /\ Forall2 (fun v issue =>
                  let word := lower (severity_field "minor" v) in
                  Issue.source issue = "coderabbit"
                  /\ Issue.category issue = "refactor"
                  /\ Issue.severity issue
                     = Orchestrator.map_coderabbit_severity
                         self (severity_field "minor" v)
                  /\ (Issue.severity issue = "CRITICAL" <-> word = "critical")
                  /\ (Issue.severity issue = "MAJOR" <-> word = "major")
                  /\ (Issue.severity issue = "INFO" <-> word = "style")
                  /\ (Issue.severity issue = "MINOR"
                      <-> word <> "critical" /\ word <> "major"
                          /\ word <> "style")
                  /\ (match v with
                      | JObj item => dict_get "severity" item = None
                      | _ => False
                      end ->
                      Issue.severity issue = "MINOR"
                      /\ Issue.rule_id issue = "CR-refactor")
                  /\ In (Issue.severity issue)
                        ["CRITICAL"; "MAJOR"; "MINOR"; "INFO"]
                  /\ Issue.rule_id issue = "CR-" ++ severity_field "refactor" v
                  /\ (Orchestrator.patterns self = Orchestrator.default_patterns ->
                      Orchestrator.calculate_complexity self issue
                      = severity_base issue + path_adjustment issue))
               items issues.
Proof.
  intros Hread. unfold Orchestrator.ingest_coderabbit. rewrite Hread.
  cbn [mbind outcome_bind]. intros H. step_bind H. exists a.
  split; [reflexivity|]. apply for_each_inv in H.
  eapply Forall2_impl; [exact H|].
  intros v issue Hv. cbn beta in Hv. cbn zeta.
  apply coderabbit_item_inv in Hv as (Hsrc & Hcat & Hsev & Hrule).
  pose proof (map_coderabbit_severity_cases self (severity_field "minor" v))
    as Hcases.
  pose proof (map_coderabbit_severity_spec self (severity_field "minor" v))
    as Hspec.
  cbn zeta in Hspec. rewrite <- Hsev in Hcases, Hspec.
  destruct Hspec as (Hcritical & Hmajor & Hinfo & Hminor).
  split; [exact Hsrc|]. split; [exact Hcat|]. split; [exact Hsev|].
  split; [exact Hcritical|]. split; [exact Hmajor|]. split; [exact Hinfo|].
  split; [exact Hminor|].
  split.
  { destruct v as [| | | | | |item]; try contradiction.
    intros Habsent. cbn [severity_field] in Hsev, Hrule.
    rewrite Habsent in Hsev, Hrule. split; [exact Hsev | exact Hrule]. }
  split; [exact Hcases|]. split; [exact Hrule|].
  intros Hdefault. rewrite calculate_complexity_unclamped.
  unfold unclamped_score, library_complexity. rewrite Hdefault, Hrule.
  destruct (pattern_key_coderabbit (severity_field "refactor" v)) as [rest Hkey].
  destruct (Orchestrator.default_patterns !! _) as [entry|] eqn:Hentry.
  { apply default_patterns_keys in Hentry as [Hk|[Hk|[Hk _]]];
      rewrite Hkey in Hk; discriminate Hk. }
  cbn [mbind option_bind default from_option].
  destruct (adjustments_range issue) as [Hp _]. cbn [In] in Hp.
  unfold category_adjustment, severity_base. rewrite Hcat.
  cbn [In] in Hcases.
  repeat (destruct Hcases as [Hcase|Hcases]; [rewrite <- Hcase; cbn; lia|]).
  contradiction.
Qed.

Lemma coderabbit_issues_shape_witness :
  map Issue.severity coderabbit_issues = ["INFO"; "MINOR"]
  /\ map Issue.rule_id coderabbit_issues = ["CR-Style"; "CR-refactor"]
  /\ exists items,
      iterate coderabbit_report = Ok items
      /\ Forall2 (fun v issue =>
                    Issue.source issue = "coderabbit"
                    /\ (Issue.severity issue = "INFO"
                        <-> lower (severity_field "minor" v) = "style"))
                 items coderabbit_issues.
Proof.
  split; [reflexivity|]. split; [reflexivity|].
  destruct (coderabbit_issues_shape fresh coderabbit_world
              "coderabbit-report.json" coderabbit_report coderabbit_issues
              eq_refl eq_refl) as (items & Hitems & Hall).
  exists items. split; [exact Hitems|].
  eapply Forall2_impl; [exact Hall|].
  intros v issue (Hsrc & _ & _ & _ & _ & Hinfo & _). split; assumption.
Defined.

(** ** The run as a whole *)












(** X15. Once the orchestrator is created, a run of [main] whose ingestion
    ends without an exception, when [--process-all] or
    [--process-everything] is given and every job file can be written,
    writes for each ingested issue, in the order of ingestion, the job the
    router makes of it, and sets total_issues to their number; the first job file that cannot be written ends the run
    with the exception of the writing.  Without either flag, or with no
    issue ingested, the run writes nothing and leaves the stats at zero. *)
Theorem main_jobs_per_issue
        (w : World) (worlds : nat -> World) (args : Args.t)
        (issues : list Issue.t) :
  Main.all_issues (Orchestrator.init w) w args = Ok issues ->
  (Args.process_all args || Args.process_everything args = true ->
   (forall k issue,
       issues !! k = Some issue ->
       write_file (worlds k)
                  (fst (routed (Orchestrator.init w) worlds k issue))
       = Ok tt) ->
   exists orchestrator,
     Main.main w worlds args
     = Ok (imap (routed (Orchestrator.init w) worlds) issues, orchestrator)
     /\ Orchestrator.patterns orchestrator = Orchestrator.load_patterns w
     /\ (issues <> [] ->
         Orchestrator.stats orchestrator !! "total_issues"
         = Some (Z.of_nat (length issues))))
  /\ (Args.process_all args || Args.process_everything args = true ->
      forall before issue after e,
        issues = (before ++ issue :: after)%list ->
        (forall k earlier,
            before !! k = Some earlier ->
            write_file (worlds k)
                       (fst (routed (Orchestrator.init w) worlds k earlier))
            = Ok tt) ->
        write_file (worlds (length before))
                   (fst (routed (Orchestrator.init w) worlds (length before)
                                issue))
        = Raise e ->
        Main.main w worlds args = Raise e)
  /\ (Args.process_all args || Args.process_everything args = false
      \/ issues = [] ->
      Main.main w worlds args = Ok ([], Orchestrator.init w)).
Proof.
  intros Hissues. unfold Main.main. rewrite Hissues.
  cbn [mbind outcome_bind]. split; [|split].
  - intros Hflag Hwrite. rewrite Hflag.
    destruct issues as [|issue issues].
    { exists (Orchestrator.init w). repeat split; auto; contradiction. }
    destruct (process_from_accounting worlds (issue :: issues) O
                (Orchestrator.init w) 0 0 0 eq_refl eq_refl eq_refl Hwrite)
      as (written & mid & Hrun & Hwritten & _).
    change (written
            = imap (routed (Orchestrator.init w) worlds) (issue :: issues))
      in Hwritten.
    subst written.
    unfold Orchestrator.process_issues. rewrite Hrun.
    cbn [mbind outcome_bind fst snd]. eexists.
    split; [reflexivity|]. cbn [Orchestrator.patterns Orchestrator.stats].
    split; [apply (process_from_patterns worlds (issue :: issues) O
                     (Orchestrator.init w) (_, mid) Hrun)|].
    intros _. apply lookup_insert_eq.
  - intros Hflag before issue after e -> Hwrite Hfail. rewrite Hflag.
    pose proof (process_from_write_fails worlds (Orchestrator.init w) before
                  issue after 0 0 0 e eq_refl eq_refl eq_refl Hwrite Hfail)
      as Hraise.
    destruct before as [|earlier before]; cbn [app] in Hraise |- *;
      unfold Orchestrator.process_issues; now rewrite Hraise.
  - intros [Hflag| ->]; [|reflexivity].
    rewrite Hflag. now destruct issues.
Qed.

Lemma main_jobs_per_issue_witness :
  exists orchestrator,
    Main.main mixed_world (fun _ => mixed_world) args_everything
    = Ok (imap (routed (Orchestrator.init mixed_world) (fun _ => mixed_world))
               [unused_issue; bare_issue], orchestrator)
    /\ Orchestrator.stats orchestrator !! "total_issues" = Some 2.
Proof.
  destruct (main_jobs_per_issue mixed_world (fun _ => mixed_world)
              args_everything [unused_issue; bare_issue] eq_refl)
    as (Hprocess & _).
  destruct (Hprocess eq_refl) as (orchestrator & Hrun & _ & Htotal).
  { intros k issue _. reflexivity. }
  exists orchestrator. split; [exact Hrun|]. apply Htotal. discriminate.
Defined.

(** * The parser script *)

(** ** Statistics *)

Lemma count_lookup (stats : gmap string Z) (error_obj : ParseSonarqube.ErrorObj.t)
      (key : string) :
  ParseSonarqube.count stats error_obj !! key
  = (fun n => n + (if String.eqb (ParseSonarqube.ErrorObj.severity error_obj) key
                   then 1 else 0))
      <$> stats !! key.
Proof.
  unfold ParseSonarqube.count.
  destruct (String.eqb_spec (ParseSonarqube.ErrorObj.severity error_obj) key)
    as [->|Hne].
  - destruct (stats !! key) as [n|] eqn:Hkey.
    + now rewrite lookup_insert_eq.
    + now rewrite Hkey.
  - destruct (stats !! ParseSonarqube.ErrorObj.severity error_obj) as [m|].
    + rewrite lookup_insert_ne by exact Hne.
      destruct (stats !! key); cbn; [f_equal; lia | reflexivity].
    + destruct (stats !! key); cbn; [f_equal; lia | reflexivity].
Qed.

Lemma count_severity_cons (severity : string) (e : ParseSonarqube.ErrorObj.t)
      (written : list ParseSonarqube.ErrorObj.t) :
  count_severity severity (e :: written)
  = (if String.eqb (ParseSonarqube.ErrorObj.severity e) severity then 1 else 0)
    + count_severity severity written.
Proof.
  unfold count_severity. rewrite filter_cons.
  destruct (String.eqb_spec (ParseSonarqube.ErrorObj.severity e) severity)
    as [Heq|Hne].
  - rewrite decide_True by exact Heq. cbn [length]. lia.
  - rewrite decide_False by exact Hne. lia.
Qed.

Lemma fold_count_lookup (written : list ParseSonarqube.ErrorObj.t) :
  forall (stats : gmap string Z) (key : string),
    fold_left ParseSonarqube.count written stats !! key
    = (fun n => n + count_severity key written) <$> stats !! key.
Proof.
  induction written as [|e written IH]; intros stats key; cbn [fold_left].
  - destruct (stats !! key); cbn; [f_equal; unfold count_severity; cbn; lia
                                  | reflexivity].
  - rewrite IH, count_lookup, count_severity_cons.
    destruct (stats !! key); cbn; [f_equal; lia | reflexivity].
Qed.

(** A string, or the key of a dict, is no record: the loop raises on it. *)
Lemma records_from_strings
      (w : World) (output_dir : string) (idx : nat) (items : list json) :
  items <> [] ->
  Forall (fun v => exists s, v = JStr s) items ->
  exists e, ParseSonarqube.records_from w output_dir idx items = Raise e.
Proof.
  intros Hsome Hall. destruct Hall as [|v items [s ->] _]; [contradiction|].
  exists AttributeError. reflexivity.
Qed.

(** X16. When [parse_sonarqube_results] returns statistics, the input file
    held a list of records, bare or under the key issues, and the error
    objects written are those of the records that have a file path, one for
    one and in their order: each is named SQ- and the position of its record
    in the list, in five digits, and carries that record's file path and
    upper-cased severity, INFO when the record has none.  Each of the five
    counters BLOCKER, CRITICAL, MAJOR, MINOR and INFO is the number of
    objects written with that severity and there is no other counter: an
    object whose severity is none of the five is written but not counted,
    so the counters sum to at most the number written. *)
Theorem parse_statistics
        (w : World) (input_file output_dir : string)
        (written : list ParseSonarqube.ErrorObj.t) (stats : gmap string Z) :
  ParseSonarqube.parse_sonarqube_results w input_file output_dir
  = Ok (Some (written, stats)) ->
  exists items,
    (read_json w input_file = Ok (JArr items)
     \/ exists report,
         read_json w input_file = Ok (JObj report)
         /\ dict_get "issues" report = Some (JArr items))
    /\ Forall2 (fun kept error_obj =>
                  ParseSonarqube.ErrorObj.id error_obj
                  = "SQ-" ++ ParseSonarqube.pad5 (fst kept)
                  /\ ParseSonarqube.ErrorObj.file error_obj
                     = record_file (snd kept)
                  /\ ParseSonarqube.ErrorObj.file error_obj <> ""
                  /\ ParseSonarqube.ErrorObj.severity error_obj
                     = upper (severity_field "INFO" (snd kept)))
               (kept_from 0 items) written
    /\ (forall severity,
           stats !! severity
           = if mem severity ["BLOCKER"; "CRITICAL"; "MAJOR"; "MINOR"; "INFO"]
             then Some (count_severity severity written) else None)
    /\ count_severity "BLOCKER" written + count_severity "CRITICAL" written
       + count_severity "MAJOR" written + count_severity "MINOR" written
       + count_severity "INFO" written <= Z.of_nat (length written).
Proof.
  unfold ParseSonarqube.parse_sonarqube_results.
  destruct (path_exists w input_file) as [[]|]; try discriminate.
  intros H. step_bind H. step_bind H.
  destruct a0 as [|v items]; [discriminate H|].
  step_bind H. injection H as <- <-.
  exists (v :: items). split; [|split; [|split]].
  - destruct a as [| | | | |listed|report]; try discriminate Hstep0.
    + left. now injection Hstep0 as ->.
    + right. exists report. split; [reflexivity|].
      cbn [as_dict mbind outcome_bind] in Hstep0.
      destruct (dict_get "issues" report) as [listed|]; [|discriminate Hstep0].
      destruct listed as [| | | |s|listed|d]; try discriminate Hstep0.
      * exfalso. cbn [iterate] in Hstep0. injection Hstep0 as Hchars.
        destruct (records_from_strings w output_dir 0 (v :: items))
          as [e He]; [discriminate| |congruence].
        rewrite <- Hchars. apply List.Forall_forall. intros x Hx.
        apply in_map_iff in Hx as (c & <- & _). eauto.
      * now injection Hstep0 as ->.
      * exfalso. cbn [iterate] in Hstep0. injection Hstep0 as Hkeys.
        destruct (records_from_strings w output_dir 0 (v :: items))
          as [e He]; [discriminate| |congruence].
        rewrite <- Hkeys. apply List.Forall_forall. intros x Hx.
        apply in_map_iff in Hx as (kv & <- & _). eauto.
  - apply records_from_inv in Hstep1.
    eapply Forall2_impl; [exact Hstep1|].
    intros kept error_obj (Hid & _ & Hfile & Hsome & Hsev).
    repeat split; assumption.
  - intros severity. rewrite fold_count_lookup.
    unfold ParseSonarqube.initial_stats, mem. cbn [existsb list_to_map foldr].
    repeat match goal with
           | |- context [String.eqb severity ?l] =>
               destruct (String.eqb_spec severity l) as [->|?];
               [vm_compute; f_equal; lia|]
           end.
    cbn [orb fst snd]. rewrite !lookup_insert_ne by congruence.
    now rewrite lookup_empty.
  - match goal with
    | |- context [Z.of_nat (length ?l)] => generalize l
    end.
    clear. intros written. induction written as [|e written IH];
      [reflexivity|].
    rewrite !count_severity_cons. cbn [length].
    repeat match goal with
           | |- context [String.eqb ?x ?l] =>
               destruct (String.eqb_spec x l) as [Heq|?];
               [try rewrite Heq in *; cbn [String.eqb Ascii.eqb Bool.eqb]|]
           end; lia.
Qed.

Lemma parse_statistics_witness :
  map ParseSonarqube.ErrorObj.id odd_written
  = ["SQ-00000"; "SQ-00002"; "SQ-00003"]
  /\ map ParseSonarqube.ErrorObj.severity odd_written
     = ["WARNING"; "MAJOR"; "INFO"]
  /\ odd_stats !! "MAJOR" = Some 1
  /\ odd_stats !! "WARNING" = None.
Proof.
  assert (Hrun : ParseSonarqube.parse_sonarqube_results
                   odd_world "sonarqube-results.json" "QUEUES"
                 = Ok (Some (odd_written, odd_stats))).
  { vm_compute. reflexivity. }
  destruct (parse_statistics _ _ _ _ _ Hrun) as (items & _ & _ & Hstats & _).
  split; [reflexivity|]. split; [reflexivity|].
  split; [rewrite (Hstats "MAJOR") | rewrite (Hstats "WARNING")];
    vm_compute; reflexivity.
Defined.

(** ** Classification *)

Ltac split_conditions :=
  repeat match goal with
         | |- context [if ?b then _ else _] =>
             let E := fresh "Hcond" in destruct b eqn:E
         end.

(** X17. [classify_category] returns one of eight categories.  A rule whose
    lower-cased name holds "type", as every rule of the "typescript:"
    repository does, or that holds "TS", is only ever ASYNC-AWAIT,
    DEPRECATED-API, COMPLEXITY or TYPE-ERRORS: the later branches SECURITY,
    UNUSED-CODE, DUPLICATION and GENERAL are out of its reach.  That holds
    for each of the eight rules [generate_fix_instructions] knows. *)
Theorem classify_category_reach (rule message : string) :
  let category := ParseSonarqube.classify_category rule message in
  In category [ "ASYNC-AWAIT"; "DEPRECATED-API"; "COMPLEXITY"; "TYPE-ERRORS";
                "SECURITY"; "UNUSED-CODE"; "DUPLICATION"; "GENERAL" ]
  /\ (contains "type" (lower rule) = true \/ contains "TS" rule = true ->
      In category ["ASYNC-AWAIT"; "DEPRECATED-API"; "COMPLEXITY"; "TYPE-ERRORS"])
  /\ (In rule (map fst ParseSonarqube.instructions) ->
      In category ["ASYNC-AWAIT"; "DEPRECATED-API"; "COMPLEXITY"; "TYPE-ERRORS"]).
Proof.
  cbn zeta.
  assert (Hreach : contains "type" (lower rule) = true \/ contains "TS" rule = true ->
                   In (ParseSonarqube.classify_category rule message)
                      ["ASYNC-AWAIT"; "DEPRECATED-API"; "COMPLEXITY"; "TYPE-ERRORS"]).
  { intros Htype. unfold ParseSonarqube.classify_category.
    destruct (_ || _ || _); [cbn [In]; auto|].
    destruct (_ || _); [cbn [In]; auto|].
    destruct (_ || _); [cbn [In]; auto|].
    assert (Hfourth : contains "TS" rule || contains "type" (lower rule)
                      || contains "type" (lower message) = true).
    { destruct Htype as [-> | ->]; [now rewrite orb_true_r | reflexivity]. }
    rewrite Hfourth. cbn [In]. auto. }
  split; [|split; [exact Hreach|]].
  - unfold ParseSonarqube.classify_category. split_conditions; cbn [In]; auto 10.
  - intros Hknown. apply Hreach. left.
    cbn [map fst ParseSonarqube.instructions In] in Hknown.
    repeat (destruct Hknown as [<-|Hknown]; [reflexivity|]).
    contradiction.
Qed.

Lemma classify_category_reach_witness :
  In (ParseSonarqube.classify_category "typescript:S1128"
                                       "Remove this unused import of 'x'.")
     ["ASYNC-AWAIT"; "DEPRECATED-API"; "COMPLEXITY"; "TYPE-ERRORS"].
Proof.
  destruct (classify_category_reach "typescript:S1128"
                                    "Remove this unused import of 'x'.")
    as (_ & Hreach & _).
  apply Hreach. left. reflexivity.
Defined.

(** X18. The fix complexity is low, medium or high, and it agrees with the
    category on two points: an issue classified UNUSED-CODE, and an issue of
    a rule holding "S4123" (always classified ASYNC-AWAIT), have fix
    complexity low. *)
Theorem classification_agrees (rule message : string) :
  In (ParseSonarqube.assess_complexity rule message) ["low"; "medium"; "high"]
  /\ (ParseSonarqube.classify_category rule message = "UNUSED-CODE" ->
      ParseSonarqube.assess_complexity rule message = "low")
  /\ (contains "S4123" rule = true ->
      ParseSonarqube.classify_category rule message = "ASYNC-AWAIT"
      /\ ParseSonarqube.assess_complexity rule message = "low").
Proof.
  split; [|split].
  - unfold ParseSonarqube.assess_complexity. split_conditions; cbn [In]; auto.
  - unfold ParseSonarqube.classify_category, ParseSonarqube.assess_complexity.
    destruct (contains "unused" (lower message) || contains "S1128" rule);
      [reflexivity|].
    split_conditions; discriminate.
  - intros Hrule.
    unfold ParseSonarqube.classify_category, ParseSonarqube.assess_complexity.
    rewrite Hrule. cbn [orb]. split; [reflexivity|].
    split_conditions; reflexivity.
Qed.

Lemma classification_agrees_witness :
  ParseSonarqube.classify_category "typescript:S4123" "Unexpected value."
  = "ASYNC-AWAIT"
  /\ ParseSonarqube.assess_complexity "typescript:S4123" "Unexpected value."
     = "low".
Proof.
  destruct (classification_agrees "typescript:S4123" "Unexpected value.")
    as (_ & _ & Hawait).
  apply Hawait. reflexivity.
Defined.

(** ** Agents, requirements, impact *)

Lemma elem_of_list_to_set_In (x : string) (l : list string) :
  x ∈ (list_to_set l : gset string) <-> In x l.
Proof. rewrite elem_of_list_to_set. apply list_elem_of_In. Qed.

(** X19. The production guardian is among the agents exactly when the
    severity is BLOCKER or CRITICAL, which is exactly when the verification
    requirements ask for its approval.  For those two severities the agents
    are the same five whatever the rule is; in every case the agents are
    among six known ones. *)
Theorem agents_match_requirements (severity rule : string) :
  ("production-guardian" ∈ ParseSonarqube.select_agents severity rule
   <-> mem severity ["BLOCKER"; "CRITICAL"] = true)
  /\ (In "Production guardian approval required"
         (ParseSonarqube.generate_verification_requirements severity rule)
      <-> mem severity ["BLOCKER"; "CRITICAL"] = true)
  /\ (mem severity ["BLOCKER"; "CRITICAL"] = true ->
      forall agent,
        agent ∈ ParseSonarqube.select_agents severity rule
        <-> In agent [ "pre-code-knowledge-gatherer";
                       "security-compliance-officer";
                       "performance-optimization-expert";
                       "test-automation-architect";
                       "production-guardian" ])
  /\ (forall agent,
         agent ∈ ParseSonarqube.select_agents severity rule ->
         In agent [ "pre-code-knowledge-gatherer";
                    "security-compliance-officer";
                    "performance-optimization-expert";
                    "test-automation-architect";
                    "production-guardian";
                    "specification-compliance-overseer" ]).
Proof.
  unfold ParseSonarqube.select_agents,
    ParseSonarqube.generate_verification_requirements.
  destruct (mem severity ["BLOCKER"; "CRITICAL"]) eqn:Hsevere; cbv iota zeta.
  - split; [|split; [|split]].
    + split; [reflexivity|]. intros _. rewrite elem_of_list_to_set_In.
      split_conditions; cbn [app In]; auto 10.
    + split; [reflexivity|]. intros _. cbn [In]. auto 10.
    + intros _ agent. rewrite elem_of_list_to_set_In.
      split_conditions; cbn [app In]; intuition auto 10.
    + intros agent. rewrite elem_of_list_to_set_In.
      split_conditions; cbn [app In]; intuition auto 10.
  - split; [|split; [|split]].
    + split; [|discriminate]. rewrite elem_of_list_to_set_In.
      split_conditions; cbn [app In]; intuition discriminate.
    + split; [|discriminate].
      split_conditions; cbn [In]; intuition discriminate.
    + discriminate.
    + intros agent. rewrite elem_of_list_to_set_In.
      split_conditions; cbn [app In]; intuition auto 10.
Qed.

Lemma agents_match_requirements_witness :
  "production-guardian"
  ∈ ParseSonarqube.select_agents "CRITICAL" "typescript:S5659".
Proof.
  apply (proj1 (agents_match_requirements "CRITICAL" "typescript:S5659")).
  reflexivity.
Defined.

(** X20. The business impact is one of seven texts.  A path that mentions
    payment or billing is HIGH whatever the severity; severity BLOCKER or
    CRITICAL is always HIGH; severity MAJOR is never LOW; and LOW is given
    exactly when the severity is none of BLOCKER, CRITICAL, MAJOR and the
    path mentions none of payment, billing, auth, security, timeline,
    schedule, vendor, client. *)
Theorem business_impact_levels (severity file_path : string) :
  let impact := ParseSonarqube.assess_business_impact severity file_path in
  let mentions := fun word => contains word (lower file_path) in
  In impact [ "HIGH - Payment processing affected";
              "HIGH - Security and access control";
              "HIGH - Wedding day coordination";
              "HIGH - Critical functionality";
              "MEDIUM - User management affected";
              "MEDIUM - Feature functionality";
              "LOW - Code quality improvement" ]
  /\ (mentions "payment" || mentions "billing" = true ->
      impact = "HIGH - Payment processing affected")
  /\ (mem severity ["BLOCKER"; "CRITICAL"] = true ->
      String.prefix "HIGH" impact = true)
  /\ (severity = "MAJOR" -> String.prefix "LOW" impact = false)
  /\ (impact = "LOW - Code quality improvement"
      <-> mem severity ["BLOCKER"; "CRITICAL"; "MAJOR"] = false
          /\ existsb mentions [ "payment"; "billing"; "auth"; "security";
                                "timeline"; "schedule"; "vendor"; "client" ]
             = false).
Proof.
  cbn zeta. unfold ParseSonarqube.assess_business_impact, mem.
  cbn [existsb].
  destruct (contains "payment" (lower file_path));
    destruct (contains "billing" (lower file_path));
    cbn [orb]; try (repeat split; cbn [In]; auto; try discriminate;
                    intros [? ?]; discriminate).
  destruct (contains "auth" (lower file_path));
    destruct (contains "security" (lower file_path));
    cbn [orb]; try (repeat split; cbn [In]; auto; try discriminate;
                    intros [? ?]; discriminate).
  destruct (contains "timeline" (lower file_path));
    destruct (contains "schedule" (lower file_path));
    cbn [orb]; try (repeat split; cbn [In]; auto; try discriminate;
                    intros [? ?]; discriminate).
  destruct (String.eqb_spec severity "BLOCKER") as [->|Hb];
    [cbn; repeat split; auto 10; try discriminate; intros [? ?]; discriminate|].
  destruct (String.eqb_spec severity "CRITICAL") as [->|Hc];
    [cbn; repeat split; auto 10; try discriminate; intros [? ?]; discriminate|].
  cbn [orb].
  destruct (contains "vendor" (lower file_path));
    destruct (contains "client" (lower file_path));
    cbn [orb]; try (repeat split; cbn [In]; auto 10; try discriminate;
                    intros [? ?]; discriminate).
  destruct (String.eqb_spec severity "MAJOR") as [->|Hm];
    repeat split; cbn [In]; auto 10; try discriminate; try congruence;
    intros [? ?]; discriminate.
Qed.

Lemma business_impact_levels_witness :
  String.prefix "HIGH"
    (ParseSonarqube.assess_business_impact "CRITICAL" "src/lib/format.ts")
  = true.
Proof.
  destruct (business_impact_levels "CRITICAL" "src/lib/format.ts")
    as (_ & _ & Hsevere & _).
  apply Hsevere. reflexivity.
Defined.

(** ** Connected features and reference queries *)

Lemma list_to_set_cons_nonempty (x : string) (l : list string) :
  (list_to_set (x :: l) : gset string) <> ∅.
Proof.
  intros Hempty. apply (not_elem_of_empty (C:=gset string) x).
  rewrite <- Hempty. apply elem_of_list_to_set. left.
Qed.

Lemma lacking_general (l : list string) :
  mem "general" l = false -> "general" ∉ (list_to_set l : gset string).
Proof.
  intros Hlack Hin. apply elem_of_list_to_set_In in Hin.
  assert (Hmem : mem "general" l = true).
  { apply existsb_exists. exists "general". split; [exact Hin|].
    apply String.eqb_refl. }
  congruence.
Qed.

(** X21. The connected features of a file are never empty.  The feature
    "general" is there exactly when the lower-cased path mentions none of the
    thirteen words the function looks for, and then it is the only one: it
    is never listed beside a feature that a word of the path gave. *)
Theorem connected_features_general (file_path : string) :
  let features := ParseSonarqube.identify_connected_features file_path in
  let mentions := fun word => contains word (lower file_path) in
  features <> ∅
  /\ ("general" ∈ features
      <-> existsb mentions [ "payment"; "checkout"; "auth"; "login";
                             "timeline"; "vendor"; "client"; "customer";
                             "photo"; "image"; "gallery"; "notification";
                             "email" ] = false)
  /\ ("general" ∈ features -> features = {["general"]}).
Proof.
  cbn zeta. unfold ParseSonarqube.identify_connected_features.
  set (p := lower file_path).
  assert (Hwords :
            existsb (fun word => contains word p)
                    [ "payment"; "checkout"; "auth"; "login"; "timeline";
                      "vendor"; "client"; "customer"; "photo"; "image";
                      "gallery"; "notification"; "email" ]
            = (contains "payment" p || contains "checkout" p)
              || (contains "auth" p || contains "login" p)
              || contains "timeline" p
              || contains "vendor" p
              || (contains "client" p || contains "customer" p)
              || (contains "photo" p || contains "image" p
                  || contains "gallery" p)
              || (contains "notification" p || contains "email" p)).
  { cbn [existsb]. rewrite orb_false_r, !orb_assoc. reflexivity. }
  rewrite Hwords. clear Hwords.
  generalize (contains "payment" p || contains "checkout" p).
  generalize (contains "auth" p || contains "login" p).
  generalize (contains "timeline" p).
  generalize (contains "vendor" p).
  generalize (contains "client" p || contains "customer" p).
  generalize (contains "photo" p || contains "image" p || contains "gallery" p).
  generalize (contains "notification" p || contains "email" p).
  intros [] [] [] [] [] [] []; cbv zeta iota; cbn [app orb];
    first [ split; [apply list_to_set_cons_nonempty|];
            split; [split; [intros Hin; exfalso; revert Hin | discriminate]
                   | intros Hin; exfalso; revert Hin];
            apply lacking_general; reflexivity
          | split; [intros Hempty;
                    apply (not_elem_of_empty (C:=gset string) "general");
                    rewrite <- Hempty; now apply elem_of_singleton|];
            split; [split; [reflexivity | intros _; now apply elem_of_singleton]
                   | reflexivity] ].
Qed.

Lemma connected_features_general_witness :
  ParseSonarqube.identify_connected_features "src/lib/format.ts"
  = {["general"]}.
Proof.
  destruct (connected_features_general "src/lib/format.ts")
    as (_ & Hgeneral & Honly).
  apply Honly, Hgeneral. reflexivity.
Defined.




